(** * decomp-permuter: the search coordinator and the permuter@home server

    A shallow embedding of [src/main.py] (seed rotation, local worker loop,
    result handling, coordinator loops, interrupt handling) and of the
    [Server] class of [src/net/server.py] (the single-threaded event
    handler in front of the evaluator subprocess), with the properties the
    design document states about them. *)

From Stdlib Require Import ZArith String Ascii List Lia Bool.
From Stdlib Require Import DecimalString DecimalZ Floats.
From stdpp Require Import base gmap strings list.

Local Open Scope Z_scope.
#[local] Set Warnings "-clear-no-such-hyp".

(* ===================================================================== *)
(** * Part I: definitions                                                 *)
(* ===================================================================== *)

(** ** [cycle_seeds] (main.py, l.178-197) *)

Module Seeds.

(** A permuter's [seed_iterator()]: position [si_pos] in a possibly
    infinite enumeration; [si_seeds n = None] is [StopIteration] at the
    n-th request. *)
Record SeedIter := mkSeedIter {
  si_seeds : nat -> option Z;
  si_pos : nat
}.

(** [next(it, None)] *)
Definition seed_next (it : SeedIter) : option (Z * SeedIter) :=
  match si_seeds it (si_pos it) with
  | Some s => Some (s, mkSeedIter (si_seeds it) (S (si_pos it)))
  | None => None
  end.

(** A finite enumeration (forced seed, deterministic mode). *)
Definition finite_iter (l : list Z) : SeedIter :=
  mkSeedIter (fun n => l !! n) 0.

(** An enumeration that never ends (randomized mode). *)
Definition endless_iter (f : nat -> Z) : SeedIter :=
  mkSeedIter (fun n => Some (f n)) 0.

(** The local state of the generator: the list [iterators], each entry
    being [zip(itertools.repeat(perm_ind), it)], and the cursor [i]
    (a Python int: it becomes -1 after [i -= 1] at index 0). *)
Record Gen := mkGen {
  iterators : list (nat * SeedIter);
  cursor : Z
}.

(** The state built before the [while] loop. *)
Definition cycle_seeds (permuters : list SeedIter) : Gen :=
  mkGen (imap (fun perm_ind it => (perm_ind, it)) permuters) 0.

Inductive LoopStep :=
| LStop                              (* [while iterators] is false *)
| LDrop (g : Gen)                    (* [del iterators[i]; i -= 1] *)
| LYield (item : nat * Z) (g : Gen). (* [yield item; i += 1] *)

(** One iteration of the [while iterators:] loop.  [i %= len(iterators)]
    is Python's floored modulo, which is [Z.modulo] for a positive
    divisor. *)
Definition loop_body (g : Gen) : LoopStep :=
  match iterators g with
  | [] => LStop
  | _ :: _ =>
    let i := cursor g `mod` Z.of_nat (length (iterators g)) in
    match iterators g !! Z.to_nat i with
    | None => LStop
    | Some (perm_ind, it) =>
      match seed_next it with
      | None => LDrop (mkGen (delete (Z.to_nat i) (iterators g)) (i - 1))
      | Some (s, it') =>
        LYield (perm_ind, s)
               (mkGen (<[Z.to_nat i := (perm_ind, it')]> (iterators g)) (i + 1))
      end
    end
  end.

(** Resuming the generator: iterate the loop up to the next [yield].
    [None] is the end of the generator.  Every iteration that does not
    yield deletes an iterator, so [S (length iterators)] iterations are
    always enough (see [advance_fuel_irrelevant]). *)
Fixpoint advance (fuel : nat) (g : Gen) : option ((nat * Z) * Gen) :=
  match fuel with
  | O => None
  | S fuel' =>
    match loop_body g with
    | LStop => None
    | LDrop g' => advance fuel' g'
    | LYield item g' => Some (item, g')
    end
  end.

(** [next(perm_seed_iter, None)] *)
Definition gen_next (g : Gen) : option ((nat * Z) * Gen) :=
  advance (S (length (iterators g))) g.

(** The first [n] items of the stream (fewer if it ends before). *)
Fixpoint cycle_take (n : nat) (g : Gen) : list (nat * Z) :=
  match n with
  | O => []
  | S n' =>
    match gen_next g with
    | None => []
    | Some (item, g') => item :: cycle_take n' g'
    end
  end.

(** An iterator that never raises [StopIteration]. *)
Definition endless (it : SeedIter) : Prop :=
  forall n, is_Some (si_seeds it n).

(** The generator state after [k] yields when no iterator has ended:
    all [N] iterators are in place and the cursor stands at [k] modulo
    [N]. *)
Definition rotating (N k : nat) (g : Gen) : Prop :=
  length (iterators g) = N
  /\ (forall j, (j < N)%nat ->
       exists it, iterators g !! j = Some (j, it) /\ endless it)
  /\ cursor g `mod` Z.of_nat N = Z.of_nat (k `mod` N).

(** The ordering guarantee, as a check on a finite prefix [out] of the
    stream, given for each position the permuters that are still live
    there: between two successive yields of a permuter (positions [a] and
    [b]), every other permuter that yields again at [b] or later occurs
    exactly once. *)
Definition occurrences (p : nat) (l : list (nat * Z)) : nat :=
  length (filter (fun x => x.1 = p) l).

Definition yields_later (q : nat) (b : nat) (out : list (nat * Z)) : bool :=
  bool_decide (0 < occurrences q (drop b out))%nat.

(** positions [a < b] are successive yields of the same permuter *)
Definition successive (a b : nat) (out : list (nat * Z)) : bool :=
  match out !! a, out !! b with
  | Some (p, _), Some (p', _) =>
    bool_decide (p = p') &&
    bool_decide (occurrences p (take (b - S a) (drop (S a) out)) = 0%nat)
  | _, _ => false
  end.

Definition fair_between (a b : nat) (out : list (nat * Z)) : bool :=
  match out !! a with
  | None => true
  | Some (p, _) =>
    forallb (fun q =>
      bool_decide (q = p) || negb (yields_later q b out) ||
      bool_decide (occurrences q (take (b - S a) (drop (S a) out)) = 1%nat))
      (seq 0 (S (foldr (fun x m => Nat.max x.1 m) 0%nat out)))
  end.

Definition round_robin_fair (out : list (nat * Z)) : bool :=
  forallb (fun a =>
    forallb (fun b =>
      negb (bool_decide (a < b)%nat) || negb (successive a b out)
      || fair_between a b out)
      (seq 0 (length out)))
    (seq 0 (length out)).

End Seeds.


(** ** Python built-ins used by the sources *)

Module Py.

(** the characters written [\n], [\t] and [\u001b] in the sources *)
Definition newline : string := String "010"%char EmptyString.
Definition tab : string := String "009"%char EmptyString.
Definition esc : string := String "027"%char EmptyString.

(** [str(n)] for an int: decimal, a leading minus sign for negatives. *)
Definition str_int (z : Z) : string := NilEmpty.string_of_int (Z.to_int z).

Definition is_space (c : ascii) : bool :=
  let n := nat_of_ascii c in
  bool_decide (9 <= n <= 13)%nat || bool_decide (28 <= n <= 32)%nat.

Definition digit_value (c : ascii) : option Z :=
  let n := nat_of_ascii c in
  if bool_decide (48 <= n <= 57)%nat then Some (Z.of_nat n - 48) else None.

(** Decimal digits, single underscores allowed between two digits. *)
Fixpoint parse_digits (acc : Z) (after_digit : bool) (s : list ascii)
  : option Z :=
  match s with
  | [] => if after_digit then Some acc else None
  | c :: rest =>
    match digit_value c with
    | Some d => parse_digits (10 * acc + d) true rest
    | None =>
      if bool_decide (c = "_"%char) && after_digit
      then parse_digits acc false rest
      else None
    end
  end.

Fixpoint lstrip (s : list ascii) : list ascii :=
  match s with
  | c :: rest => if is_space c then lstrip rest else s
  | [] => []
  end.

(** [int(s)] on an ASCII string: surrounding whitespace is ignored, an
    optional sign, then decimal digits.  [None] is [ValueError]. *)
Definition int_str (s : string) : option Z :=
  let body := rev (lstrip (rev (lstrip (list_ascii_of_string s)))) in
  match body with
  | "-"%char :: ds => Z.opp <$> parse_digits 0 false ds
  | "+"%char :: ds => parse_digits 0 false ds
  | ds => parse_digits 0 false ds
  end.

Definition starts_with_sep (s : string) : bool :=
  match s with
  | String "/" _ => true
  | _ => false
  end.

Fixpoint ends_with_sep (s : string) : bool :=
  match s with
  | EmptyString => false
  | String c EmptyString => bool_decide (c = "/"%char)
  | String _ rest => ends_with_sep rest
  end.

(** [os.path.join(a, b)] (posixpath). *)
Definition path_join (a b : string) : string :=
  if starts_with_sep b then b
  else if bool_decide (a = EmptyString) || ends_with_sep a then a +:+ b
  else a +:+ "/" +:+ b.

End Py.


(** ** Tasks, feedback and evaluation results (imported by main.py from
    the permuter module) *)

Module Types.

(** Timing data is produced and formatted by the profiler module. *)
Class ProfilerOps := {
  Profiler : Type;
  new_profiler : Profiler;
  (** [for stattype in profiler.time_stats: overall.add_stat(...)] *)
  add_stats : Profiler -> Profiler -> Profiler;
  get_str_stats : Profiler -> string
}.

Section WithProfiler.
Context `{ProfilerOps}.

Record CandidateResult := mkCandidateResult {
  cr_score : Z;
  cr_hash : option string;
  cr_source : option string;
  cr_profiler : Profiler
}.

(** [seed] is the pair (keep flag, rng seed) that reproduces the failure *)
Record EvalError := mkEvalError {
  exc_str : string;
  err_seed : option (Z * Z)
}.

Inductive EvalResult :=
| RCandidate (r : CandidateResult)
| RError (e : EvalError).

Inductive Task :=
| TFinished (reason : option string)
| TWork (perm_index : nat) (seed : Z).

Inductive FeedbackItem :=
| FFinished (reason : option string)
| FMessage (text : string)
| FNeedMoreWork
| FWorkDone (perm_index : nat) (result : EvalResult).

(** a feedback item and its originator [who] *)
Definition Feedback : Type := FeedbackItem * option string.

(** The fields of a [Permuter] that main.py reads or writes. *)
Record Permuter := mkPermuter {
  perm_dir : string;
  fn_name : string;
  unique_name : string;
  best_score : Z;
  base_score : Z;
  base_source : string;
  penalty_inf : Z;              (* [scorer.PENALTY_INF] *)
  seed_iterator : Seeds.SeedIter
}.

(** The methods of [Permuter] that main.py calls. *)
Class PermuterOps := {
  should_output : Permuter -> CandidateResult -> bool;
  record_result : Permuter -> CandidateResult -> Permuter;
  perm_diff : Permuter -> string -> string;
  try_eval_candidate : Permuter -> Z -> EvalResult * Permuter
}.

End WithProfiler.

End Types.

(** ** [multiprocess_worker] (main.py, l.200-235) *)

Module Worker.
Import Types.

Section WithOps.
Context `{ProfilerOps} `{!PermuterOps}.

(** What a call of [input_queue.get] meets.  The queue is declared to
    carry tasks; the loop also tests the item against [None], so an item
    is an optional task. *)
Inductive QueueObs :=
| QNothing                       (* no item is available right now *)
| QItem (item : option Task)
| QKeyboardInterrupt.            (* Ctrl+C while in the loop *)

Inductive Status :=
| Running
| Returned                       (* [break] after a [Finished] *)
| Interrupted                    (* the [except KeyboardInterrupt] branch *)
| Crashed (exn : string).        (* an exception nothing catches *)

Record State := mkState {
  should_block : bool;
  permuters : list Permuter;
  output_queue : list Feedback;  (* what was [put], oldest first *)
  output_closed : bool;
  status : Status
}.

Definition initial (perms : list Permuter) : State :=
  mkState false perms [] false Running.

Definition put (fb : FeedbackItem) (w : State) : State :=
  mkState (should_block w) (permuters w) (output_queue w ++ [(fb, None)])
          (output_closed w) (status w).

Definition set_block (b : bool) (w : State) : State :=
  mkState b (permuters w) (output_queue w) (output_closed w) (status w).

Definition set_status (s : Status) (w : State) : State :=
  mkState (should_block w) (permuters w) (output_queue w) (output_closed w) s.

Definition close_output (w : State) : State :=
  mkState (should_block w) (permuters w) (output_queue w) true (status w).

Definition set_permuters (ps : list Permuter) (w : State) : State :=
  mkState (should_block w) ps (output_queue w) (output_closed w) (status w).

(** [multiprocessing.Queue.get(block)]: with [block=True] the call waits
    for an item; with [block=False] it returns an item that is there and
    raises [queue.Empty] when there is none. *)
Inductive GetResult :=
| GotItem (item : option Task)
| StillWaiting
| RaisedEmpty
| RaisedKeyboardInterrupt.

Definition queue_get (block : bool) (obs : QueueObs) : GetResult :=
  match obs with
  | QItem item => GotItem item
  | QNothing => if block then StillWaiting else RaisedEmpty
  | QKeyboardInterrupt => RaisedKeyboardInterrupt
  end.

(** One pass through the body of [while True], on what the queue offers.
    The only handler around the loop is [except KeyboardInterrupt]. *)
Definition loop_body (w : State) (obs : QueueObs) : State :=
  match queue_get (should_block w) obs with
  | StillWaiting => w
  | RaisedEmpty => set_status (Crashed "queue.Empty") w
  | RaisedKeyboardInterrupt => set_status Interrupted w
  | GotItem None => set_block true (put FNeedMoreWork w)
  | GotItem (Some (TFinished reason)) =>
    set_status Returned (close_output (put (FFinished reason) (set_block false w)))
  | GotItem (Some (TWork permuter_index seed)) =>
    let w := set_block false w in
    match permuters w !! permuter_index with
    | None => set_status (Crashed "IndexError") w
    | Some permuter =>
      let '(result, permuter) := try_eval_candidate permuter seed in
      let permuter :=
        match result with
        | RCandidate r =>
          if should_output permuter r then record_result permuter r
          else permuter
        | RError _ => permuter
        end in
      put (FWorkDone permuter_index result)
          (set_permuters (<[permuter_index := permuter]> (permuters w)) w)
    end
  end.

(** The worker process, from the state [w], on what its successive
    calls of [input_queue.get] meet. *)
Fixpoint multiprocess_worker (w : State) (obs : list QueueObs) : State :=
  match obs with
  | [] => w
  | o :: rest =>
    match status w with
    | Running => multiprocess_worker (loop_body w o) rest
    | _ => w
    end
  end.

End WithOps.
End Worker.

(** ** [write_candidate] (main.py, l.92-113) *)

Module Output.
Import Types.

(** The part of the file system under the job directories: what exists at
    a path. *)
Inductive Node :=
| Dir
| File (content : string).

(** What the terminal receives. *)
Inductive Printed :=
| PrinterPrint (msg : string) (permuter : option string) (who : option string)
               (color : option string) (keep_progress : bool)
| PrinterProgress (status : string)
| PrintLn (line : string)
| PrintExc                       (* [traceback.print_exc()] *)
| Input (prompt : string).

(** [os.mkdir(path)]: [None] is [FileExistsError].  The job directory
    itself exists (its files were read when the permuter was built). *)
Definition mkdir (path : string) (fs : gmap string Node)
  : option (gmap string Node) :=
  match fs !! path with
  | Some _ => None
  | None => Some (<[path := Dir]> fs)
  end.

(** [with open(path, "x") as f: f.write(content)]: exclusive creation,
    [None] is [FileExistsError]. *)
Definition create_file (path content : string) (fs : gmap string Node)
  : option (gmap string Node) :=
  match fs !! path with
  | Some _ => None
  | None => Some (<[path := File content]> fs)
  end.

(** [os.path.join(perm.dir, f"output-{result.score}-{ctr}")] *)
Definition output_dir_name (dir : string) (score ctr : Z) : string :=
  Py.path_join dir ("output-" +:+ Py.str_int score +:+ "-" +:+ Py.str_int ctr).

(** The [while True] loop: [ctr += 1], then [os.mkdir], leaving the loop
    when it succeeds and going round again on [FileExistsError].  The
    result is the final [ctr], the directory and the new file system;
    [None] only when [fuel] iterations did not suffice. *)
Fixpoint mkdir_loop (fuel : nat) (ctr : Z) (dir : string) (score : Z)
    (fs : gmap string Node) : option (Z * string * gmap string Node) :=
  match fuel with
  | O => None
  | S fuel' =>
    let ctr := ctr + 1 in
    let output_dir := output_dir_name dir score ctr in
    match mkdir output_dir fs with
    | Some fs' => Some (ctr, output_dir, fs')
    | None => mkdir_loop fuel' ctr dir score fs
    end
  end.

(** The loop from [ctr = 0]; one more iteration than there are entries
    always finds a free name (see [next_output_dir_total]). *)
Definition next_output_dir (dir : string) (score : Z) (fs : gmap string Node)
  : option (Z * string * gmap string Node) :=
  mkdir_loop (S (size fs)) 0 dir score fs.

Inductive WriteResult :=
| Wrote (output_dir : string) (fs : gmap string Node) (out : list Printed)
| WriteRaised (exn : string) (fs : gmap string Node).

Section WithOps.
Context `{ProfilerOps} `{!PermuterOps}.

Definition write_candidate (perm : Permuter) (result : CandidateResult)
    (fs : gmap string Node) : WriteResult :=
  match next_output_dir (perm_dir perm) (cr_score result) fs with
  | None => WriteRaised "unreachable" fs
  | Some (_, output_dir, fs) =>
    match cr_source result with
    | None => WriteRaised "AssertionError: _need_to_send_source is wrong!" fs
    | Some source =>
      match
        fs ← create_file (Py.path_join output_dir "source.c") source fs;
        fs ← create_file (Py.path_join output_dir "base.c") (base_source perm) fs;
        fs ← create_file (Py.path_join output_dir "score.txt")
                         (Py.str_int (cr_score result) +:+ Py.newline) fs;
        create_file (Py.path_join output_dir "diff.txt")
                    (perm_diff perm source +:+ Py.newline) fs
      with
      | Some fs' => Wrote output_dir fs' [PrintLn ("wrote to " +:+ output_dir)]
      | None => WriteRaised "FileExistsError" fs
      end
    end
  end.

End WithOps.
End Output.

(** ** [post_score] (main.py, l.116-175) *)

Module Scoring.
Import Types Output.

(** The options the modelled code reads. *)
Record Options := mkOptions {
  show_timings : bool;
  print_diffs : bool;
  abort_exceptions : bool;
  stop_on_zero : bool;
  threads : Z;
  use_network : bool
}.

Section WithOps.
Context `{ProfilerOps} `{!PermuterOps}.

(** [EvalContext], together with the terminal output and the file system
    the scoring code acts on. *)
Record EvalContext := mkEvalContext {
  options : Options;
  iteration : Z;
  errors : Z;
  overall_profiler : Profiler;
  permuters : list Permuter;
  terminal : list Printed;
  files : gmap string Node
}.

Definition emit (out : list Printed) (c : EvalContext) : EvalContext :=
  mkEvalContext (options c) (iteration c) (errors c) (overall_profiler c)
                (permuters c) (terminal c ++ out) (files c).

Definition set_counters (it err : Z) (c : EvalContext) : EvalContext :=
  mkEvalContext (options c) it err (overall_profiler c)
                (permuters c) (terminal c) (files c).

Definition set_overall (p : Profiler) (c : EvalContext) : EvalContext :=
  mkEvalContext (options c) (iteration c) (errors c) p
                (permuters c) (terminal c) (files c).

Definition set_permuter (i : nat) (p : Permuter) (c : EvalContext)
  : EvalContext :=
  mkEvalContext (options c) (iteration c) (errors c) (overall_profiler c)
                (<[i := p]> (permuters c)) (terminal c) (files c).

Definition set_files (fs : gmap string Node) (c : EvalContext) : EvalContext :=
  mkEvalContext (options c) (iteration c) (errors c) (overall_profiler c)
                (permuters c) (terminal c) fs.

Inductive Outcome :=
| Return (found_zero : bool) (c : EvalContext)
| SysExit (code : Z) (c : EvalContext)
| Raised (exn : string) (c : EvalContext).

(** The line that tells how to rerun a failing seed. *)
Definition reproducer (seed : Z * Z) : string :=
  let seed_str := Py.str_int seed.2 in
  let seed_str :=
    if bool_decide (seed.1 ≠ 0) then Py.str_int seed.1 +:+ "," +:+ seed_str
    else seed_str in
  "To reproduce the failure, rerun with: --seed " +:+ seed_str.

(** What the error branch always prints, whatever the seed. *)
Definition failure_notice (permuter : Permuter) (e : EvalError)
    (who : option string) : list Printed :=
  [PrinterPrint "internal permuter failure." (Some (unique_name permuter))
                who None true;
   PrintLn (exc_str e)].

(** The [isinstance(result, EvalError)] branch. *)
Definition post_eval_error (c : EvalContext) (permuter : Permuter)
    (e : EvalError) (who : option string) : Outcome :=
  let c := emit [PrinterPrint "internal permuter failure."
                              (Some (unique_name permuter)) who None true] c in
  let c := emit [PrintLn (exc_str e)] c in
  let c :=
    match err_seed e with
    | Some seed => emit [PrintLn (reproducer seed)] c
    | None => c
    end in
  if abort_exceptions (options c) then SysExit 1 c else Return false c.

Definition improvement_message (score_value former_best base : Z)
  : string * string :=
  if bool_decide (score_value < former_best) then
    (Py.esc +:+ "[32;1m", "found new best score! (" +:+ Py.str_int score_value +:+ " vs "
               +:+ Py.str_int base +:+ ")")
  else if bool_decide (score_value = former_best) then
    (Py.esc +:+ "[32;1m", "tied best score! (" +:+ Py.str_int score_value +:+ " vs "
               +:+ Py.str_int base +:+ ")")
  else if bool_decide (score_value < base) then
    (Py.esc +:+ "[33m", "found a better score! (" +:+ Py.str_int score_value +:+ " vs "
             +:+ Py.str_int base +:+ ")")
  else
    (Py.esc +:+ "[33m", "found different asm with same score (" +:+ Py.str_int score_value
             +:+ ")").

(** [post_score(context, permuter, result, who)]; [perm_index] is the
    place of [permuter] in [context.permuters], the object that
    [record_result] updates. *)
Definition post_score (c : EvalContext) (perm_index : nat) (permuter : Permuter)
    (result : EvalResult) (who : option string) : Outcome :=
  match result with
  | RError e => post_eval_error c permuter e who
  | RCandidate result =>
    let diffs :=
      if print_diffs (options c) then
        match cr_source result with
        | None => None
        | Some source =>
          Some (emit [PrintLn ""; PrintLn (perm_diff permuter source);
                      Input "Press any key to continue..."] c)
        end
      else Some c in
    match diffs with
    | None => Raised "AssertionError: _need_to_send_source is wrong" c
    | Some c =>
      let score_value := cr_score result in
      let it := iteration c + 1 in
      let '(disp_score, err) :=
        if bool_decide (score_value = penalty_inf permuter)
        then ("inf", errors c + 1)
        else (Py.str_int score_value, errors c) in
      let c := set_counters it err c in
      let '(timings, c) :=
        if show_timings (options c) then
          let overall := add_stats (overall_profiler c) (cr_profiler result) in
          ("  " +:+ Py.tab +:+ get_str_stats overall, set_overall overall c)
        else ("", c) in
      let status_line :=
        "iteration " +:+ Py.str_int it +:+ ", " +:+ Py.str_int err
        +:+ " errors, score = " +:+ disp_score +:+ timings in
      let finish c :=
        Return (bool_decide (score_value = 0))
               (emit [PrinterProgress status_line] c) in
      if should_output permuter result then
        let former_best := best_score permuter in
        let recorded := record_result permuter result in
        let c := set_permuter perm_index recorded c in
        let '(color, msg) :=
          improvement_message score_value former_best (base_score recorded) in
        let c := emit [PrinterPrint msg (Some (unique_name recorded)) who
                                    (Some color) false] c in
        match write_candidate recorded result (files c) with
        | WriteRaised exn fs => Raised exn (set_files fs c)
        | Wrote _ fs out => finish (emit out (set_files fs c))
        end
      else finish c
    end
  end.

End WithOps.
End Scoring.

(** ** The coordinator: [run_inner] from [found_zero = False] on, and
    [run] (main.py, l.237-254 and l.325-438) *)

Module Coordinator.
Import Types Output Scoring.

Section WithOps.
Context `{ProfilerOps} `{!PermuterOps}.

(** The locals of [run_inner] and the [last_time] of [run].  [scored] is
    a history of the calls of [post_score] made by the loops; the code
    does not read it. *)
Record Coord := mkCoord {
  context : EvalContext;
  active_workers : Z;
  found_zero : bool;
  perm_seed_iter : Seeds.Gen;
  task_queue : list Task;          (* what was [put], oldest first *)
  last_time : float;               (* seconds, [time.time()] *)
  scored : list (nat * EvalResult)
}.

Definition set_context (x : EvalContext) (c : Coord) : Coord :=
  mkCoord x (active_workers c) (found_zero c) (perm_seed_iter c)
          (task_queue c) (last_time c) (scored c).

Definition set_active (n : Z) (c : Coord) : Coord :=
  mkCoord (context c) n (found_zero c) (perm_seed_iter c)
          (task_queue c) (last_time c) (scored c).

Definition set_found_zero (b : bool) (c : Coord) : Coord :=
  mkCoord (context c) (active_workers c) b (perm_seed_iter c)
          (task_queue c) (last_time c) (scored c).

Definition set_seed_iter (g : Seeds.Gen) (c : Coord) : Coord :=
  mkCoord (context c) (active_workers c) (found_zero c) g
          (task_queue c) (last_time c) (scored c).

Definition put_tasks (ts : list Task) (c : Coord) : Coord :=
  mkCoord (context c) (active_workers c) (found_zero c) (perm_seed_iter c)
          (task_queue c ++ ts) (last_time c) (scored c).

(** [heartbeat()]: [last_time = time.time()] *)
Definition heartbeat (now : float) (c : Coord) : Coord :=
  mkCoord (context c) (active_workers c) (found_zero c) (perm_seed_iter c)
          (task_queue c) now (scored c).

Definition log_scored (i : nat) (r : EvalResult) (c : Coord) : Coord :=
  mkCoord (context c) (active_workers c) (found_zero c) (perm_seed_iter c)
          (task_queue c) (last_time c) (scored c ++ [(i, r)]).

(** What one turn of a loop meets: the clock read by [heartbeat()], then
    either an item from [feedback_queue.get()] or a Ctrl+C while waiting
    for one ([now] is the clock read by the handler in [run]). *)
Inductive Arrival :=
| Got (fb : Feedback)
| CtrlC (now : float).

Record Turn := mkTurn {
  clock : float;
  arrival : Arrival
}.

Inductive LoopEnd :=
| Left (c : Coord) (rest : list Turn)   (* [break], or the condition is false *)
| Waiting (c : Coord)                   (* inside [feedback_queue.get()] *)
| Exited (code : Z) (c : Coord)         (* [sys.exit] in [post_score] *)
| Failed (exn : string) (c : Coord)
| Interrupt (now : float) (c : Coord).  (* [KeyboardInterrupt] *)

(** [process_finish]; the reason is printed when it is neither [None] nor
    empty. *)
Definition process_finish (reason : option string) (who : option string)
    (c : Coord) : Coord :=
  let c :=
    match reason with
    | Some r =>
      if bool_decide (r = EmptyString) then c
      else set_context (emit [PrinterPrint r None who None true] (context c)) c
    | None => c
    end in
  set_active (active_workers c - 1) c.

Definition print_message (text : string) (who : option string) (c : Coord)
  : Coord :=
  set_context (emit [PrinterPrint text None who None true] (context c)) c.

(** [process_result]: the outcome of [post_score], [None] when
    [context.permuters[work.perm_index]] is out of range. *)
Definition process_result (perm_index : nat) (result : EvalResult)
    (who : option string) (c : Coord) : option Outcome :=
  match permuters (context c) !! perm_index with
  | None => None
  | Some permuter => Some (post_score (context c) perm_index permuter result who)
  end.

(** The end of the body of the feeding loop: take the next task from the
    seed stream and enqueue it; [None] is the [break] on an exhausted
    stream. *)
Definition feed_one (c : Coord) : option Coord :=
  match Seeds.gen_next (perm_seed_iter c) with
  | None => None
  | Some ((perm_index, seed), g) =>
    Some (put_tasks [TWork perm_index seed] (set_seed_iter g c))
  end.

(** The first [while active_workers > 0] loop (l.390-409). *)
Fixpoint feeding (c : Coord) (turns : list Turn) : LoopEnd :=
  if bool_decide (active_workers c > 0) then
    match turns with
    | [] => Waiting c
    | t :: rest =>
      let c := heartbeat (clock t) c in
      let refill c :=
        match feed_one c with
        | None => Left c rest
        | Some c => feeding c rest
        end in
      match arrival t with
      | CtrlC now => Interrupt now c
      | Got (FFinished reason, who) => feeding (process_finish reason who c) rest
      | Got (FMessage text, who) => refill (print_message text who c)
      | Got (FNeedMoreWork, who) => refill c
      | Got (FWorkDone perm_index result, who) =>
        match process_result perm_index result who c with
        | None => Failed "IndexError" c
        | Some (Raised exn x) => Failed exn (set_context x c)
        | Some (SysExit code x) =>
          Exited code (log_scored perm_index result (set_context x c))
        | Some (Return zero x) =>
          let c := log_scored perm_index result (set_context x c) in
          if zero then
            let c := set_found_zero true c in
            if stop_on_zero (options (context c)) then Left c rest
            else refill c
          else refill c
        end
      end
    end
  else Left c turns.

(** [for i in range(active_workers): task_queue.put(Finished())] *)
Definition signal_stop (c : Coord) : Coord :=
  put_tasks (replicate (Z.to_nat (active_workers c)) (TFinished None)) c.

(** The second [while active_workers > 0] loop (l.416-427). *)
Fixpoint draining (c : Coord) (turns : list Turn) : LoopEnd :=
  if bool_decide (active_workers c > 0) then
    match turns with
    | [] => Waiting c
    | t :: rest =>
      let c := heartbeat (clock t) c in
      match arrival t with
      | CtrlC now => Interrupt now c
      | Got (FFinished reason, who) => draining (process_finish reason who c) rest
      | Got (FMessage text, who) => draining (print_message text who c) rest
      | Got (FNeedMoreWork, who) => draining c rest
      | Got (FWorkDone perm_index result, who) =>
        if negb (stop_on_zero (options (context c)) && found_zero c) then
          match process_result perm_index result who c with
          | None => Failed "IndexError" c
          | Some (Raised exn x) => Failed exn (set_context x c)
          | Some (SysExit code x) =>
            Exited code (log_scored perm_index result (set_context x c))
          | Some (Return zero x) =>
            let c := log_scored perm_index result (set_context x c) in
            draining (if zero then set_found_zero true c else c) rest
          end
        else draining c rest
      end
    end
  else Left c turns.

Inductive RunEnd :=
| Returned (best_scores : list Z) (c : Coord)
| StillRunning (c : Coord)
| ProcessExit (code : Z) (c : Coord)
| Uncaught (exn : string) (c : Coord)
| KeyboardInterrupt (now : float) (c : Coord).

(** The end of [run_inner] (l.436-438). *)
Definition finish (c : Coord) : RunEnd :=
  let c :=
    if found_zero c then
      set_context (emit [PrintLn (Py.newline +:+ "Found zero score! Exiting.")]
                        (context c)) c
    else c in
  Returned (best_score <$> permuters (context c)) c.

Definition lift (e : LoopEnd) (k : Coord -> list Turn -> RunEnd) : RunEnd :=
  match e with
  | Left c rest => k c rest
  | Waiting c => StillRunning c
  | Exited code c => ProcessExit code c
  | Failed exn c => Uncaught exn c
  | Interrupt now c => KeyboardInterrupt now c
  end.

(** The branch of [run_inner] with queues: feed, signal the workers to
    stop, await the final results.  (Joining the workers has no effect on
    the state kept here.) *)
Definition run_queues (c : Coord) (turns : list Turn) : RunEnd :=
  lift (feeding c turns) (fun c rest =>
  lift (draining (signal_stop c) rest) (fun c _ => finish c)).

(** The single-threaded branch (l.330-337): each turn is one iteration of
    the [for] loop; nothing is read from a queue, so an item in a turn is
    ignored and only the clock and a Ctrl+C matter. *)
Fixpoint run_single (c : Coord) (turns : list Turn) : RunEnd :=
  match Seeds.gen_next (perm_seed_iter c) with
  | None => finish c
  | Some ((permuter_index, seed), g) =>
    match turns with
    | [] => StillRunning c
    | t :: rest =>
      let c := heartbeat (clock t) (set_seed_iter g c) in
      match arrival t with
      | CtrlC now => KeyboardInterrupt now c
      | Got _ =>
        match permuters (context c) !! permuter_index with
        | None => Uncaught "IndexError" c
        | Some permuter =>
          let '(result, permuter) := try_eval_candidate permuter seed in
          let x := set_permuter permuter_index permuter (context c) in
          match post_score x permuter_index permuter result None with
          | Raised exn x => Uncaught exn (set_context x c)
          | SysExit code x =>
            ProcessExit code (log_scored permuter_index result (set_context x c))
          | Return zero x =>
            let c := log_scored permuter_index result (set_context x c) in
            if zero then
              let c := set_found_zero true c in
              if stop_on_zero (options (context c)) then finish c
              else run_single c rest
            else run_single c rest
          end
        end
      end
    end
  end.

(** The [Finished] items among some turns, and the results carried by
    their [WorkDone] items. *)
Definition is_finished (t : Turn) : bool :=
  match arrival t with
  | Got (FFinished _, _) => true
  | _ => false
  end.

Definition finished_count (turns : list Turn) : nat :=
  length (List.filter is_finished turns).

Definition work_items (turns : list Turn) : list (nat * EvalResult) :=
  omap (fun t => match arrival t with
                 | Got (FWorkDone i r, _) => Some (i, r)
                 | _ => None
                 end) turns.

Definition is_interrupt (t : Turn) : bool :=
  match arrival t with
  | CtrlC _ => true
  | Got _ => false
  end.

(** [interrupted_at turns now last]: the first Ctrl+C among [turns] is
    caught at time [now], in a turn whose heartbeat read [last]. *)
Definition interrupted_at (turns : list Turn) (now last : float) : Prop :=
  exists before t after,
    turns = before ++ t :: after
    /\ Forall (fun t => is_interrupt t = false) before
    /\ arrival t = CtrlC now
    /\ clock t = last.

(** Nothing but work items was added to a task queue. *)
Definition only_work_added (old new : list Task) : Prop :=
  exists ws, new = old ++ ws /\ Forall (fun t => exists i s, t = TWork i s) ws.

(** [options.stop_on_zero and found_zero]: the terminal zero is locked in. *)
Definition zero_locked (c : Coord) : bool :=
  stop_on_zero (options (context c)) && found_zero c.

(** The state at [found_zero = False], after loading: [start] is the
    clock at the last [heartbeat()] of the loading loop (or at the entry
    of [run]), [workers] is [len(net_threads) + len(processes)]. *)
Definition loaded (x : EvalContext) (workers : Z) (start : float) : Coord :=
  mkCoord x workers false
          (Seeds.cycle_seeds (seed_iterator <$> permuters x)) [] start [].

Definition run_inner (c : Coord) (turns : list Turn) : RunEnd :=
  if bool_decide (threads (options (context c)) = 1)
     && negb (use_network (options (context c)))
  then run_single c turns
  else if bool_decide (active_workers c = 0) then
    ProcessExit 1 (set_context
      (emit [PrintLn "No remote servers available. Exiting."] (context c)) c)
  else run_queues c turns.



End WithOps.
End Coordinator.

(** ** [Server] (net/server.py, l.392-669) *)

Module Server.

Record Client := mkClient {
  client_id : string;
  nickname : string
}.

(** The wire form of a permuter; [target_o_bin] is a byte string. *)
Record PermuterData := mkPermuterData {
  pd_fn_name : string;
  pd_filename : string;
  pd_keep_prob : float;
  pd_stack_differences : bool;
  pd_compile_script : string;
  pd_source : string;
  pd_target_o_bin : string
}.

(** JSON values, for the result object the evaluator returns. *)
#[warnings="-register-all"]
Inductive Json :=
| JNull
| JBool (b : bool)
| JInt (z : Z)
| JFloat (f : float)
| JStr (s : string)
| JArray (l : list Json)
| JObject (l : list (string * Json)).

Inductive Activity :=
| AddPermuter (handle : Z) (client : Client) (permuter_data : PermuterData)
| RemovePermuter (handle : Z)
| Work (handle : Z) (seed : Z)
| ImmediateDisconnect (handle : Z) (client : Client) (reason : string)
| Disconnect (handle : Z)
| PermInitFail (perm_id : string) (error : string)
| PermInitSuccess (perm_id : string) (base_score : Z) (base_hash : string)
                  (time_us : float)
| WorkDone (perm_id : string) (obj : gmap string Json) (time_us : float)
           (compressed_source : option string)
| NeedMoreWork
| NetThreadDisconnected (thread_id : Z)
| Heartbeat
| Shutdown.

(** Messages for the write loop of the network thread. *)
Inductive Output :=
| OutputDisconnect (handle : Z)
| OutputInitFail (handle : Z) (error : string)
| OutputInitSuccess (handle : Z) (base_score : Z) (base_hash : string)
                    (time_us : float)
| OutputNeedMoreWork
| OutputWork (handle : Z) (time_us : float) (obj : gmap string Json)
             (compressed_source : option string)
| OutputShutdown.

Inductive IoMessage :=
| IoConnect (fn_name : string) (client : Client)
| IoDisconnect (reason : string)
| IoImmediateDisconnect (reason : string) (client : Client)
| IoWorkDone (score : option Z) (is_improvement : bool).

Inductive IoActivity :=
| IoFor (handle : Z) (msg : IoMessage)
| IoShutdown
| IoWillSleep.

(** What the server writes to the evaluator port: JSON messages
    ([send_json]) and raw frames ([send]). *)
Inductive EvalJson :=
| JsonAdd (id : string) (perm : PermuterData)
    (* [{"type": "add", "id": id, **permuter_data_to_json(perm)}] *)
| JsonWork (id : string) (seed : Z)
| JsonRemove (id : string).

Inductive PortSend :=
| SendJson (msg : EvalJson)
| SendBytes (data : string).

(** The fields of [Server] that [_handle_message] reads or writes.
    [net_thread] is the id of the current [NetThread], if any;
    [controller_sent] is everything put on a controller queue,
    [evaluator_sent] everything written to the evaluator port,
    [io_queue] everything put on the I/O queue, oldest first.  Writes
    to the port and to the queues are taken to succeed. *)
Record State := mkState {
  state : string;
  net_thread : option Z;
  next_net_thread_id : Z;
  active : gset Z;
  controller_sent : list Output;
  evaluator_sent : list PortSend;
  io_queue : list IoActivity;
  stdout : list string
}.

Inductive Result :=
| Ok (s : State)
| Raise (exn : string).

Definition bind (r : Result) (k : State -> Result) : Result :=
  match r with
  | Ok s => k s
  | Raise e => Raise e
  end.

Definition set_active (a : gset Z) (s : State) : State :=
  mkState (state s) (net_thread s) (next_net_thread_id s) a
          (controller_sent s) (evaluator_sent s) (io_queue s) (stdout s).

Definition evaluator_send (ms : list PortSend) (s : State) : State :=
  mkState (state s) (net_thread s) (next_net_thread_id s) (active s)
          (controller_sent s) (evaluator_sent s ++ ms) (io_queue s) (stdout s).

Definition controller_put (m : Output) (s : State) : State :=
  mkState (state s) (net_thread s) (next_net_thread_id s) (active s)
          (controller_sent s ++ [m]) (evaluator_sent s) (io_queue s) (stdout s).

Definition io_put (m : IoActivity) (s : State) : State :=
  mkState (state s) (net_thread s) (next_net_thread_id s) (active s)
          (controller_sent s) (evaluator_sent s) (io_queue s ++ [m]) (stdout s).

Definition print (line : string) (s : State) : State :=
  mkState (state s) (net_thread s) (next_net_thread_id s) (active s)
          (controller_sent s) (evaluator_sent s) (io_queue s) (stdout s ++ [line]).

Definition set_net_thread (t : option Z) (s : State) : State :=
  mkState (state s) t (next_net_thread_id s) (active s)
          (controller_sent s) (evaluator_sent s) (io_queue s) (stdout s).

(** [Server.__init__] *)
Definition init : State :=
  mkState "notstarted" None 0 ∅ [] [] [] [].

(** [Server.start]: the [NetThread] is created with the next id. *)
Definition start (s : State) : Result :=
  if bool_decide (state s = "notstarted") then
    Ok (mkState "started" (Some (next_net_thread_id s))
                (next_net_thread_id s + 1) (active s) (controller_sent s)
                (evaluator_sent s) (io_queue s) (stdout s))
  else Raise "AssertionError".

(** [_send_controller]: only when there is a network thread. *)
Definition send_controller (m : Output) (s : State) : State :=
  match net_thread s with
  | Some _ => controller_put m s
  | None => s
  end.

Definition send_io (handle : Z) (m : IoMessage) (s : State) : State :=
  io_put (IoFor handle m) s.

Definition send_io_global (m : IoActivity) (s : State) : State :=
  io_put m s.

Definition need_work (s : State) : State :=
  send_controller OutputNeedMoreWork s.

(** [_remove]; [set.remove] raises [KeyError] on a missing element,
    after the message has been written. *)
Definition remove (handle : Z) (s : State) : Result :=
  let s := evaluator_send [SendJson (JsonRemove (Py.str_int handle))] s in
  if bool_decide (handle ∈ active s)
  then Ok (set_active (active s ∖ {[handle]}) s)
  else Raise "KeyError".

(** [_send_permuter]: the [add] message and its two raw frames. *)
Definition send_permuter (id : string) (perm : PermuterData) (s : State)
  : State :=
  evaluator_send [SendJson (JsonAdd id perm);
                  SendBytes (pd_source perm);
                  SendBytes (pd_target_o_bin perm)] s.

(** [_stop_net_thread]: [NetThread.stop] puts [Shutdown] on the
    controller queue before the thread is dropped. *)
Definition stop_net_thread (s : State) : State :=
  match net_thread s with
  | None => s
  | Some _ => set_net_thread None (controller_put OutputShutdown s)
  end.

(** [json_prop(obj, "score", int) if "score" in obj else None]; a JSON
    boolean is an [int] for [isinstance].  The outer [None] is the
    exception of [json_prop]. *)
Definition score_of (obj : gmap string Json) : option (option Z) :=
  match obj !! "score" with
  | None => Some None
  | Some (JInt z) => Some (Some z)
  | Some (JBool b) => Some (Some (Z.b2z b))
  | Some _ => None
  end.

(** [_handle_message] *)
Definition handle_message (s : State) (msg : Activity) : Result :=
  match msg with
  | Shutdown => Ok s
  | Heartbeat => Ok s
  | Work handle seed =>
    if bool_decide (handle ∉ active s) then Ok (need_work s)
    else Ok (evaluator_send [SendJson (JsonWork (Py.str_int handle) seed)] s)
  | AddPermuter handle client permuter_data =>
    if bool_decide (handle ∈ active s) then Raise "Repeated AddPermuter!"
    else
      let s := set_active ({[handle]} ∪ active s) s in
      let s := send_permuter (Py.str_int handle) permuter_data s in
      Ok (send_io handle (IoConnect (pd_fn_name permuter_data) client) s)
  | RemovePermuter handle =>
    if bool_decide (handle ∉ active s) then Ok s
    else
      bind (remove handle s) (fun s =>
      Ok (send_io handle (IoDisconnect "disconnected") s))
  | Disconnect handle =>
    if bool_decide (handle ∉ active s) then Ok s
    else
      bind (remove handle s) (fun s =>
      let s := send_io handle (IoDisconnect "kicked") s in
      Ok (send_controller (OutputDisconnect handle) s))
  | ImmediateDisconnect handle client reason =>
    if bool_decide (handle ∈ active s)
    then Raise "ImmediateDisconnect is not immediate"
    else
      let s := send_io handle
                 (IoImmediateDisconnect "sent garbage message" client) s in
      Ok (send_controller (OutputDisconnect handle) s)
  | PermInitFail perm_id error =>
    match Py.int_str perm_id with
    | None => Raise "ValueError"
    | Some handle =>
      if bool_decide (handle ∉ active s) then Ok (need_work s)
      else
        let s := set_active (active s ∖ {[handle]}) s in
        let s := send_io handle (IoDisconnect "failed to compile") s in
        Ok (send_controller (OutputInitFail handle error) s)
    end
  | PermInitSuccess perm_id base_score base_hash time_us =>
    match Py.int_str perm_id with
    | None => Raise "ValueError"
    | Some handle =>
      if bool_decide (handle ∉ active s) then Ok (need_work s)
      else Ok (send_controller
                 (OutputInitSuccess handle base_score base_hash time_us) s)
    end
  | WorkDone perm_id obj time_us compressed_source =>
    match Py.int_str perm_id with
    | None => Raise "ValueError"
    | Some handle =>
      if bool_decide (handle ∉ active s) then Ok (need_work s)
      else
        let obj := <["permuter" := JInt handle]> obj in
        match score_of obj with
        | None => Raise "ValueError"
        | Some score =>
          let is_improvement := bool_decide (is_Some compressed_source) in
          let s := send_io handle (IoWorkDone score is_improvement) s in
          Ok (send_controller
                (OutputWork handle time_us obj compressed_source) s)
        end
    end
  | NeedMoreWork => Ok (need_work s)
  | NetThreadDisconnected thread_id =>
    match net_thread s with
    | None => Ok s
    | Some current =>
      if bool_decide (thread_id ≠ current) then Ok s
      else
        (* [for handle in list(self._active): self._remove(handle)];
           the order in which a set is listed is not specified *)
        bind (foldl (fun r handle => bind r (remove handle)) (Ok s)
                    (elements (active s))) (fun s =>
        let s := print "disconnected from permuter@home" s in
        Ok (stop_net_thread s))
    end
  end.

(** [_main_loop] on the events taken from the main queue.  Each event
    comes with what [self._main_queue.empty()] answers once it has been
    handled (other threads fill the queue meanwhile). *)
Fixpoint main_loop (s : State) (events : list (Activity * bool)) : Result :=
  match events with
  | [] => Ok s
  | (Shutdown, _) :: _ => Ok s
  | (msg, queue_empty) :: rest =>
    bind (handle_message s msg) (fun s =>
    let s :=
      if bool_decide (active s = ∅) && queue_empty
      then send_io_global IoWillSleep s
      else s in
    main_loop s rest)
  end.

(** The states of a started server. *)
Definition reachable (s : State) : Prop :=
  ∃ s0 events, start init = Ok s0 ∧ main_loop s0 events = Ok s.

(** [told_to_add log h]: the log of the evaluator port holds an [add] for
    [h] with its two raw frames, and no [remove] for [h] after it. *)
Definition told_to_add (log : list PortSend) (h : Z) : Prop :=
  ∃ before perm after,
    log = before ++ [SendJson (JsonAdd (Py.str_int h) perm);
                     SendBytes (pd_source perm);
                     SendBytes (pd_target_o_bin perm)] ++ after
    ∧ SendJson (JsonRemove (Py.str_int h)) ∉ after.

(** The invariant of the active set: every active handle has been
    announced to the evaluator. *)
Definition active_added (s : State) : Prop :=
  forall h, h ∈ active s -> told_to_add (evaluator_sent s) h.

End Server.

(** ** What a seed stream is made of *)

Module SeedPairs.
Import Seeds.

(** [represents e r]: the entry [e] of [iterators] belongs to permuter
    [r.1] and will still yield exactly the seeds [r.2], in this order. *)
Definition represents (e : nat * SeedIter) (r : nat * list Z) : Prop :=
  e.1 = r.1 /\ forall n, si_seeds e.2 (si_pos e.2 + n) = r.2 !! n.

(** The (permuter index, seed) pairs of some permuters' seed lists,
    permuter by permuter. *)
Definition pairs_of (rs : list (nat * list Z)) : list (nat * Z) :=
  rs ≫= (fun r => (fun s => (r.1, s)) <$> r.2).

(** All pairs of the permuters whose seed spaces are [seeds]. *)
Definition all_pairs (seeds : list (list Z)) : list (nat * Z) :=
  pairs_of (imap (fun perm_ind l => (perm_ind, l)) seeds).

End SeedPairs.

(** ** What a worker owes the coordinator *)

Module WorkerSpec.
Import Types Worker.

Section WithOps.
Context `{ProfilerOps} `{!PermuterOps}.



(** The permuter a worker keeps after a result: [record_result] when the
    result is a candidate that [should_output] accepts. *)
Definition recorded (p : Permuter) (r : EvalResult) : Permuter :=
  match r with
  | RCandidate cr => if should_output p cr then record_result p cr else p
  | RError _ => p
  end.



End WithOps.
End WorkerSpec.

(** ** [--seed]: the start of [run_inner] (main.py) *)

Module ForceSeed.

(** [s.split(sep)] for a one-character separator: always at least one
    part, empty parts kept. *)
Fixpoint split (sep : ascii) (s : list ascii) : list (list ascii) :=
  match s with
  | [] => [[]]
  | c :: rest =>
    if Ascii.eqb c sep then [] :: split sep rest
    else match split sep rest with
         | part :: parts => (c :: part) :: parts
         | [] => [[c]]
         end
  end.

(** [list(map(int, arg.split(",")))]; [None] is the [ValueError] of
    [int]. *)
Definition seed_parts (arg : string) : option (list Z) :=
  mapM (fun part => Py.int_str (string_of_list_ascii part))
       (split "," (list_ascii_of_string arg)).

Inductive Forcing :=
  | NotForced
  | Forced (force_seed force_rng_seed : Z)
  | ValueError.

(** Lines 262-267.  [if options.force_seed:] skips both [None] and the
    empty string; [seed_parts[-1]] and [seed_parts[0]] exist because
    [split] returns at least one part. *)
Definition forcing (force_seed : option string) : Forcing :=
  match force_seed with
  | None | Some EmptyString => NotForced
  | Some arg =>
    match seed_parts arg with
    | None => ValueError
    | Some parts =>
      let force_rng_seed := default 0 (last parts) in
      let force_seed :=
        if bool_decide (length parts = 1%nat) then 0
        else default 0 (head parts) in
      Forced force_seed force_rng_seed
    end
  end.

End ForceSeed.

(** ** [DockerPort]: the attach stream of the evaluator's container
    (server.py) *)

Module Docker.

(** [sock] holds the bytes the container still has to deliver, in order;
    [stderr] is what has been written to [sys.stderr.buffer]; [written]
    what has been written to the socket. *)
Record DockerPort := mkDockerPort {
  sock : list Byte.byte;
  stdout_buffer : list Byte.byte;
  stderr : list Byte.byte;
  written : list Byte.byte
}.

Inductive Result (A : Type) :=
| Returned (a : A) (p : DockerPort)
| EOFError
| StructError
| Unexpected (header : list Byte.byte).
Arguments Returned {A} a p.
Arguments EOFError {A}.
Arguments StructError {A}.
Arguments Unexpected {A} header.

(** [file_read_fixed(sock, n)]: exactly [n] bytes, or [EOFError] when the
    stream ends before. *)
Definition file_read_fixed (s : list Byte.byte) (n : nat)
  : option (list Byte.byte * list Byte.byte) :=
  if decide (n <= length s)%nat then Some (take n s, drop n s) else None.

(** [struct.unpack(">BxxxI", header)]: one unsigned byte, three bytes of
    padding that are not looked at, one big-endian unsigned 32-bit
    integer. *)
Definition unpack (header : list Byte.byte) : option (N * N) :=
  match header with
  | [stream; _; _; _; b3; b2; b1; b0] =>
    Some (Byte.to_N stream,
          (((Byte.to_N b3 * 256 + Byte.to_N b2) * 256 + Byte.to_N b1) * 256
           + Byte.to_N b0)%N)
  | _ => None
  end.

Definition stderr_prefix : list Byte.byte := list_byte_of_string "Docker stderr: ".

(** [DockerPort._read_one] *)
Definition read_one (p : DockerPort) : Result unit :=
  match file_read_fixed (sock p) 8 with
  | None => EOFError
  | Some (header, rest) =>
    match unpack header with
    | None => StructError
    | Some (stream, len) =>
      if negb ((stream =? 1)%N || (stream =? 2)%N) then Unexpected header
      else
        match file_read_fixed rest (N.to_nat len) with
        | None => EOFError
        | Some (data, rest) =>
          if (stream =? 1)%N then
            Returned tt (mkDockerPort rest (stdout_buffer p ++ data)
                                      (stderr p) (written p))
          else
            Returned tt (mkDockerPort rest (stdout_buffer p)
                           (stderr p ++ stderr_prefix ++ data) (written p))
        end
    end
  end.

(** The loop of [DockerPort._receive]; [None] when [fuel] rounds were not
    enough. *)
Fixpoint receive_loop (fuel : nat) (n : nat) (p : DockerPort)
  : option (Result (list Byte.byte)) :=
  if decide (length (stdout_buffer p) < n)%nat then
    match fuel with
    | O => None
    | S fuel =>
      match read_one p with
      | Returned _ p => receive_loop fuel n p
      | EOFError => Some EOFError
      | StructError => Some StructError
      | Unexpected header => Some (Unexpected header)
      end
    end
  else
    Some (Returned (take n (stdout_buffer p))
            (mkDockerPort (sock p) (drop n (stdout_buffer p))
                          (stderr p) (written p))).

(** [DockerPort._receive]: every round that does not raise takes at least
    the eight bytes of a header off [sock]. *)
Definition receive (n : nat) (p : DockerPort) : option (Result (list Byte.byte)) :=
  receive_loop (S (length (sock p))) n p.

(** [self._sock.write(data)] accepts a prefix of [data] and returns its
    length; [accepts] lists how many bytes the socket is ready to take at
    each successive call. *)
Fixpoint send_loop (accepts : list nat) (data : list Byte.byte) (p : DockerPort)
  : option (DockerPort * list nat) :=
  match data with
  | [] => Some (p, accepts)
  | _ :: _ =>
    match accepts with
    | [] => None
    | ready :: accepts =>
      let p := mkDockerPort (sock p) (stdout_buffer p) (stderr p)
                            (written p ++ take ready data) in
      send_loop accepts (drop (ready `min` length data) data) p
    end
  end.

(** [DockerPort._send]; [None] when the socket stops accepting bytes. *)
Definition send := send_loop.

(** One frame of the attach stream, as the Docker API describes it. *)
Record Frame := mkFrame {
  header : list Byte.byte;
  data : list Byte.byte
}.

Definition stream_of (f : Frame) : N :=
  match unpack (header f) with
  | Some (stream, _) => stream
  | None => 0
  end.

(** The header names stream 1 or 2 and the length of the data. *)
Definition frame_ok (f : Frame) : bool :=
  match unpack (header f) with
  | Some (stream, len) =>
    ((stream =? 1)%N || (stream =? 2)%N)
    && (len =? N.of_nat (length (data f)))%N
  | None => false
  end.

Definition wire (frames : list Frame) : list Byte.byte :=
  flat_map (fun f => header f ++ data f) frames.

Definition stdout_of (frames : list Frame) : list Byte.byte :=
  flat_map (fun f => if (stream_of f =? 1)%N then data f else []) frames.

Definition stderr_of (frames : list Frame) : list Byte.byte :=
  flat_map (fun f => if (stream_of f =? 1)%N then []
                     else stderr_prefix ++ data f) frames.

(** What [_read_one] does with a frame at the head of the socket. *)
Definition after_frame (f : Frame) (more : list Byte.byte) (p : DockerPort)
  : DockerPort :=
  if (stream_of f =? 1)%N then
    mkDockerPort more (stdout_buffer p ++ data f) (stderr p) (written p)
  else
    mkDockerPort more (stdout_buffer p) (stderr p ++ stderr_prefix ++ data f)
                 (written p).

End Docker.

(** ** [NetThread]: the write side towards the controller (server.py) *)

Module NetThread.
Import Server.

(** The two shapes of JSON message that [_write_one] sends. *)
Inductive NetJson :=
| NetUpdate (permuter : Z) (time_us : Json) (update : gmap string Json)
    (* [{"type": "update", "permuter": ..., "time_us": ..., "update": ...}] *)
| NetNeedWork.
    (* [{"type": "need_work"}] *)

Inductive NetSend :=
| NetSendJson (msg : NetJson)
| NetSendBytes (data : string).

(** [NetThread._write_one].  In [{"type": "work", **item.obj}] a ["type"]
    of [item.obj] replaces ["work"]. *)
Definition write_one (item : Output) : list NetSend :=
  match item with
  | OutputShutdown => []
  | OutputInitFail handle error =>
    [NetSendJson (NetUpdate handle (JInt 0)
       {[ "type" := JStr "init_failed"; "reason" := JStr error ]})]
  | OutputInitSuccess handle base_score base_hash time_us =>
    [NetSendJson (NetUpdate handle (JFloat time_us)
       {[ "type" := JStr "init_done"; "hash" := JStr base_hash ]})]
  | OutputDisconnect handle =>
    [NetSendJson (NetUpdate handle (JInt 0) {[ "type" := JStr "disconnect" ]})]
  | OutputNeedMoreWork => [NetSendJson NetNeedWork]
  | OutputWork handle time_us obj compressed_source =>
    NetSendJson (NetUpdate handle (JFloat time_us)
                   (obj ∪ {[ "type" := JStr "work" ]}))
    :: match compressed_source with
       | Some data => [NetSendBytes data]
       | None => []
       end
  end.

(** [NetThread.write_loop] over what is, or comes to be, on the controller
    queue, the writes to the port succeeding: what is sent, and whether
    the loop has ended ([false]: it waits in [get()]). *)
Fixpoint write_loop (queue : list Output) : list NetSend * bool :=
  match queue with
  | [] => ([], false)
  | OutputShutdown :: _ => ([], true)
  | item :: queue =>
    let '(sent, ended) := write_loop queue in
    (write_one item ++ sent, ended)
  end.

(** The controller queue is closed by a [Shutdown] exactly when the
    server has dropped its network thread. *)
Definition queue_closed_with_thread (s : State) : Prop :=
  match net_thread s with
  | Some _ => OutputShutdown ∉ controller_sent s
  | None => exists before,
      controller_sent s = before ++ [OutputShutdown]
      /\ OutputShutdown ∉ before
  end.

End NetThread.

(** ** [restricted_float]: the range check of the command line
    (main.py) *)

Module Args.

(** What [convert] returns or raises; the two errors are
    [argparse.ArgumentTypeError] with their respective texts. *)
Inductive Converted :=
| Accepted (ret : float)
| InvalidFloat (x : string)
| OutOfRange (x : string) (lo hi : float).

Section Convert.

(** [float(x)]; [None] is its [ValueError]. *)
Variable float_of : string -> option float.

(** [restricted_float(lo, hi)(x)] *)
Definition restricted_float (lo hi : float) (x : string) : Converted :=
  match float_of x with
  | None => InvalidFloat x
  | Some ret =>
    if PrimFloat.ltb ret lo || PrimFloat.ltb hi ret then OutOfRange x lo hi
    else Accepted ret
  end.

End Convert.

End Args.

(** ** What the feeding loop puts on the task queue *)

Module FeedingView.
Import Types Output Scoring.

(** The task of a stream item. *)
Definition task_of (item : nat * Z) : Task := TWork item.1 item.2.

Section WithOps.
Context `{ProfilerOps} `{!PermuterOps}.

(** [scored_stream x items rs x']: from the context [x], the items of a
    seed stream are evaluated in order, each with its own seed on the
    permuter the context holds at its index by then; each result goes to
    [post_score] (with the evaluated permuter in its place), which
    returns; [rs] are the results, each with its permuter index, and [x']
    is the context in the end. *)
Fixpoint scored_stream (x : EvalContext) (items : list (nat * Z))
    (rs : list (nat * EvalResult)) (x' : EvalContext) : Prop :=
  match items, rs with
  | [], [] => x' = x
  | (i, seed) :: items, r :: rs =>
    exists p zero x1,
      permuters x !! i = Some p
      /\ r = (i, (try_eval_candidate p seed).1)
      /\ post_score (set_permuter i (try_eval_candidate p seed).2 x) i
                    (try_eval_candidate p seed).2
                    (try_eval_candidate p seed).1 None
         = Return zero x1
      /\ scored_stream x1 items rs x'
  | _, _ => False
  end.

(** What [finish] adds to the context. *)
Definition finished_context (found_zero : bool) (x : EvalContext)
  : EvalContext :=
  if found_zero
  then emit [PrintLn (Py.newline +:+ "Found zero score! Exiting.")] x
  else x.

End WithOps.

End FeedingView.

(** ** Decimal numerals, as [str] writes and [int] reads them *)

Module Numerals.
Import Py.

(** The value of decimal digits read after [acc]. *)
Fixpoint digits_value (d : Decimal.uint) (acc : Z) : Z :=
  match d with
  | Decimal.Nil => acc
  | Decimal.D0 d => digits_value d (10 * acc + 0)
  | Decimal.D1 d => digits_value d (10 * acc + 1)
  | Decimal.D2 d => digits_value d (10 * acc + 2)
  | Decimal.D3 d => digits_value d (10 * acc + 3)
  | Decimal.D4 d => digits_value d (10 * acc + 4)
  | Decimal.D5 d => digits_value d (10 * acc + 5)
  | Decimal.D6 d => digits_value d (10 * acc + 6)
  | Decimal.D7 d => digits_value d (10 * acc + 7)
  | Decimal.D8 d => digits_value d (10 * acc + 8)
  | Decimal.D9 d => digits_value d (10 * acc + 9)
  end.

Definition chars (d : Decimal.uint) : list ascii :=
  list_ascii_of_string (NilEmpty.string_of_uint d).

(** A character of a decimal numeral. *)
Definition plain (c : ascii) : Prop :=
  is_space c = false /\ c <> ","%char.

End Numerals.

(** ** Inputs used in the examples below *)

Module Examples.
Import Types.

(** Three permuters in deterministic mode with 1, 3 and 3 seeds. *)
Definition three_permuters : list Seeds.SeedIter :=
  [Seeds.finite_iter [10]; Seeds.finite_iter [20; 21; 22];
   Seeds.finite_iter [30; 31; 32]].

#[export] Instance unit_profiler : ProfilerOps :=
  {| Profiler := unit; new_profiler := tt;
     add_stats := fun _ _ => tt; get_str_stats := fun _ => "" |}.

Definition a_permuter : Permuter :=
  mkPermuter "job" "func" "func" 100 100 "int x;" 10000000
             (Seeds.finite_iter [1; 2]).

(** A permuter whose candidates all score 7 and are output when they
    improve on or tie the best score. *)
#[export] Instance plain_ops : PermuterOps :=
  {| should_output := fun p r => bool_decide (cr_score r <= best_score p);
     record_result := fun p r =>
       mkPermuter (perm_dir p) (fn_name p) (unique_name p)
                  (Z.min (best_score p) (cr_score r)) (base_score p)
                  (base_source p) (penalty_inf p) (seed_iterator p);
     perm_diff := fun _ s => s;
     try_eval_candidate := fun p seed =>
       (RCandidate (mkCandidateResult 7 None (Some "int y;") tt), p) |}.

Definition a_result (score : Z) : EvalResult :=
  RCandidate (mkCandidateResult score None (Some "int y;") tt).

(** A loaded coordinator with one permuter and two workers, and a
    stream of feedback ending its drain. *)
Definition two_workers (stop : bool) : Coordinator.Coord :=
  Coordinator.loaded
    (Scoring.mkEvalContext (Scoring.mkOptions false false false stop 2 false)
                           0 0 tt [a_permuter] [] ∅)
    2 0%float.



Definition final_feedback : list Coordinator.Turn :=
  [Coordinator.mkTurn 1%float (Coordinator.Got (FWorkDone 0 (a_result 0), None));
   Coordinator.mkTurn 2%float (Coordinator.Got (FFinished None, None));
   Coordinator.mkTurn 3%float (Coordinator.Got (FWorkDone 0 (a_result 7), None));
   Coordinator.mkTurn 4%float (Coordinator.Got (FFinished None, None));
   Coordinator.mkTurn 5%float (Coordinator.Got (FNeedMoreWork, None))].

Definition a_client : Server.Client := Server.mkClient "id0" "nick".

Definition some_data : Server.PermuterData :=
  Server.mkPermuterData "func" "base.c" 0.5%float false "compile.sh"
                        "int x;" "ELF".

Definition state_after (events : list (Server.Activity * bool)) : Server.State :=
  match Server.bind (Server.start Server.init)
                    (fun s => Server.main_loop s events) with
  | Server.Ok s => s
  | Server.Raise _ => Server.init
  end.

(** A started server that has added permuter 5, and one whose network
    thread is gone. *)
Definition with_permuter_5 : Server.State :=
  state_after [(Server.AddPermuter 5 a_client some_data, false)].

Definition without_net_thread : Server.State :=
  state_after [(Server.NetThreadDisconnected 0, false)].

End Examples.

(** ** The disconnection of the controller (server.py) *)

Module Disconnection.
Import Server.

(** The [NetThreadDisconnected] branch of [_handle_message] for the
    current thread (l.541-551), [order] being the list that
    [list(self._active)] gives: Python lists a set in an order of its
    own. *)
Definition disconnect_in (order : list Z) (s : State) : Result :=
  bind (foldl (fun r handle => bind r (remove handle)) (Ok s) order) (fun s =>
  let s := print "disconnected from permuter@home" s in
  Ok (stop_net_thread s)).

End Disconnection.

(** ** [Server.stop], run beside the main loop (server.py) *)

Module Lifecycle.
Import Server.

Definition set_state (st : string) (s : State) : State :=
  mkState st (net_thread s) (next_net_thread_id s) (active s)
          (controller_sent s) (evaluator_sent s) (io_queue s) (stdout s).

(** [Server.stop] (l.664-668) is called from another thread than the one
    of [_main_loop], so the main loop may handle events between its
    steps.  The steps that touch the fields kept here: the assertion and
    [self._state = "finished"]; then, in [_stop_net_thread], the
    [Shutdown] that [NetThread.stop] puts on the controller queue; then
    [self._net_thread = None]. *)
Definition stop_begin (s : State) : Result :=
  if bool_decide (state s = "started") then Ok (set_state "finished" s)
  else Raise "AssertionError".

Definition stop_signal (s : State) : State :=
  match net_thread s with
  | None => s
  | Some _ => controller_put OutputShutdown s
  end.

Definition stop_clear (s : State) : State := set_net_thread None s.

(** The states of a started server: the main loop handles events, and
    the steps of a [stop()] may come in between. *)
Inductive reaches : State -> Prop :=
| reaches_start s :
    start init = Ok s -> reaches s
| reaches_event s msg s' :
    reaches s -> handle_message s msg = Ok s' -> reaches s'
| reaches_sleep s :
    reaches s -> reaches (send_io_global IoWillSleep s)
| reaches_stop_begin s s' :
    reaches s -> stop_begin s = Ok s' -> reaches s'
| reaches_stop_signal s :
    reaches s -> state s = "finished" -> reaches (stop_signal s)
| reaches_stop_clear s :
    reaches s -> state s = "finished" -> reaches (stop_clear s).

End Lifecycle.

(** ** The evaluator's view of the server *)

Module EvaluatorView.
Import Server.

(** [held_at log i h]: just before the [i]-th message of the log was
    written, the evaluator had been told to add [h] and not to remove
    it. *)
Definition held_at (log : list PortSend) (i : nat) (h : Z) : Prop :=
  told_to_add (take i log) h.

(** Every [work] and every [remove] message in the log names, by
    [str(handle)], a permuter the evaluator holds at that point. *)
Definition well_addressed (log : list PortSend) : Prop :=
  forall i id,
    (log !! i = Some (SendJson (JsonRemove id))
     \/ exists seed, log !! i = Some (SendJson (JsonWork id seed))) ->
    exists h, id = Py.str_int h /\ held_at log i h.

(** What a message added to the log has to name. *)
Definition addresses (log : list PortSend) (m : PortSend) : Prop :=
  match m with
  | SendJson (JsonRemove id) | SendJson (JsonWork id _) =>
    exists h, id = Py.str_int h /\ told_to_add log h
  | _ => True
  end.

(** The two invariants together. *)
Definition evaluator_consistent (s : State) : Prop :=
  active_added s /\ well_addressed (evaluator_sent s).

End EvaluatorView.

(** ** Inputs used in the examples of Part III *)

Module MoreExamples.
Import Types.
Import Examples.

Definition a_context : Scoring.EvalContext :=
  Scoring.mkEvalContext (Scoring.mkOptions false false false false 1 false)
                        0 0 tt [a_permuter] [] ∅.

Definition a_candidate (score : Z) : CandidateResult :=
  mkCandidateResult score None (Some "int y;") tt.

(** A result that carries no source. *)
Definition a_sourceless : CandidateResult :=
  mkCandidateResult 7 None None tt.

(** The coordinator of [Examples.two_workers] in single-threaded mode. *)
Definition one_thread (stop : bool) : Coordinator.Coord :=
  Coordinator.loaded
    (Scoring.mkEvalContext (Scoring.mkOptions false false false stop 1 false)
                           0 0 tt [a_permuter] [] ∅)
    0 0%float.

(** The start of a run: two workers ask for work. *)
Definition two_requests : list Coordinator.Turn :=
  [Coordinator.mkTurn 1%float (Coordinator.Got (FNeedMoreWork, None));
   Coordinator.mkTurn 2%float (Coordinator.Got (FNeedMoreWork, None))].

Definition three_ticks : list Coordinator.Turn :=
  [Coordinator.mkTurn 1%float (Coordinator.Got (FNeedMoreWork, None));
   Coordinator.mkTurn 2%float (Coordinator.Got (FNeedMoreWork, None));
   Coordinator.mkTurn 3%float (Coordinator.Got (FNeedMoreWork, None))].

(** A server that has added permuter 5, given it work, and removed it. *)
Definition add_work_remove : list (Server.Activity * bool) :=
  [(Server.AddPermuter 5 a_client some_data, false);
   (Server.Work 5 42, false);
   (Server.RemovePermuter 5, true)].

Definition after_add_work_remove : Server.State := state_after add_work_remove.

(** Two permuters that never run out of seeds. *)
Definition two_endless : list Seeds.SeedIter :=
  [Seeds.endless_iter (fun n => Z.of_nat n);
   Seeds.endless_iter (fun n => 100 + Z.of_nat n)].

(** A frame for standard error carrying "!", then one for standard
    output carrying "hi". *)
Definition two_frames : list Docker.Frame :=
  [Docker.mkFrame [Byte.x02; Byte.x00; Byte.x00; Byte.x00;
            Byte.x00; Byte.x00; Byte.x00; Byte.x01] [Byte.x21];
   Docker.mkFrame [Byte.x01; Byte.x00; Byte.x00; Byte.x00;
            Byte.x00; Byte.x00; Byte.x00; Byte.x02] [Byte.x68; Byte.x69]].

Definition a_port : Docker.DockerPort := Docker.mkDockerPort (Docker.wire two_frames) [] [] [].

(** A header for stream 0. *)
Definition stdin_header : list Byte.byte :=
  [Byte.x00; Byte.x00; Byte.x00; Byte.x00;
   Byte.x00; Byte.x00; Byte.x00; Byte.x00].

Definition a_confused_port : Docker.DockerPort :=
  Docker.mkDockerPort (Docker.wire two_frames ++ stdin_header) [] [] [].

(** What an evaluator answers for a candidate of score 10. *)
Definition a_result_object : gmap string Server.Json :=
  {[ "type" := Server.JStr "result"; "score" := Server.JInt 10 ]}.

(** A stand-in for [float] that reads two arguments. *)
Definition float_of_sample (x : string) : option float :=
  if String.eqb x "nan" then Some PrimFloat.nan
  else if String.eqb x "0.5" then Some 0.5%float
  else None.

(** A whole run with two workers over the two seeds of [a_permuter]: two
    requests for work and a result, after which the seed stream is
    exhausted; then what the drain reads. *)
Definition run_end : list Coordinator.Turn :=
  [Coordinator.mkTurn 4%float (Coordinator.Got (FFinished None, None));
   Coordinator.mkTurn 5%float (Coordinator.Got (FWorkDone 0 (a_result 7), None));
   Coordinator.mkTurn 6%float (Coordinator.Got (FFinished None, None))].

Definition whole_run : list Coordinator.Turn :=
  [Coordinator.mkTurn 1%float (Coordinator.Got (FNeedMoreWork, None));
   Coordinator.mkTurn 2%float (Coordinator.Got (FNeedMoreWork, None));
   Coordinator.mkTurn 3%float (Coordinator.Got (FWorkDone 0 (a_result 7), None))]
  ++ run_end.

(** The state in which the feeding loop of that run is left. *)
Definition after_feeding : Coordinator.Coord :=
  match Coordinator.feeding (two_workers false) whole_run with
  | Coordinator.Left c _ => c
  | _ => two_workers false
  end.

(** A started server that has added permuters 1 and 2. *)
Definition with_permuters_1_2 : Server.State :=
  state_after [(Server.AddPermuter 1 a_client some_data, false);
               (Server.AddPermuter 2 a_client some_data, false)].

End MoreExamples.

(* ===================================================================== *)
(** * Part II: properties                                                 *)
(* ===================================================================== *)

(** ** The seed rotation *)

Module SeedsFacts.
Import Seeds.

Lemma loop_body_drop_shrinks g g' :
  loop_body g = LDrop g' ->
  S (length (iterators g')) = length (iterators g).
Proof.
  unfold loop_body. destruct (iterators g) as [|e l] eqn:E; [done|].
  set (i := Z.to_nat _).
  destruct ((e :: l) !! i) as [[ind it]|] eqn:Hi; [|done].
  destruct (seed_next it) as [[s it']|]; [done|].
  intros [= <-]. cbn [iterators].
  rewrite length_delete by eauto. cbn [length]. lia.
Qed.

(** Beyond [length iterators], the fuel of [advance] does not matter:
    [gen_next] never stops for lack of fuel. *)
Lemma advance_fuel_irrelevant fuel1 fuel2 g :
  (length (iterators g) < fuel1)%nat ->
  (length (iterators g) < fuel2)%nat ->
  advance fuel1 g = advance fuel2 g.
Proof.
  revert fuel2 g. induction fuel1 as [|f1 IH]; intros [|f2] g H1 H2; try lia.
  cbn [advance]. destruct (loop_body g) as [|g'|item g'] eqn:E; try done.
  apply loop_body_drop_shrinks in E. apply IH; lia.
Qed.

Lemma gen_next_enough_fuel fuel g :
  (length (iterators g) < fuel)%nat -> advance fuel g = gen_next g.
Proof. intros. apply advance_fuel_irrelevant; lia. Qed.

(** The generator ends only when no iterator is left to ask. *)
Lemma gen_next_None g :
  gen_next g = None ->
  forall e, e ∈ iterators g -> exists n, (si_pos e.2 <= n)%nat /\ si_seeds e.2 n = None.
Proof.
  unfold gen_next. remember (S (length (iterators g))) as fuel eqn:Hf.
  assert (Hlt : (length (iterators g) < fuel)%nat) by lia. clear Hf.
  revert g Hlt. induction fuel as [|f IH]; intros g Hlt; [lia|].
  cbn [advance]. destruct (loop_body g) as [|g'|item g'] eqn:E; [| |done].
  - unfold loop_body in E. destruct (iterators g) as [|e0 l] eqn:El.
    + intros _ e He. by apply elem_of_nil in He.
    + exfalso. revert E. set (i := Z.to_nat _).
      assert (i < length (e0 :: l))%nat as Hi.
      { subst i. generalize (Z.mod_pos_bound (cursor g)
          (Z.of_nat (length (e0 :: l)))).
        generalize (cursor g `mod` Z.of_nat (length (e0 :: l))).
        cbn [length]. lia. }
      apply lookup_lt_is_Some in Hi as [[ind it] ->].
      by destruct (seed_next it) as [[??]|].
  - intros Hn e He. pose proof (loop_body_drop_shrinks _ _ E) as Hlen.
    specialize (IH g' ltac:(lia) Hn).
    unfold loop_body in E. destruct (iterators g) as [|e0 l] eqn:El; [done|].
    revert E. set (i := Z.to_nat _).
    destruct ((e0 :: l) !! i) as [[ind it]|] eqn:Hi; [|done].
    unfold seed_next. destruct (si_seeds it (si_pos it)) eqn:Hs; [done|].
    intros [= <-]. cbn [iterators] in *.
    apply list_elem_of_lookup in He as [j Hj].
    destruct (decide (j = i)) as [->|Hne].
    + rewrite Hi in Hj. injection Hj as <-. exists (si_pos it). by split.
    + apply IH. apply list_elem_of_lookup.
      destruct (decide (j < i)%nat).
      * exists j. by rewrite list_lookup_delete_lt.
      * exists (j - 1)%nat. rewrite list_lookup_delete_ge by lia.
        replace (S (j - 1)) with j by lia. done.
Qed.

(** *** Without exhaustion the rotation is strict *)

Lemma rotating_next N k g :
  (0 < N)%nat -> rotating N k g ->
  exists s g', gen_next g = Some (((k `mod` N)%nat, s), g')
               /\ rotating N (S k) g'.
Proof.
  intros HN (Hlen & Hits & Hcur). unfold gen_next. cbn [advance].
  unfold loop_body. destruct (iterators g) as [|e l] eqn:El.
  { cbn in Hlen. lia. }
  rewrite Hlen, Hcur, Nat2Z.id.
  assert (k `mod` N < N)%nat as Hj by (apply Nat.mod_upper_bound; lia).
  destruct (Hits _ Hj) as (it & Hlook & Hend). rewrite Hlook.
  unfold seed_next. destruct (Hend (si_pos it)) as [s Hs]. rewrite Hs.
  eexists _, _. split; [reflexivity|]. repeat split; cbn [iterators cursor].
  - by rewrite length_insert.
  - intros j' Hj'. destruct (decide (j' = k `mod` N)%nat) as [->|Hne].
    + eexists. rewrite list_lookup_insert_eq by lia. split; [done|].
      intros n. apply Hend.
    + rewrite list_lookup_insert_ne by done. by apply Hits.
  - rewrite <- (Nat2Z.inj_add _ 1), <- Nat2Z.inj_mod. f_equal.
    rewrite Nat.Div0.add_mod_idemp_l. f_equal. lia.
Qed.

Lemma cycle_take_rotating N k g n :
  (0 < N)%nat -> rotating N k g ->
  (cycle_take n g).*1 = (fun m => ((k + m) `mod` N)%nat) <$> seq 0 n.
Proof.
  intros HN. revert k g. induction n as [|n IH]; intros k g Hrot; [done|].
  cbn [cycle_take]. destruct (rotating_next N k g HN Hrot)
    as (s & g' & -> & Hrot').
  cbn [fmap list_fmap seq]. f_equal; [cbn; f_equal; lia|].
  fold (fmap (M:=list) (@fst nat Z)). rewrite (IH _ _ Hrot').
  rewrite <- fmap_S_seq, <- list_fmap_compose.
  apply list_fmap_ext. intros _ m _. cbn. f_equal. lia.
Qed.

Lemma cycle_seeds_rotating perms :
  Forall endless perms -> rotating (length perms) 0 (cycle_seeds perms).
Proof.
  intros Hall. unfold cycle_seeds. repeat split; cbn [iterators cursor].
  - apply length_imap.
  - intros j Hj. apply lookup_lt_is_Some in Hj as [it Hit].
    exists it. rewrite list_lookup_imap, Hit. split; [done|].
    rewrite Forall_forall in Hall. eapply Hall, list_elem_of_lookup_2, Hit.
  - by rewrite Nat.Div0.mod_0_l, Zmod_0_l.
Qed.

(** As long as no seed iterator ends (randomized mode), the stream asks
    the permuters in strict rotation: the [m]-th item comes from permuter
    [m mod N]. *)
Lemma cycle_seeds_rotation perms n :
  perms <> [] -> Forall endless perms ->
  (cycle_take n (cycle_seeds perms)).*1
  = (fun m => (m `mod` length perms)%nat) <$> seq 0 n.
Proof.
  intros Hne Hall.
  apply (cycle_take_rotating (length perms) 0); [|by apply cycle_seeds_rotating].
  destruct perms; [done|cbn; lia].
Qed.

(** C1.  The rotation is not fair once an iterator is exhausted: with
    seed lists of lengths 1, 3 and 3 the stream is 0 1 2 2 1 2 1.  After
    permuter 0 is dropped at index 0 the cursor becomes -1, which the
    modulo sends to the last iterator: permuter 2 is asked twice in a row
    (positions 2 and 3) and permuter 1, which still has seeds (it yields
    at position 4), is passed over. *)
Theorem cycle_seeds_unfair_after_exhaustion :
  let out := cycle_take 10 (cycle_seeds Examples.three_permuters) in
  out = [(0%nat, 10); (1%nat, 20); (2%nat, 30); (2%nat, 31);
         (1%nat, 21); (2%nat, 32); (1%nat, 22)]
  /\ successive 2 3 out = true
  /\ yields_later 1 3 out = true
  /\ occurrences 1 (take (3 - 3) (drop 3 out)) = 0%nat
  /\ fair_between 2 3 out = false
  /\ round_robin_fair out = false.
Proof. vm_compute. repeat split; reflexivity. Qed.

End SeedsFacts.

(** ** The local worker *)

Module WorkerFacts.
Import Types Worker.

(** The branch that asks for more work is taken for an item that is
    [None]: one [NeedMoreWork], and the next [get] blocks. *)
Lemma loop_body_none_item `{ProfilerOps} `{!PermuterOps} (w : State) :
  loop_body w (QItem None) =
    set_block true (put FNeedMoreWork w).
Proof. reflexivity. Qed.

(** An empty queue is survived only by a worker that is blocking. *)
Lemma loop_body_nothing `{ProfilerOps} `{!PermuterOps} (w : State) :
  loop_body w QNothing =
    if should_block w then w else set_status (Crashed "queue.Empty") w.
Proof. unfold loop_body, queue_get. by destruct (should_block w). Qed.

(** Every item that is a task makes the next [get] non-blocking. *)
Lemma loop_body_task_unblocks `{ProfilerOps} `{!PermuterOps} (w : State)
    (task : Task) :
  should_block (loop_body w (QItem (Some task))) = false.
Proof.
  unfold loop_body. cbn [queue_get]. destruct task as [reason|i seed]; [done|].
  cbn [permuters set_block]. destruct (permuters w !! i) as [p|]; [|done].
  destruct (try_eval_candidate p seed) as [r p']. done.
Qed.

(** C2.  A worker that finds the task queue empty on a non-blocking
    [get] does not emit [NeedMoreWork]: [get(block=False)] raises
    [queue.Empty], which the loop does not catch, and the worker dies
    with nothing put on the feedback queue.  The first [get] of every
    worker is non-blocking. *)
Theorem worker_crashes_on_empty_queue `{ProfilerOps} `{!PermuterOps}
    (perms : list Permuter) (later : list QueueObs) :
  should_block (initial perms) = false
  /\ multiprocess_worker (initial perms) (QNothing :: later)
     = mkState false perms [] false (Crashed "queue.Empty").
Proof.
  split; [reflexivity|]. cbn [multiprocess_worker initial status].
  destruct later; reflexivity.
Qed.

End WorkerFacts.

(** ** Output directories *)

Module OutputFacts.
Import Types Output.

Lemma str_int_inj a b : Py.str_int a = Py.str_int b -> a = b.
Proof.
  unfold Py.str_int. intros Heq.
  apply DecimalZ.to_int_inj.
  apply (f_equal NilEmpty.int_of_string) in Heq.
  rewrite !NilEmpty.isi in Heq. congruence.
Qed.

Lemma output_dir_name_inj dir score c1 c2 :
  output_dir_name dir score c1 = output_dir_name dir score c2 -> c1 = c2.
Proof.
  unfold output_dir_name, Py.path_join. cbn [String.append Py.starts_with_sep].
  intros Heq. apply str_int_inj.
  destruct (_ || _); repeat (apply String.app_inj in Heq || injection Heq as Heq);
    exact Heq.
Qed.

Lemma mkdir_Some path fs fs' :
  mkdir path fs = Some fs' <-> fs !! path = None /\ fs' = <[path := Dir]> fs.
Proof.
  unfold mkdir. destruct (fs !! path) eqn:E; split.
  - done.
  - by intros [? _].
  - by intros [= <-].
  - by intros [_ ->].
Qed.

Lemma mkdir_None path fs : mkdir path fs = None <-> is_Some (fs !! path).
Proof.
  unfold mkdir. destruct (fs !! path) eqn:E; split; try done; eauto.
Qed.

(** What the loop returns: the first free counter above the start. *)
Lemma mkdir_loop_Some fuel ctr dir score fs k d fs' :
  mkdir_loop fuel ctr dir score fs = Some (k, d, fs') ->
  ctr < k /\ d = output_dir_name dir score k
  /\ fs !! d = None /\ fs' = <[d := Dir]> fs
  /\ forall j, ctr < j < k -> is_Some (fs !! output_dir_name dir score j).
Proof.
  revert ctr. induction fuel as [|fuel IH]; intros ctr; [done|].
  cbn [mkdir_loop].
  destruct (mkdir (output_dir_name dir score (ctr + 1)) fs) as [fs1|] eqn:E.
  - intros [= <- <- <-]. apply mkdir_Some in E as [? ?].
    repeat split; try done; try lia.
  - intros Hrec. apply IH in Hrec as (? & ? & ? & ? & Hbefore).
    repeat split; try done; try lia.
    intros j Hj. destruct (decide (j = ctr + 1)) as [->|].
    + by apply mkdir_None.
    + apply Hbefore; lia.
Qed.

Lemma mkdir_loop_None fuel ctr dir score fs :
  mkdir_loop fuel ctr dir score fs = None ->
  forall j, ctr < j <= ctr + Z.of_nat fuel ->
            is_Some (fs !! output_dir_name dir score j).
Proof.
  revert ctr. induction fuel as [|fuel IH]; intros ctr; [intros; lia|].
  cbn [mkdir_loop].
  destruct (mkdir (output_dir_name dir score (ctr + 1)) fs) as [fs1|] eqn:E;
    [done|].
  intros Hrec j Hj. destruct (decide (j = ctr + 1)) as [->|].
  - by apply mkdir_None.
  - apply (IH _ Hrec). lia.
Qed.

(** The loop ends: a file system with [n] entries cannot hold the [n + 1]
    names tried first. *)
Lemma next_output_dir_total dir score fs :
  is_Some (next_output_dir dir score fs).
Proof.
  unfold next_output_dir.
  destruct (mkdir_loop _ _ _ _ _) as [r|] eqn:E; [eauto|exfalso].
  pose proof (mkdir_loop_None _ _ _ _ _ E) as Hall.
  set (names := (fun j : nat => output_dir_name dir score (Z.of_nat j))
                  <$> seq 1 (S (size fs))).
  assert (NoDup names) as Hnd.
  { apply NoDup_fmap_2; [|apply NoDup_seq].
    intros a b Hab. apply output_dir_name_inj in Hab. lia. }
  assert (list_to_set names ⊆ dom fs) as Hsub.
  { intros p Hp. apply elem_of_list_to_set, list_elem_of_fmap in Hp
      as (j & -> & Hj). apply elem_of_seq in Hj.
    apply elem_of_dom, Hall. lia. }
  apply subseteq_size in Hsub.
  rewrite size_list_to_set, size_dom in Hsub by done.
  unfold names in Hsub. rewrite length_fmap, length_seq in Hsub. lia.
Qed.

Lemma create_file_grows path content fs fs' :
  create_file path content fs = Some fs' -> fs ⊆ fs'.
Proof.
  unfold create_file. destruct (fs !! path) eqn:E; [done|].
  intros [= <-]. by apply insert_subseteq.
Qed.

Lemma create_file_free path content fs :
  fs !! path = None ->
  create_file path content fs = Some (<[path := File content]> fs).
Proof. unfold create_file. by intros ->. Qed.

(** The four files of an output directory. *)
Lemma output_file_not_dir d f :
  f ∈ ["source.c"; "base.c"; "score.txt"; "diff.txt"] ->
  Py.path_join d f <> d.
Proof.
  intros Hf Heq. unfold Py.path_join in Heq.
  assert (forall x, d +:+ x = d -> x = "") as Hnil.
  { intros x Hx. apply (String.app_inj d). rewrite Hx.
    clear. induction d as [|c d IH]; [done|].
    change (String c d = String c (d +:+ "")). by f_equal. }
  repeat (apply elem_of_cons in Hf as [->|Hf]); [| | | |by apply elem_of_nil in Hf];
    cbn [Py.starts_with_sep] in Heq;
    (destruct (_ || _); apply Hnil in Heq; discriminate).
Qed.

Lemma output_files_differ d f g :
  f ∈ ["source.c"; "base.c"; "score.txt"; "diff.txt"] ->
  g ∈ ["source.c"; "base.c"; "score.txt"; "diff.txt"] ->
  Py.path_join d f = Py.path_join d g -> f = g.
Proof.
  intros Hf Hg Heq. unfold Py.path_join in Heq.
  repeat (apply elem_of_cons in Hf as [->|Hf]); [| | | |by apply elem_of_nil in Hf];
    (repeat (apply elem_of_cons in Hg as [->|Hg]);
       [| | | |by apply elem_of_nil in Hg]);
    try done; cbn [Py.starts_with_sep] in Heq;
    (destruct (_ || _); apply (String.app_inj d) in Heq; discriminate).
Qed.

(** C9.  [write_candidate] always finds a directory: the name it
    creates is [output-{score}-{ctr}] for the least [ctr >= 1] whose name
    does not exist yet; every smaller counter was tried and met an
    existing entry; the chosen name did not exist before, and every entry
    that existed is still there, unchanged, when [write_candidate] is
    done (whether it completes or raises).

    And [write_candidate] does create that directory: whether it completes
    or raises, the file system it leaves holds the new directory beside
    all that was there.  It completes, reporting this very directory, whenever the result has a
    source and none of the four files it writes exists yet under the new
    name (as is the case in a directory that has only just been
    created). *)
Theorem write_candidate_collision_free `{ProfilerOps} `{!PermuterOps}
    (perm : Permuter) (result : CandidateResult) (fs : gmap string Node) :
  let name := output_dir_name (perm_dir perm) (cr_score result) in
  exists ctr fs1,
    next_output_dir (perm_dir perm) (cr_score result) fs
      = Some (ctr, name ctr, fs1)
    /\ 1 <= ctr
    /\ (forall j, 1 <= j < ctr -> is_Some (fs !! name j))
    /\ fs !! name ctr = None
    /\ fs1 = <[name ctr := Dir]> fs
    /\ match write_candidate perm result fs with
       | Wrote output_dir fs' _ =>
         output_dir = name ctr /\ fs' !! name ctr = Some Dir /\ fs ⊆ fs'
       | WriteRaised _ fs' => fs ⊆ fs'
       end
    /\ match write_candidate perm result fs with
       | Wrote _ fs' _ | WriteRaised _ fs' =>
         fs1 ⊆ fs' /\ fs' !! name ctr = Some Dir
       end
    /\ (forall source,
         cr_source result = Some source ->
         (forall f, f ∈ ["source.c"; "base.c"; "score.txt"; "diff.txt"] ->
                    fs !! Py.path_join (name ctr) f = None) ->
         exists fs',
           write_candidate perm result fs
           = Wrote (name ctr) fs' [PrintLn ("wrote to " +:+ name ctr)]
           /\ fs' !! Py.path_join (name ctr) "source.c" = Some (File source)).
Proof.
  intros name.
  destruct (next_output_dir_total (perm_dir perm) (cr_score result) fs)
    as [[[ctr d] fs1] E].
  pose proof E as E'. unfold next_output_dir in E'.
  apply mkdir_loop_Some in E' as (Hlo & -> & Hfree & -> & Hbefore).
  exists ctr, (<[name ctr := Dir]> fs). fold name in E, Hfree, Hbefore.
  split; [done|]. split; [lia|]. split; [intros j Hj; apply Hbefore; lia|].
  split; [done|]. split; [done|].
  assert (fs ⊆ <[name ctr := Dir]> fs) as Hsub by by apply insert_subseteq.
  split; [|split].
  - unfold write_candidate. rewrite E.
    destruct (cr_source result) as [source|]; [|done].
    assert (forall fs0 : gmap string Node,
      <[name ctr := Dir]> fs ⊆ fs0 ->
      fs0 !! name ctr = Some Dir /\ fs ⊆ fs0) as Hdone.
    { intros fs0 Hfs0. split; [|by etrans].
      eapply lookup_weaken; [|exact Hfs0]. apply lookup_insert_eq. }
    repeat match goal with
    | |- context [create_file ?p ?c ?f] =>
      let E := fresh "E" in
      destruct (create_file p c f) eqn:E; cbn [mbind option_bind];
      [apply create_file_grows in E|done]
    end.
    split; [done|]. apply Hdone. by repeat (etrans; [eassumption|]).
  - unfold write_candidate. rewrite E.
    assert (forall fs0 : gmap string Node,
      <[name ctr := Dir]> fs ⊆ fs0 ->
      <[name ctr := Dir]> fs ⊆ fs0 /\ fs0 !! name ctr = Some Dir) as Hdone.
    { intros fs0 Hfs0. split; [done|].
      eapply lookup_weaken; [|exact Hfs0]. apply lookup_insert_eq. }
    destruct (cr_source result) as [source|]; [|by apply Hdone].
    repeat match goal with
    | |- context [create_file ?p ?c ?f] =>
      let E := fresh "E" in
      destruct (create_file p c f) eqn:E; cbn [mbind option_bind];
      [apply create_file_grows in E|by apply Hdone]
    end.
    apply Hdone. by repeat (etrans; [eassumption|]).
  - intros source Hsource Hfiles. unfold write_candidate.
    rewrite E, Hsource.
    assert (forall f, f ∈ ["source.c"; "base.c"; "score.txt"; "diff.txt"] ->
                      f ∈ ["source.c"; "base.c"; "score.txt"; "diff.txt"])
      as Hin by done.
    assert ("source.c" ∈ ["source.c"; "base.c"; "score.txt"; "diff.txt"])
      as H1 by set_solver.
    assert ("base.c" ∈ ["source.c"; "base.c"; "score.txt"; "diff.txt"])
      as H2 by set_solver.
    assert ("score.txt" ∈ ["source.c"; "base.c"; "score.txt"; "diff.txt"])
      as H3 by set_solver.
    assert ("diff.txt" ∈ ["source.c"; "base.c"; "score.txt"; "diff.txt"])
      as H4 by set_solver.
    assert (forall f g, f ∈ ["source.c"; "base.c"; "score.txt"; "diff.txt"] ->
              g ∈ ["source.c"; "base.c"; "score.txt"; "diff.txt"] -> f <> g ->
              Py.path_join (name ctr) f <> Py.path_join (name ctr) g) as Hne.
    { intros f g Hf Hg Hfg Heq. by apply Hfg, (output_files_differ (name ctr)). }
    rewrite (create_file_free (Py.path_join (name ctr) "source.c"))
      by (rewrite lookup_insert_ne by (intros Heq; symmetry in Heq;
                                       by apply output_file_not_dir in Heq);
          by apply Hfiles).
    cbn [mbind option_bind].
    rewrite (create_file_free (Py.path_join (name ctr) "base.c"))
      by (rewrite lookup_insert_ne by (by apply Hne);
          rewrite lookup_insert_ne by (intros Heq; symmetry in Heq;
                                       by apply output_file_not_dir in Heq);
          by apply Hfiles).
    cbn [mbind option_bind].
    rewrite (create_file_free (Py.path_join (name ctr) "score.txt"))
      by (rewrite !lookup_insert_ne by (by apply Hne);
          rewrite lookup_insert_ne by (intros Heq; symmetry in Heq;
                                       by apply output_file_not_dir in Heq);
          by apply Hfiles).
    cbn [mbind option_bind].
    rewrite (create_file_free (Py.path_join (name ctr) "diff.txt"))
      by (rewrite !lookup_insert_ne by (by apply Hne);
          rewrite lookup_insert_ne by (intros Heq; symmetry in Heq;
                                       by apply output_file_not_dir in Heq);
          by apply Hfiles).
    eexists. split; [reflexivity|].
    rewrite !lookup_insert_ne by (by apply Hne). apply lookup_insert_eq.
Qed.

Import Examples MoreExamples.

(** [write_candidate_collision_free] in a job directory that already
    holds [output-7-1]. *)
Lemma write_candidate_collision_free_witness :
  exists fs',
    write_candidate a_permuter (a_candidate 7) {[ "job/output-7-1" := Dir ]}
    = Wrote "job/output-7-2" fs' [PrintLn "wrote to job/output-7-2"]
    /\ fs' !! "job/output-7-2/source.c" = Some (File "int y;").
Proof.
  destruct (write_candidate_collision_free a_permuter (a_candidate 7)
              {[ "job/output-7-1" := Dir ]})
    as (ctr & fs1 & Hnext & _ & _ & _ & _ & _ & _ & Hdone).
  assert (ctr = 2) as ->.
  { assert (next_output_dir (perm_dir a_permuter) (cr_score (a_candidate 7))
              {[ "job/output-7-1" := Dir ]}
            = Some (2, "job/output-7-2",
                    <["job/output-7-2" := Dir]> {[ "job/output-7-1" := Dir ]}))
      as Hc by (vm_compute; reflexivity).
    rewrite Hc in Hnext. by injection Hnext as <- _. }
  assert (output_dir_name (perm_dir a_permuter) (cr_score (a_candidate 7)) 2
          = "job/output-7-2") as Hname by (vm_compute; reflexivity).
  rewrite Hname in Hdone.
  assert (Py.path_join "job/output-7-2" "source.c" = "job/output-7-2/source.c")
    as Hfile by (vm_compute; reflexivity).
  rewrite Hfile in Hdone.
  apply (Hdone "int y;"); [reflexivity|].
  intros f Hf. apply list_elem_of_In in Hf.
  destruct Hf as [<-|[<-|[<-|[<-|[]]]]]; vm_compute; reflexivity.
Defined.

End OutputFacts.

(** ** Result handling *)

Module ScoringFacts.
Import Types Output Scoring.

Section WithOps.
Context `{ProfilerOps} `{!PermuterOps}.

(** [post_score] never changes the options. *)
Lemma post_score_options c i p r who :
  match post_score c i p r who with
  | Return _ c' | SysExit _ c' | Raised _ c' => options c' = options c
  end.
Proof.
  unfold post_score, post_eval_error.
  repeat (case_match; simplify_eq/=; try done).
Qed.

(** C6, as the code has it.  For an [EvalError], [post_score] prints the
    failure notice and the error text, then the reproducer line when the
    error carries a seed, and nothing more when it does not; it leaves
    the iteration and error counters, the permuters and the files as
    they were; and it either exits with status 1, when
    [abort_exceptions] is set, or returns false, when it is not. *)
Theorem post_score_eval_error (c : EvalContext) (perm_index : nat)
    (permuter : Permuter) (e : EvalError) (who : option string) :
  exists c',
    post_score c perm_index permuter (RError e) who
      = (if abort_exceptions (options c) then SysExit 1 c' else Return false c')
    /\ terminal c' =
         terminal c ++ failure_notice permuter e who
         ++ match err_seed e with
            | Some seed => [PrintLn (reproducer seed)]
            | None => []
            end
    /\ errors c' = errors c
    /\ iteration c' = iteration c
    /\ permuters c' = permuters c
    /\ files c' = files c.
Proof.
  unfold post_score, post_eval_error, failure_notice.
  destruct (err_seed e) as [seed|]; eexists; (split; [reflexivity|]);
    cbn; rewrite <- ?app_assoc; repeat split; reflexivity.
Qed.

End WithOps.

Import Examples.

(** C6, as stated, fails on an error without a seed: the reproducer
    line is not printed, and the error tally stays at 0. *)
Lemma post_score_eval_error_no_seed :
  let c := mkEvalContext (mkOptions false false false false 1 false)
                         0 0 tt [Examples.a_permuter] [] ∅ in
  exists c',
    post_score c 0 Examples.a_permuter
               (RError (mkEvalError "boom" None)) None = Return false c'
    /\ terminal c' =
         [PrinterPrint "internal permuter failure." (Some "func") None None true;
          PrintLn "boom"]
    /\ (forall seed, PrintLn (reproducer seed) ∉ terminal c')
    /\ errors c' = 0.
Proof.
  eexists. split; [reflexivity|]. cbn. repeat split.
  intros seed Hin. rewrite !elem_of_cons, elem_of_nil in Hin.
  destruct Hin as [Hin|[Hin|[]]]; [discriminate Hin|].
  injection Hin as Heq. unfold reproducer in Heq. cbn in Heq.
  discriminate Heq.
Qed.

End ScoringFacts.

(** ** The coordinator loops *)

Module CoordinatorFacts.
Import Types Output Scoring Coordinator.

Section WithOps.
Context `{ProfilerOps} `{!PermuterOps}.

Lemma process_result_options i r who c o :
  process_result i r who c = Some o ->
  match o with
  | Return _ x | SysExit _ x | Raised _ x => options x = options (context c)
  end.
Proof.
  unfold process_result. destruct (permuters (context c) !! i); [|done].
  intros [= <-]. apply ScoringFacts.post_score_options.
Qed.

Lemma finished_count_cons t turns :
  finished_count (t :: turns)
  = ((if is_finished t then 1 else 0) + finished_count turns)%nat.
Proof. unfold finished_count. cbn. by destruct (is_finished t). Qed.

Lemma process_finish_fields reason who c :
  active_workers (process_finish reason who c) = active_workers c - 1
  /\ task_queue (process_finish reason who c) = task_queue c
  /\ options (context (process_finish reason who c)) = options (context c)
  /\ found_zero (process_finish reason who c) = found_zero c
  /\ scored (process_finish reason who c) = scored c
  /\ last_time (process_finish reason who c) = last_time c.
Proof.
  unfold process_finish. destruct reason as [r|]; [|done].
  by case_bool_decide.
Qed.

(** The drain loop, when it is left: it has consumed the feedback up to
    the [Finished] of the last active worker, it has put nothing on the
    task queue, and the results it scored are the first [n] it received,
    none if the zero was locked in at the start and all unless the zero
    is locked in at the end. *)
Lemma draining_Left c turns c' rest :
  draining c turns = Left c' rest ->
  exists consumed n,
    turns = consumed ++ rest
    /\ finished_count consumed = Z.to_nat (active_workers c)
    /\ active_workers c' = Z.min 0 (active_workers c)
    /\ task_queue c' = task_queue c
    /\ options (context c') = options (context c)
    /\ (found_zero c = true -> found_zero c' = true)
    /\ scored c' = scored c ++ take n (work_items consumed)
    /\ (zero_locked c = true -> n = 0%nat)
    /\ (zero_locked c' = false -> n = length (work_items consumed)).
Proof.
  revert c. induction turns as [|t turns IH]; intros c; cbn [draining].
  - case_bool_decide; [done|]. intros [= <- <-]. exists [], 0%nat.
    rewrite app_nil_r.
    repeat split; try done; cbn; rewrite ?app_nil_r; (done || lia).
  - case_bool_decide as Hact.
    2:{ intros [= <- <-]. exists [], 0%nat. rewrite app_nil_r.
        repeat split; try done; cbn; rewrite ?app_nil_r; (done || lia). }
    destruct t as [clk [[[reason|text| |i r] who]|now]]; cbn [arrival clock];
      [| | | |done].
    + intros (consumed & n & -> & Hfin & Hact' & Hq & Hopt & Hz & Hs & Hl0 & Hl1)%IH.
      exists (mkTurn clk (Got (FFinished reason, who)) :: consumed), n.
      rewrite finished_count_cons. cbn [is_finished arrival].
      destruct (process_finish_fields reason who (heartbeat clk c))
        as (Ea & Eq & Eo & Ez & Es & _).
      rewrite Ea in Hfin, Hact'. rewrite Eq in Hq. rewrite Eo in Hopt.
      rewrite Ez in Hz. rewrite Es in Hs.
      unfold zero_locked in Hl0. rewrite Eo, Ez in Hl0.
      change (active_workers (heartbeat clk c)) with (active_workers c) in *.
      repeat split; try done; lia.
    + intros (consumed & n & -> & ?)%IH.
      exists (mkTurn clk (Got (FMessage text, who)) :: consumed), n.
      rewrite finished_count_cons. done.
    + intros (consumed & n & -> & ?)%IH.
      exists (mkTurn clk (Got (FNeedMoreWork, who)) :: consumed), n.
      rewrite finished_count_cons. done.
    + destruct (negb _) eqn:Hlock.
      * destruct (process_result i r who (heartbeat clk c)) as [[zero x|code x|exn x]|]
          eqn:Hpr; [|done..].
        apply process_result_options in Hpr.
        change (context (heartbeat clk c)) with (context c) in Hpr.
        apply negb_true_iff in Hlock.
        change (zero_locked c = false) in Hlock.
        intros (consumed & n & -> & Hfin & Hact' & Hq & Hopt & Hz & Hs & Hl0 & Hl1)%IH.
        exists (mkTurn clk (Got (FWorkDone i r, who)) :: consumed), (S n).
        rewrite finished_count_cons. cbn [is_finished arrival].
        assert (scored c' = scored c ++ (i, r) :: take n (work_items consumed))
          as Hs'.
        { rewrite Hs. destruct zero; cbn; by rewrite <- app_assoc. }
        assert (options (context c') = options (context c)) as Hopt'.
        { rewrite Hopt, <- Hpr. by destruct zero. }
        repeat split; try done.
        -- rewrite Hfin. by destruct zero.
        -- rewrite Hact'. by destruct zero.
        -- rewrite Hq. by destruct zero.
        -- intros Hfz. unfold zero_locked in Hlock. rewrite Hfz in Hlock.
           apply Hz. destruct zero; [done|]. done.
        -- congruence.
        -- intros Hl. cbn. f_equal. by apply Hl1.
      * apply negb_false_iff in Hlock.
        change (zero_locked c = true) in Hlock.
        intros (consumed & n & -> & Hfin & Hact' & Hq & Hopt & Hz & Hs & Hl0 & Hl1)%IH.
        exists (mkTurn clk (Got (FWorkDone i r, who)) :: consumed), 0%nat.
        rewrite finished_count_cons. cbn [is_finished arrival].
        specialize (Hl0 Hlock). subst n.
        repeat split; try done.
        intros Hl. exfalso. unfold zero_locked in Hl, Hlock.
        apply andb_true_iff in Hlock as [Hs1 Hs2].
        change (context (heartbeat clk c)) with (context c) in Hopt.
        change (found_zero (heartbeat clk c)) with (found_zero c) in Hz.
        rewrite Hopt, Hs1, (Hz Hs2) in Hl. done.
Qed.

Lemma draining_Waiting c turns c' :
  draining c turns = Waiting c' ->
  0 < active_workers c'
  /\ (finished_count turns < Z.to_nat (active_workers c))%nat.
Proof.
  revert c. induction turns as [|t turns IH]; intros c; cbn [draining].
  - case_bool_decide; [|done]. intros [= <-]. cbn. lia.
  - case_bool_decide as Hact; [|done]. rewrite finished_count_cons.
    destruct t as [clk [[[reason|text| |i r] who]|now]];
      cbn [arrival clock is_finished]; [| | | |done].
    + intros [? Hlt]%IH. split; [done|].
      destruct (process_finish_fields reason who (heartbeat clk c)) as (Ea & _).
      rewrite Ea in Hlt.
      change (active_workers (heartbeat clk c)) with (active_workers c) in Hlt.
      lia.
    + by intros [? Hlt]%IH.
    + by intros [? Hlt]%IH.
    + destruct (negb _).
      * destruct (process_result i r who (heartbeat clk c)) as [[zero x|code x|exn x]|];
          [|done..].
        intros [? Hlt]%IH. split; [done|]. by destruct zero.
      * by intros [? Hlt]%IH.
Qed.

(** One [WorkDone] met by the drain loop: it is skipped when the zero is
    locked in, and handed to [post_score] otherwise, whose answer is
    recorded in [found_zero]. *)
Lemma draining_work_done c clk i r who rest :
  0 < active_workers c ->
  (zero_locked c = true ->
   draining c (mkTurn clk (Got (FWorkDone i r, who)) :: rest)
   = draining (heartbeat clk c) rest)
  /\ (zero_locked c = false ->
      forall p zero x,
        permuters (context c) !! i = Some p ->
        post_score (context c) i p r who = Return zero x ->
        draining c (mkTurn clk (Got (FWorkDone i r, who)) :: rest)
        = draining (mkCoord x (active_workers c) (found_zero c || zero)
                            (perm_seed_iter c) (task_queue c) clk
                            (scored c ++ [(i, r)])) rest).
Proof.
  intros Hact. cbn [draining arrival clock].
  rewrite bool_decide_eq_true_2 by lia.
  change (stop_on_zero (options (context (heartbeat clk c)))
          && found_zero (heartbeat clk c)) with (zero_locked c).
  split; intros Hlock; rewrite Hlock; cbn [negb]; [done|].
  intros p zero x Hp Hps. unfold process_result.
  change (context (heartbeat clk c)) with (context c). rewrite Hp, Hps.
  f_equal. unfold zero_locked in Hlock.
  destruct zero, (found_zero c) eqn:Hz; cbn; unfold log_scored, set_found_zero,
    set_context, heartbeat; cbn; rewrite ?Hz; try reflexivity.
Qed.

(** The drain loop puts nothing on the task queue while it waits. *)
Lemma draining_Waiting_queue c turns c' :
  draining c turns = Waiting c' -> task_queue c' = task_queue c.
Proof.
  revert c. induction turns as [|t turns IH]; intros c; cbn [draining];
    case_bool_decide; try done.
  { by intros [= <-]. }
  destruct t as [clk [[[reason|text| |i r] who]|now]]; cbn [arrival clock];
    [| | | |done].
  - intros ->%IH.
    by destruct (process_finish_fields reason who (heartbeat clk c))
      as (_ & -> & _).
  - by intros ->%IH.
  - by intros ->%IH.
  - destruct (negb _); [|by intros ->%IH].
    destruct (process_result i r who (heartbeat clk c)) as [[zero x|code x|exn x]|];
      [|done..].
    intros ->%IH. by destruct zero.
Qed.

(** Why the feeding loop is left: no worker remains, the seed stream is
    exhausted, or a zero was found under [stop_on_zero]; and the count of
    active workers has not gone below zero. *)
Lemma feeding_Left_state c0 turns c rest :
  feeding c0 turns = Left c rest ->
  (active_workers c <= 0
   \/ Seeds.gen_next (perm_seed_iter c) = None
   \/ zero_locked c = true)
  /\ (0 <= active_workers c0 -> 0 <= active_workers c).
Proof.
  revert c0. induction turns as [|t turns IH]; intros c0; cbn [feeding];
    case_bool_decide as Hact; try done;
    try (intros [= <- <-]; split; [left; lia|done]).
  assert (Hrefill : forall c1,
    active_workers c1 = active_workers c0 ->
    match feed_one c1 with
    | Some c2 => feeding c2 turns
    | None => Left c1 turns
    end = Left c rest ->
    (active_workers c <= 0
     \/ Seeds.gen_next (perm_seed_iter c) = None
     \/ zero_locked c = true)
    /\ (0 <= active_workers c0 -> 0 <= active_workers c)).
  { intros c1 Ha. unfold feed_one.
    destruct (Seeds.gen_next (perm_seed_iter c1)) as [[[i s] g]|] eqn:Hn.
    - intros [Hwhy Hpos]%IH. split; [done|]. intros ?. apply Hpos. cbn. lia.
    - intros [= <- <-]. split; [by right; left|]. lia. }
  destruct t as [clk [[[reason|text| |i r] who]|now']]; cbn [arrival clock];
    [| | | |done].
  - intros [Hwhy Hpos]%IH. split; [done|]. intros ?. apply Hpos.
    destruct (process_finish_fields reason who (heartbeat clk c0)) as (-> & _).
    cbn. lia.
  - by apply Hrefill.
  - by apply Hrefill.
  - destruct (process_result i r who (heartbeat clk c0)) as [[zero x|code x|exn x]|];
      [|done..].
    destruct zero; cbn [set_found_zero context]; [case_match eqn:Hstop|].
    + intros [= <- <-]. split; [|cbn; lia]. right; right.
      unfold zero_locked. cbn in *. by rewrite Hstop.
    + by apply Hrefill.
    + by apply Hrefill.
Qed.

(** C3.  When the feeding loop has been left in a state [c] (the seed
    stream is exhausted, or a zero was found under [stop_on_zero], or no
    worker is left), exactly [active_workers] [Finished] tasks are put on
    the task queue.  The drain loop then reads feedback: while it waits,
    fewer [Finished] than active workers have come in; when it is left, it
    has read exactly up to the [Finished] of the last active worker and no
    worker remains active.  A [WorkDone] it reads is skipped when the zero
    is locked in ([stop_on_zero] and [found_zero]) and is passed to
    [post_score] otherwise.  So the results scored during the drain are
    the first [n] received: none when the zero was locked in on entry, and
    all of them unless the zero is locked in at the end.

    This is what the coordinator does: whenever its feeding loop, started
    in a state [c0], is left in [c] with the feedback [turns] still to
    come, the run with queues (and [run_inner], when it takes that branch)
    goes on exactly as the drain loop does from [signal_stop c]: while
    the drain waits the run is still running, with the [Finished] tasks on
    the queue; when the drain is left the run ends as [finish] says. *)
Theorem drain_after_feeding (c : Coord) (turns : list Turn) :
  0 <= active_workers c ->
  let c1 := signal_stop c in
  task_queue c1
    = task_queue c ++ replicate (Z.to_nat (active_workers c)) (TFinished None)
  /\ (forall c', draining c1 turns = Waiting c' ->
       0 < active_workers c'
       /\ (finished_count turns < Z.to_nat (active_workers c))%nat)
  /\ (forall c' rest, draining c1 turns = Left c' rest ->
       active_workers c' = 0
       /\ task_queue c' = task_queue c1
       /\ exists consumed n,
            turns = consumed ++ rest
            /\ finished_count consumed = Z.to_nat (active_workers c)
            /\ scored c' = scored c ++ take n (work_items consumed)
            /\ (zero_locked c = true -> n = 0%nat)
            /\ (zero_locked c' = false -> n = length (work_items consumed)))
  /\ (forall c2 clk i r who rest,
       0 < active_workers c2 ->
       (zero_locked c2 = true ->
        draining c2 (mkTurn clk (Got (FWorkDone i r, who)) :: rest)
        = draining (heartbeat clk c2) rest)
       /\ (zero_locked c2 = false ->
           forall p zero x,
             permuters (context c2) !! i = Some p ->
             post_score (context c2) i p r who = Return zero x ->
             draining c2 (mkTurn clk (Got (FWorkDone i r, who)) :: rest)
             = draining (mkCoord x (active_workers c2) (found_zero c2 || zero)
                                 (perm_seed_iter c2) (task_queue c2) clk
                                 (scored c2 ++ [(i, r)])) rest))
  /\ (forall c0 before,
       feeding c0 before = Left c turns ->
       (active_workers c = 0
        \/ Seeds.gen_next (perm_seed_iter c) = None
        \/ zero_locked c = true)
       /\ run_queues c0 before
          = lift (draining c1 turns) (fun c' _ => finish c')
       /\ (bool_decide (threads (options (context c0)) = 1)
           && negb (use_network (options (context c0))) = false ->
           active_workers c0 <> 0 ->
           run_inner c0 before
           = lift (draining c1 turns) (fun c' _ => finish c'))
       /\ (forall c', draining c1 turns = Waiting c' ->
            run_queues c0 before = StillRunning c'
            /\ task_queue c'
               = task_queue c
                 ++ replicate (Z.to_nat (active_workers c)) (TFinished None))
       /\ (forall c' rest, draining c1 turns = Left c' rest ->
            run_queues c0 before = finish c'
            /\ task_queue c'
               = task_queue c
                 ++ replicate (Z.to_nat (active_workers c)) (TFinished None))).
Proof.
  intros Hact c1. split; [reflexivity|]. split; [|split; [|split]].
  - intros c' Hw. by apply draining_Waiting in Hw.
  - intros c' rest
      (consumed & n & -> & Hfin & Hact' & Hq & Hopt & Hz & Hs & Hl0 & Hl1)%draining_Left.
    change (active_workers c1) with (active_workers c) in *.
    split; [lia|]. split; [done|]. by exists consumed, n.
  - intros. by apply draining_work_done.
  - intros c0 before Hfeed.
    assert (run_queues c0 before
            = lift (draining c1 turns) (fun c' _ => finish c')) as Hrun.
    { unfold run_queues. by rewrite Hfeed. }
    split; [|split; [done|split; [|split]]].
    + destruct (feeding_Left_state _ _ _ _ Hfeed) as [[?|?] _]; [left; lia|by right].
    + intros Hmode Hworkers. unfold run_inner.
      by rewrite Hmode, bool_decide_false.
    + intros c' Hw. rewrite Hrun, Hw. split; [done|].
      by apply draining_Waiting_queue in Hw as ->.
    + intros c' rest Hl. rewrite Hrun, Hl. split; [done|].
      by apply draining_Left in Hl as (? & ? & _ & _ & _ & -> & _).
Qed.

(** *** Interrupts *)

Lemma interrupted_here clk now rest :
  interrupted_at (mkTurn clk (CtrlC now) :: rest) now clk.
Proof. by exists [], (mkTurn clk (CtrlC now)), rest. Qed.

Lemma interrupted_later t turns now last :
  is_interrupt t = false ->
  interrupted_at turns now last -> interrupted_at (t :: turns) now last.
Proof.
  intros Ht (before & t' & after & -> & Hb & Ha & Hc).
  exists (t :: before), t', after. repeat split; try done. by constructor.
Qed.


Lemma only_work_refl q : only_work_added q q.
Proof. exists []. by rewrite app_nil_r. Qed.

Lemma only_work_step q i s q' :
  only_work_added (q ++ [TWork i s]) q' -> only_work_added q q'.
Proof.
  intros (ws & -> & Hws). exists (TWork i s :: ws).
  rewrite <- app_assoc. split; [done|]. constructor; eauto.
Qed.

Lemma only_work_no_finished q q' reason :
  only_work_added q q' -> TFinished reason ∈ q' -> TFinished reason ∈ q.
Proof.
  intros (ws & -> & Hws) [Hin|Hin]%elem_of_app; [done|].
  rewrite Forall_forall in Hws. by destruct (Hws _ Hin) as (? & ? & ?).
Qed.

Lemma feed_one_queue c c' :
  feed_one c = Some c' ->
  exists i s, task_queue c' = task_queue c ++ [TWork i s].
Proof.
  unfold feed_one. destruct (Seeds.gen_next _) as [[[i s] g]|]; [|done].
  intros [= <-]. by exists i, s.
Qed.

(** An interrupt met by the feeding loop: it is the first one, the
    heartbeat of its turn has been taken, and only work has been put on
    the task queue so far. *)
Lemma feeding_Interrupt c turns now c' :
  feeding c turns = Interrupt now c' ->
  interrupted_at turns now (last_time c')
  /\ only_work_added (task_queue c) (task_queue c').
Proof.
  revert c. induction turns as [|t turns IH]; intros c; cbn [feeding];
    case_bool_decide; try done.
  assert (Hrefill : forall c0,
    task_queue c0 = task_queue c ->
    match feed_one c0 with
    | Some c1 => feeding c1 turns
    | None => Left c0 turns
    end = Interrupt now c' ->
    interrupted_at turns now (last_time c')
    /\ only_work_added (task_queue c) (task_queue c')).
  { intros c0 Hq. destruct (feed_one c0) as [c1|] eqn:Hf; [|done].
    apply feed_one_queue in Hf as (i & s & Hf).
    intros [? Hw]%IH. split; [done|]. rewrite Hf, Hq in Hw.
    by eapply only_work_step. }
  destruct t as [clk [[[reason|text| |i r] who]|now']]; cbn [arrival clock].
  - intros [? Hw]%IH. split; [by apply interrupted_later|].
    destruct (process_finish_fields reason who (heartbeat clk c))
      as (_ & Eq & _).
    rewrite Eq in Hw. exact Hw.
  - intros [? ?]%Hrefill; [|done]. split; [by apply interrupted_later|done].
  - intros [? ?]%Hrefill; [|done]. split; [by apply interrupted_later|done].
  - destruct (process_result i r who (heartbeat clk c)) as [[zero x|code x|exn x]|];
      [|done..].
    destruct zero; cbn [set_found_zero context]; [case_match; [done|]|];
      (intros [? ?]%Hrefill; [|done]);
      (split; [by apply interrupted_later|done]).
  - intros [= <- <-]. split; [apply interrupted_here|apply only_work_refl].
Qed.





(** While the coordinator is still feeding, an interrupt finds no
    [Finished] on the task queue that was not there before: no drain has
    begun. *)
Lemma no_drain_on_interrupt c turns now c' reason :
  feeding c turns = Interrupt now c' ->
  TFinished reason ∈ task_queue c' -> TFinished reason ∈ task_queue c.
Proof.
  intros [_ Hw]%feeding_Interrupt. by apply only_work_no_finished.
Qed.

End WithOps.

Import Examples.

(** The theorem on a run with two workers: a zero, a [Finished], a
    result of 7, the second [Finished]; one more item is left unread. *)
Lemma drain_after_feeding_witness :
  0 <= active_workers (two_workers true)
  /\ task_queue (signal_stop (two_workers true))
     = [TFinished None; TFinished None]
  /\ (exists c',
       draining (signal_stop (two_workers true)) final_feedback
       = Left c' [mkTurn 5%float (Got (FNeedMoreWork, None))]
       /\ active_workers c' = 0
       /\ scored c' = [(0%nat, a_result 0)])
  /\ feeding (two_workers false) MoreExamples.whole_run
     = Left MoreExamples.after_feeding MoreExamples.run_end
  /\ Seeds.gen_next (perm_seed_iter MoreExamples.after_feeding) = None
  /\ exists c',
       draining (signal_stop MoreExamples.after_feeding) MoreExamples.run_end
       = Left c' []
       /\ run_queues (two_workers false) MoreExamples.whole_run = finish c'
       /\ task_queue c'
          = [TWork 0 1; TWork 0 2; TFinished None; TFinished None]
       /\ scored c' = [(0%nat, a_result 7); (0%nat, a_result 7)].
Proof.
  split; [done|]. split; [reflexivity|].
  destruct (drain_after_feeding (two_workers true) final_feedback)
    as (Hq & _ & Hleft & _); [done|].
  split.
  { eexists. split; [vm_compute; reflexivity|].
    edestruct Hleft as (Ha & _ & _); [vm_compute; reflexivity|].
    split; [exact Ha|]. vm_compute. reflexivity. }
  assert (feeding (two_workers false) MoreExamples.whole_run
          = Left MoreExamples.after_feeding MoreExamples.run_end) as Hfeed.
  { vm_compute. reflexivity. }
  split; [exact Hfeed|]. split; [vm_compute; reflexivity|].
  destruct (drain_after_feeding MoreExamples.after_feeding MoreExamples.run_end)
    as (_ & _ & _ & _ & Hrun); [vm_compute; discriminate|].
  destruct (Hrun _ _ Hfeed) as (_ & _ & _ & _ & Hend).
  assert (exists c',
    draining (signal_stop MoreExamples.after_feeding) MoreExamples.run_end
    = Left c' []) as [c' Hd].
  { eexists. vm_compute. reflexivity. }
  exists c'. split; [exact Hd|].
  destruct (Hend _ _ Hd) as [Hr Ht]. split; [exact Hr|].
  split; [rewrite Ht; vm_compute; reflexivity|].
  assert (Left c' [] = draining (signal_stop MoreExamples.after_feeding)
                                MoreExamples.run_end) as Hd' by done.
  vm_compute in Hd'. injection Hd' as ->. vm_compute. reflexivity.
Defined.



End CoordinatorFacts.

(** ** The server *)

Module ServerFacts.
Import Server.

Lemma remove_Ok handle s s' :
  remove handle s = Ok s' ->
  handle ∈ active s
  /\ s' = set_active (active s ∖ {[handle]})
            (evaluator_send [SendJson (JsonRemove (Py.str_int handle))] s).
Proof.
  unfold remove. cbn [active evaluator_send]. case_bool_decide; [|done].
  by intros [= <-].
Qed.

Lemma remove_active handle s :
  handle ∈ active s -> exists s', remove handle s = Ok s'.
Proof.
  intros Hin. unfold remove. cbn [active evaluator_send].
  rewrite bool_decide_eq_true_2 by done. eauto.
Qed.

(** The evaluator has been told to add [h], and nothing that follows in
    the log removes it. *)
Lemma told_to_add_new log h perm :
  told_to_add (log ++ [SendJson (JsonAdd (Py.str_int h) perm);
                       SendBytes (pd_source perm);
                       SendBytes (pd_target_o_bin perm)]) h.
Proof.
  exists log, perm, []. split; [done|]. apply not_elem_of_nil.
Qed.

Lemma told_to_add_app log extra h :
  told_to_add log h ->
  SendJson (JsonRemove (Py.str_int h)) ∉ extra ->
  told_to_add (log ++ extra) h.
Proof.
  intros (before & perm & after & -> & Hafter) Hextra.
  exists before, perm, (after ++ extra). split.
  - by rewrite <- !app_assoc.
  - rewrite elem_of_app. tauto.
Qed.

Lemma active_added_controller m s :
  active_added s -> active_added (send_controller m s).
Proof. unfold send_controller. by destruct (net_thread s). Qed.

Lemma active_added_remove handle s s' :
  active_added s -> remove handle s = Ok s' -> active_added s'.
Proof.
  intros Hinv [_ ->]%remove_Ok h. cbn [active evaluator_sent set_active
    evaluator_send]. intros [Hin Hne]%elem_of_difference.
  apply told_to_add_app; [by apply Hinv|].
  rewrite list_elem_of_singleton. intros [= Heq].
  apply OutputFacts.str_int_inj in Heq. set_solver.
Qed.

Lemma active_added_remove_all l s s' :
  active_added s ->
  foldl (fun r handle => bind r (remove handle)) (Ok s) l = Ok s' ->
  active_added s' /\ active s' = active s ∖ list_to_set l.
Proof.
  revert s. induction l as [|h l IH]; intros s Hinv; cbn [foldl].
  - intros [= <-]. split; [done|]. set_solver.
  - cbn [bind]. destruct (remove h s) as [s1|e] eqn:Hr.
    + intros [Hinv' Hact]%IH; [|by eapply active_added_remove].
      split; [done|]. apply remove_Ok in Hr as [_ ->].
      cbn [active set_active evaluator_send] in Hact. set_solver.
    + intros Hbad. exfalso. clear -Hbad.
      induction l as [|? ? IHl]; [done|]. by apply IHl.
Qed.

(** Listing the active set and removing each handle never meets a
    missing one. *)
Lemma remove_all_Ok l s :
  NoDup l -> (forall h, h ∈ l -> h ∈ active s) ->
  exists s',
    foldl (fun r handle => bind r (remove handle)) (Ok s) l = Ok s'
    /\ active s' = active s ∖ list_to_set l
    /\ net_thread s' = net_thread s.
Proof.
  intros Hnd. revert s. induction Hnd as [|h l Hh Hnd IH]; intros s Hin.
  - exists s. repeat split. set_solver.
  - destruct (remove_active h s) as [s1 Hs1]; [apply Hin; left|].
    cbn [foldl bind]. rewrite Hs1.
    apply remove_Ok in Hs1 as [_ ->].
    edestruct IH as (s' & -> & Ha & Hn).
    { intros x Hx. cbn [active set_active evaluator_send].
      apply elem_of_difference. split; [apply Hin; by right|].
      rewrite elem_of_singleton. by intros ->. }
    exists s'. split; [done|]. split; [|done].
    rewrite Ha. cbn [active set_active evaluator_send]. set_solver.
Qed.

(** When its network thread disconnects, the server removes every
    permuter and drops the thread. *)
Lemma net_thread_disconnected s thread_id :
  net_thread s = Some thread_id ->
  exists s',
    handle_message s (NetThreadDisconnected thread_id) = Ok s'
    /\ active s' = ∅ /\ net_thread s' = None.
Proof.
  intros Hnt. cbn [handle_message]. rewrite Hnt.
  rewrite bool_decide_eq_false_2 by (intros Hn; by apply Hn).
  destruct (remove_all_Ok (elements (active s)) s) as (s1 & Hs1 & Ha & Hn).
  { apply NoDup_elements. }
  { intros h. by rewrite elem_of_elements. }
  rewrite Hs1. cbn [bind]. eexists. split; [reflexivity|].
  unfold stop_net_thread. cbn [net_thread print]. rewrite Hn, Hnt.
  cbn [active set_net_thread controller_put print]. split; [|done].
  rewrite Ha. apply set_eq. intros x.
  rewrite elem_of_difference, elem_of_list_to_set, elem_of_elements.
  set_solver.
Qed.

(** [_handle_message] keeps the invariant. *)
Lemma handle_message_active_added s msg s' :
  active_added s -> handle_message s msg = Ok s' -> active_added s'.
Proof.
  intros Hinv. destruct msg; cbn [handle_message].
  - (* AddPermuter *)
    case_bool_decide as Hin; [done|]. intros [= <-] h.
    cbn [active evaluator_sent send_io io_put send_permuter evaluator_send
         set_active].
    intros [->%elem_of_singleton|Hh]%elem_of_union.
    + apply told_to_add_new.
    + apply told_to_add_app; [by apply Hinv|].
      rewrite !elem_of_cons, elem_of_nil. by intros [|[|[|]]].
  - (* RemovePermuter *)
    case_bool_decide; [by intros [= <-]|].
    destruct (remove handle s) as [s1|] eqn:Hr; [|done]. intros [= <-].
    by eapply active_added_remove in Hr.
  - (* Work *)
    case_bool_decide; intros [= <-].
    + by apply active_added_controller.
    + intros h Hh. cbn [active evaluator_sent evaluator_send] in *.
      apply told_to_add_app; [by apply Hinv|].
      rewrite list_elem_of_singleton. done.
  - (* ImmediateDisconnect *)
    case_bool_decide; [done|]. intros [= <-].
    by apply active_added_controller.
  - (* Disconnect *)
    case_bool_decide; [by intros [= <-]|].
    destruct (remove handle s) as [s1|] eqn:Hr; [|done]. intros [= <-].
    apply active_added_controller. by eapply active_added_remove in Hr.
  - (* PermInitFail *)
    destruct (Py.int_str perm_id) as [handle|]; [|done].
    case_bool_decide; intros [= <-]; apply active_added_controller; [done|].
    intros h [Hh _]%elem_of_difference. by apply Hinv.
  - (* PermInitSuccess *)
    destruct (Py.int_str perm_id) as [handle|]; [|done].
    case_bool_decide; intros [= <-]; by apply active_added_controller.
  - (* WorkDone *)
    destruct (Py.int_str perm_id) as [handle|]; [|done].
    case_bool_decide; [intros [= <-]; by apply active_added_controller|].
    destruct (score_of _); [|done]. intros [= <-].
    by apply active_added_controller.
  - (* NeedMoreWork *)
    intros [= <-]. by apply active_added_controller.
  - (* NetThreadDisconnected *)
    destruct (net_thread s) as [current|] eqn:Hnt; [|by intros [= <-]].
    case_bool_decide; [by intros [= <-]|].
    destruct (foldl _ _ _) as [s1|] eqn:Hf; [|done]. intros [= <-].
    apply active_added_remove_all in Hf as [Hinv1 _]; [|done].
    unfold stop_net_thread. cbn [net_thread print].
    destruct (net_thread s1); exact Hinv1.
  - by intros [= <-].
  - by intros [= <-].
Qed.

Lemma main_loop_active_added s events s' :
  active_added s -> main_loop s events = Ok s' -> active_added s'.
Proof.
  revert s. induction events as [|[msg queue_empty] events IH]; intros s Hinv.
  - by intros [= <-].
  - assert (Hstep : bind (handle_message s msg) (fun s1 =>
        main_loop (if bool_decide (active s1 = ∅) && queue_empty
                   then send_io_global IoWillSleep s1 else s1) events) = Ok s'
      -> active_added s').
    { destruct (handle_message s msg) as [s1|] eqn:Hm; [|done]. cbn [bind].
      apply IH. eapply handle_message_active_added in Hm; [|done].
      by destruct (_ && _). }
    destruct msg; cbn [main_loop]; try exact Hstep. by intros [= <-].
Qed.

(** C8.  In every state a started server reaches by handling events,
    each active handle has been announced to the evaluator by an [add]
    message with its two raw frames, and no [remove] for that handle has
    been sent after that [add]. *)
Theorem active_handles_were_added (s : State) (h : Z) :
  reachable s -> h ∈ active s -> told_to_add (evaluator_sent s) h.
Proof.
  intros (s0 & events & Hs0 & Hloop) Hin.
  eapply main_loop_active_added; [|exact Hloop|exact Hin].
  unfold start in Hs0. cbn in Hs0. injection Hs0 as <-.
  intros h' Hh'. cbn in Hh'. set_solver.
Qed.

(** C4, as the code has it.  A [Work] event for a handle that is not
    active writes nothing to the evaluator port and changes neither the
    active set nor the I/O queue; it puts exactly one
    [OutputNeedMoreWork] on the controller queue when the server has a
    network thread, and nothing when it has none. *)
Theorem work_for_inactive_handle (s : State) (handle seed : Z) :
  handle ∉ active s ->
  exists s',
    handle_message s (Work handle seed) = Ok s'
    /\ evaluator_sent s' = evaluator_sent s
    /\ active s' = active s
    /\ io_queue s' = io_queue s
    /\ controller_sent s' =
         controller_sent s
         ++ match net_thread s with
            | Some _ => [OutputNeedMoreWork]
            | None => []
            end.
Proof.
  intros Hin. cbn [handle_message]. rewrite bool_decide_eq_true_2 by done.
  eexists. split; [reflexivity|]. unfold need_work, send_controller.
  destruct (net_thread s); cbn; by rewrite ?app_nil_r.
Qed.

(** C5.  Removing a handle that is not active is a silent no-op: the
    state, with all its queues, is returned as it was.  Adding a handle
    that is active raises. *)
Theorem membership_errors_asymmetric (s : State) (h : Z) (client : Client)
    (permuter_data : PermuterData) :
  (h ∉ active s -> handle_message s (RemovePermuter h) = Ok s)
  /\ (h ∈ active s ->
      handle_message s (AddPermuter h client permuter_data)
      = Raise "Repeated AddPermuter!").
Proof.
  split; intros Hin; cbn [handle_message];
    by rewrite bool_decide_eq_true_2 by done.
Qed.

(** C10, as the code has it.  [PermInitFail] for an active handle takes
    the handle out of the active set, puts [IoDisconnect "failed to
    compile"] on the I/O queue, puts [OutputInitFail] on the controller
    queue when there is a network thread (and nothing when there is
    none), and writes nothing to the evaluator port.  [RemovePermuter]
    and [Disconnect] for the same handle do write a [remove] message. *)
Theorem init_fail_leaves_evaluator_alone (s : State) (perm_id error : string)
    (handle : Z) :
  Py.int_str perm_id = Some handle ->
  handle ∈ active s ->
  (exists s',
     handle_message s (PermInitFail perm_id error) = Ok s'
     /\ active s' = active s ∖ {[handle]}
     /\ io_queue s' =
          io_queue s ++ [IoFor handle (IoDisconnect "failed to compile")]
     /\ controller_sent s' =
          controller_sent s
          ++ match net_thread s with
             | Some _ => [OutputInitFail handle error]
             | None => []
             end
     /\ evaluator_sent s' = evaluator_sent s)
  /\ (exists s',
       handle_message s (RemovePermuter handle) = Ok s'
       /\ evaluator_sent s' =
            evaluator_sent s ++ [SendJson (JsonRemove (Py.str_int handle))])
  /\ (exists s',
       handle_message s (Disconnect handle) = Ok s'
       /\ evaluator_sent s' =
            evaluator_sent s ++ [SendJson (JsonRemove (Py.str_int handle))]).
Proof.
  intros Hid Hin. cbn [handle_message]. rewrite Hid.
  rewrite !bool_decide_eq_false_2 by (intros Hn; by apply Hn).
  unfold remove. cbn [active evaluator_send].
  rewrite bool_decide_eq_true_2 by done. cbn [bind].
  repeat split; eexists; (split; [reflexivity|]);
    unfold send_controller;
    cbn [net_thread send_io io_put set_active evaluator_send];
    destruct (net_thread s); cbn; rewrite ?app_nil_r; done.
Qed.

Import Examples.

(** The state after [AddPermuter 5] is reached, and 5 is active in it. *)
Lemma active_handles_were_added_witness :
  reachable with_permuter_5
  /\ (5 ∈ active with_permuter_5)
  /\ told_to_add (evaluator_sent with_permuter_5) 5.
Proof.
  assert (reachable with_permuter_5) as Hr.
  { eexists _, [(AddPermuter 5 a_client some_data, false)].
    split; [reflexivity|]. vm_compute. reflexivity. }
  assert (5 ∈ active with_permuter_5) as Hin.
  { apply (bool_decide_unpack _). vm_compute. exact I. }
  split; [exact Hr|]. split; [exact Hin|].
  exact (active_handles_were_added with_permuter_5 5 Hr Hin).
Defined.

(** [work_for_inactive_handle] on a started server: handle 7 was never
    added. *)
Lemma work_for_inactive_handle_witness :
  (7 ∉ active with_permuter_5)
  /\ exists s',
       handle_message with_permuter_5 (Work 7 42) = Ok s'
       /\ evaluator_sent s' = evaluator_sent with_permuter_5
       /\ controller_sent s' = [OutputNeedMoreWork].
Proof.
  assert (7 ∉ active with_permuter_5) as Hin.
  { apply (bool_decide_unpack _). vm_compute. exact I. }
  split; [exact Hin|].
  destruct (work_for_inactive_handle with_permuter_5 7 42 Hin)
    as (s' & Hs' & He & _ & _ & Hc).
  exists s'. split; [exact Hs'|]. split; [exact He|]. exact Hc.
Defined.

(** C4, as stated, fails once the network thread is gone: the server
    (started, then told that network thread 0 disconnected) handles
    [Work] for a handle that is not active without putting any
    [OutputNeedMoreWork] on a controller queue. *)
Lemma work_without_net_thread :
  reachable without_net_thread
  /\ bool_decide (1 ∈ active without_net_thread) = false
  /\ handle_message without_net_thread (Work 1 42) = Ok without_net_thread
  /\ controller_sent without_net_thread = [OutputShutdown].
Proof.
  split.
  { eexists _, [(NetThreadDisconnected 0, false)].
    split; [reflexivity|]. vm_compute. reflexivity. }
  split; [vm_compute; reflexivity|].
  split; vm_compute; reflexivity.
Qed.

(** [membership_errors_asymmetric] on the server that has added
    permuter 5: removing 7 and adding 5 again. *)
Lemma membership_errors_asymmetric_witness :
  (7 ∉ active with_permuter_5)
  /\ (5 ∈ active with_permuter_5)
  /\ handle_message with_permuter_5 (RemovePermuter 7) = Ok with_permuter_5
  /\ handle_message with_permuter_5 (AddPermuter 5 a_client some_data)
     = Raise "Repeated AddPermuter!".
Proof.
  assert (7 ∉ active with_permuter_5) as H7.
  { apply (bool_decide_unpack _). vm_compute. exact I. }
  assert (5 ∈ active with_permuter_5) as H5.
  { apply (bool_decide_unpack _). vm_compute. exact I. }
  split; [exact H7|]. split; [exact H5|].
  split.
  - exact (proj1 (membership_errors_asymmetric with_permuter_5 7
                    a_client some_data) H7).
  - exact (proj2 (membership_errors_asymmetric with_permuter_5 5
                    a_client some_data) H5).
Defined.

(** [init_fail_leaves_evaluator_alone] on the server that has added
    permuter 5, whose initialisation then fails. *)
Lemma init_fail_leaves_evaluator_alone_witness :
  Py.int_str "5" = Some 5
  /\ (5 ∈ active with_permuter_5)
  /\ exists s',
       handle_message with_permuter_5 (PermInitFail "5" "syntax error") = Ok s'
       /\ evaluator_sent s' = evaluator_sent with_permuter_5
       /\ controller_sent s' = [OutputInitFail 5 "syntax error"].
Proof.
  assert (5 ∈ active with_permuter_5) as H5.
  { apply (bool_decide_unpack _). vm_compute. exact I. }
  split; [reflexivity|]. split; [exact H5|].
  destruct (init_fail_leaves_evaluator_alone with_permuter_5 "5"
              "syntax error" 5 eq_refl H5)
    as ((s' & Hs' & _ & _ & Hc & He) & _).
  exists s'. split; [exact Hs'|]. split; [exact He|]. exact Hc.
Defined.

(** C10, as stated, fails once the network thread is gone: a permuter
    added after the disconnection is active, and when its initialisation
    fails no [OutputInitFail] is put on a controller queue. *)
Lemma init_fail_without_net_thread :
  exists s1 s2,
    handle_message without_net_thread (AddPermuter 5 a_client some_data)
      = Ok s1
    /\ bool_decide (5 ∈ active s1) = true
    /\ handle_message s1 (PermInitFail "5" "syntax error") = Ok s2
    /\ controller_sent s2 = [OutputShutdown]
    /\ controller_sent s2 = controller_sent s1
    /\ io_queue s2 =
         io_queue s1 ++ [IoFor 5 (IoDisconnect "failed to compile")].
Proof.
  eexists _, _. split; [vm_compute; reflexivity|].
  split; [vm_compute; reflexivity|].
  split; [vm_compute; reflexivity|].
  repeat split; vm_compute; reflexivity.
Qed.

End ServerFacts.

(* ===================================================================== *)
(** * Part III: further properties of the two files                       *)
(* ===================================================================== *)

(** ** The seed stream as a whole *)

Module SeedPairsFacts.
Import Seeds SeedPairs.

Lemma pairs_of_app rs1 rs2 : pairs_of (rs1 ++ rs2) = pairs_of rs1 ++ pairs_of rs2.
Proof. unfold pairs_of. apply bind_app. Qed.

Lemma pairs_of_cons r rs :
  pairs_of (r :: rs) = ((fun s => (r.1, s)) <$> r.2) ++ pairs_of rs.
Proof. reflexivity. Qed.

(** Dropping a permuter that has no seed left loses no pair. *)
Lemma pairs_of_delete rs i ind :
  rs !! i = Some (ind, []) -> pairs_of (delete i rs) = pairs_of rs.
Proof.
  intros Hi. rewrite <- (take_drop_middle rs i _ Hi) at 2.
  rewrite delete_take_drop, !pairs_of_app, pairs_of_cons. done.
Qed.

(** Taking the next seed of a permuter removes exactly that pair. *)
Lemma pairs_of_insert rs i ind s t :
  rs !! i = Some (ind, s :: t) ->
  pairs_of rs ≡ₚ (ind, s) :: pairs_of (<[i := (ind, t)]> rs).
Proof.
  intros Hi. rewrite <- (take_drop_middle rs i _ Hi) at 1.
  rewrite insert_take_drop by (by eapply lookup_lt_Some).
  rewrite !pairs_of_app, !pairs_of_cons. cbn.
  by rewrite <- Permutation_middle.
Qed.

(** Resuming the generator yields one of the pairs still to come, and
    what is still to come afterwards is the rest; when it ends, nothing
    was left. *)
Lemma advance_pairs fuel g rs :
  Forall2 represents (iterators g) rs ->
  (length (iterators g) < fuel)%nat ->
  match advance fuel g with
  | None => pairs_of rs = []
  | Some (x, g') =>
    exists rs', Forall2 represents (iterators g') rs'
                /\ pairs_of rs ≡ₚ x :: pairs_of rs'
  end.
Proof.
  revert g rs. induction fuel as [|fuel IH]; intros g rs Hrep Hlt; [lia|].
  cbn [advance]. unfold loop_body.
  destruct (iterators g) as [|e0 l0] eqn:El.
  { by apply Forall2_nil_inv_l in Hrep as ->. }
  set (i := Z.to_nat _).
  assert (i < length (e0 :: l0))%nat as Hi.
  { subst i. generalize (Z.mod_pos_bound (cursor g)
      (Z.of_nat (length (e0 :: l0)))).
    generalize (cursor g `mod` Z.of_nat (length (e0 :: l0))).
    cbn [length]. lia. }
  apply lookup_lt_is_Some in Hi as [[ind it] Hit]. rewrite Hit.
  destruct (Forall2_lookup_l _ _ _ _ _ Hrep Hit) as ([ind' l] & Hr & [Hind Hl]).
  cbn in Hind, Hl. subst ind'. unfold seed_next.
  pose proof (Hl 0%nat) as H0. rewrite Nat.add_0_r in H0. rewrite H0.
  destruct l as [|s t]; cbn [lookup list_lookup].
  - specialize (IH (mkGen (delete i (e0 :: l0)) (Z.of_nat i - 1)) (delete i rs)).
    cbn [iterators] in IH. rewrite <- (pairs_of_delete rs i ind Hr).
    replace (cursor g `mod` Z.of_nat (length (e0 :: l0)) - 1)
      with (Z.of_nat i - 1).
    2:{ subst i. rewrite Z2Nat.id; [done|]. apply Z.mod_pos_bound.
        cbn [length]. lia. }
    apply IH; [by apply Forall2_delete|].
    rewrite length_delete by eauto. cbn [length] in *. lia.
  - exists (<[i := (ind, t)]> rs). cbn [iterators]. split.
    + apply Forall2_insert; [done|]. split; [done|]. cbn. intros n.
      rewrite <- Nat.add_succ_r. apply (Hl (S n)).
    + by apply pairs_of_insert.
Qed.

Lemma cycle_take_pairs n g rs :
  Forall2 represents (iterators g) rs ->
  (length (pairs_of rs) <= n)%nat ->
  cycle_take n g ≡ₚ pairs_of rs.
Proof.
  revert g rs. induction n as [|n IH]; intros g rs Hrep Hlen.
  - destruct (pairs_of rs); [done|cbn in Hlen; lia].
  - cbn [cycle_take]. unfold gen_next.
    pose proof (advance_pairs (S (length (iterators g))) g rs Hrep
                  ltac:(lia)) as Hadv.
    destruct (advance _ g) as [[x g']|].
    + destruct Hadv as (rs' & Hrep' & Hperm). rewrite Hperm.
      constructor. apply IH; [done|].
      apply Permutation_length in Hperm. cbn in Hperm. lia.
    + by rewrite Hadv.
Qed.

Lemma cycle_seeds_represents seeds :
  Forall2 represents (iterators (cycle_seeds (finite_iter <$> seeds)))
          (imap (fun perm_ind l => (perm_ind, l)) seeds).
Proof.
  apply Forall2_same_length_lookup. split.
  - cbn. by rewrite !length_imap, length_fmap.
  - intros i [ind it] [ind' l]. cbn [cycle_seeds iterators].
    rewrite !list_lookup_imap, list_lookup_fmap.
    destruct (seeds !! i) as [l0|]; [|done]. cbn.
    intros [= <- <-] [= <- <-]. split; [done|]. done.
Qed.

(** X2.  Over permuters with finite seed spaces the stream ends, and up
    to its end it yields every (permuter index, seed) pair exactly once:
    the first [n] items, for any [n] at least the number of pairs, are a
    rearrangement of all the pairs. *)
Theorem cycle_seeds_yields_every_pair_once (seeds : list (list Z)) (more : nat) :
  cycle_take (length (all_pairs seeds) + more)
             (cycle_seeds (finite_iter <$> seeds))
  ≡ₚ all_pairs seeds.
Proof.
  apply cycle_take_pairs; [apply cycle_seeds_represents|]. unfold all_pairs. lia.
Qed.

End SeedPairsFacts.

(** ** The worker's side of the one-for-one matching *)

Module WorkerSpecFacts.
Import Types Worker WorkerSpec.

Section WithOps.
Context `{ProfilerOps} `{!PermuterOps}.








End WithOps.

Import Examples.


End WorkerSpecFacts.

(** ** More on output directories and result handling *)

Module ResultFacts.
Import Types Output Scoring.

Section WithOps.
Context `{ProfilerOps} `{!PermuterOps}.

Lemma create_file_Some path content fs fs' :
  create_file path content fs = Some fs' ->
  fs' !! path = Some (File content) /\ fs ⊆ fs'.
Proof.
  intros Hc. split; [|by eapply OutputFacts.create_file_grows].
  unfold create_file in Hc. destruct (fs !! path); [done|].
  injection Hc as <-. apply lookup_insert_eq.
Qed.

Lemma write_candidate_Wrote (perm : Permuter)
    (result : CandidateResult) (fs fs' : gmap string Node)
    (output_dir : string) (out : list Printed) :
  write_candidate perm result fs = Wrote output_dir fs' out ->
  exists source ctr,
    output_dir = output_dir_name (perm_dir perm) (cr_score result) ctr
    /\ cr_source result = Some source
    /\ fs !! output_dir = None
    /\ fs' !! output_dir = Some Dir
    /\ fs' !! Py.path_join output_dir "source.c" = Some (File source)
    /\ fs' !! Py.path_join output_dir "base.c" = Some (File (base_source perm))
    /\ fs' !! Py.path_join output_dir "score.txt"
       = Some (File (Py.str_int (cr_score result) +:+ Py.newline))
    /\ fs' !! Py.path_join output_dir "diff.txt"
       = Some (File (perm_diff perm source +:+ Py.newline))
    /\ fs ⊆ fs'
    /\ out = [PrintLn ("wrote to " +:+ output_dir)].
Proof.
  unfold write_candidate.
  destruct (next_output_dir _ _ fs) as [[[ctr d] fs1]|] eqn:E; [|done].
  unfold next_output_dir in E.
  apply OutputFacts.mkdir_loop_Some in E as (_ & -> & Hfree & -> & _).
  destruct (cr_source result) as [source|]; [|done].
  destruct (create_file _ source _) as [fs2|] eqn:E2; cbn [mbind option_bind];
    [|done].
  destruct (create_file _ (base_source perm) fs2) as [fs3|] eqn:E3;
    cbn [mbind option_bind]; [|done].
  destruct (create_file _ _ fs3) as [fs4|] eqn:E4; cbn [mbind option_bind];
    [|done].
  destruct (create_file _ _ fs4) as [fs5|] eqn:E5; [|done].
  intros [= <- <- <-]. exists source, ctr.
  apply create_file_Some in E2 as [L2 S2], E3 as [L3 S3], E4 as [L4 S4],
    E5 as [L5 S5].
  assert (<[output_dir_name (perm_dir perm) (cr_score result) ctr := Dir]> fs
          ⊆ fs5) as S1 by (by repeat (etrans; [eassumption|])).
  repeat split; try done.
  - eapply lookup_weaken; [apply lookup_insert_eq|done].
  - eapply lookup_weaken; [exact L2|]. by repeat (etrans; [eassumption|]).
  - eapply lookup_weaken; [exact L3|]. by repeat (etrans; [eassumption|]).
  - eapply lookup_weaken; [exact L4|]. done.
  - etrans; [|exact S1]. by apply insert_subseteq.
Qed.

(** X4.  When [write_candidate] completes, the directory it reports
    did not exist before, exists now and holds the four files: the
    candidate's source, the base source, the score followed by a newline,
    and the diff followed by a newline; every older entry is still there,
    and the directory is announced on the terminal. *)
Theorem write_candidate_writes_four_files (perm : Permuter)
    (result : CandidateResult) (fs fs' : gmap string Node)
    (output_dir : string) (out : list Printed) :
  write_candidate perm result fs = Wrote output_dir fs' out ->
  exists source,
    cr_source result = Some source
    /\ fs !! output_dir = None
    /\ fs' !! output_dir = Some Dir
    /\ fs' !! Py.path_join output_dir "source.c" = Some (File source)
    /\ fs' !! Py.path_join output_dir "base.c" = Some (File (base_source perm))
    /\ fs' !! Py.path_join output_dir "score.txt"
       = Some (File (Py.str_int (cr_score result) +:+ Py.newline))
    /\ fs' !! Py.path_join output_dir "diff.txt"
       = Some (File (perm_diff perm source +:+ Py.newline))
    /\ fs ⊆ fs'
    /\ out = [PrintLn ("wrote to " +:+ output_dir)].
Proof.
  intros (source & ctr & _ & Hrest)%write_candidate_Wrote. by exists source.
Qed.

(** X5.  A result without a source makes [write_candidate] fail its
    assertion only after the output directory has been created: the new,
    empty directory stays behind. *)
Theorem write_candidate_without_source (perm : Permuter)
    (result : CandidateResult) (fs : gmap string Node) :
  cr_source result = None ->
  exists ctr,
    let output_dir := output_dir_name (perm_dir perm) (cr_score result) ctr in
    fs !! output_dir = None
    /\ write_candidate perm result fs
       = WriteRaised "AssertionError: _need_to_send_source is wrong!"
                     (<[output_dir := Dir]> fs).
Proof.
  intros Hsrc. unfold write_candidate.
  destruct (OutputFacts.next_output_dir_total (perm_dir perm) (cr_score result) fs)
    as [[[ctr d] fs1] E].
  rewrite E, Hsrc. unfold next_output_dir in E.
  apply OutputFacts.mkdir_loop_Some in E as (_ & -> & Hfree & -> & _).
  by exists ctr.
Qed.

(** X6.  For a candidate result, a [post_score] that returns has counted
    one more iteration, has counted one more error exactly when the score
    is [PENALTY_INF], reports a zero exactly when the score is 0, and has
    printed last the progress line with the new counters. *)
Theorem post_score_counts (c c' : EvalContext) (perm_index : nat)
    (permuter : Permuter) (result : CandidateResult) (who : option string)
    (zero : bool) :
  post_score c perm_index permuter (RCandidate result) who = Return zero c' ->
  zero = bool_decide (cr_score result = 0)
  /\ iteration c' = iteration c + 1
  /\ errors c' = errors c
                 + (if bool_decide (cr_score result = penalty_inf permuter)
                    then 1 else 0)
  /\ exists before shown,
       terminal c' =
         before ++ [PrinterProgress
                      ("iteration " +:+ Py.str_int (iteration c') +:+ ", "
                       +:+ Py.str_int (errors c') +:+ " errors, score = "
                       +:+ shown)].
Proof.
  unfold post_score.
  destruct (print_diffs (options c)); [destruct (cr_source result); [|done]|];
    (case_bool_decide;
     destruct (show_timings _); cbn [fst snd];
     (destruct (should_output permuter result);
      [destruct (improvement_message _ _ _);
       destruct (write_candidate _ _ _); [|done]|]);
     intros [= <- <-]; cbn; repeat split; try lia;
     eexists _, _; rewrite ?Z.add_0_r; reflexivity).
Qed.

(** X7.  A [post_score] that returns touches the permuters and the files
    only for a result that [should_output] accepts: then the permuter at
    [perm_index] is the one [record_result] gives and a fresh output
    directory has been created; otherwise both are as before. *)
Theorem post_score_outputs (c c' : EvalContext) (perm_index : nat)
    (permuter : Permuter) (result : CandidateResult) (who : option string)
    (zero : bool) :
  post_score c perm_index permuter (RCandidate result) who = Return zero c' ->
  if should_output permuter result then
    permuters c'
      = <[perm_index := record_result permuter result]> (permuters c)
    /\ files c ⊆ files c'
    /\ exists ctr,
         let d := output_dir_name (perm_dir (record_result permuter result))
                                  (cr_score result) ctr in
         files c !! d = None /\ files c' !! d = Some Dir
  else permuters c' = permuters c /\ files c' = files c.
Proof.
  unfold post_score.
  destruct (print_diffs (options c)); [destruct (cr_source result); [|done]|];
    (case_bool_decide;
     destruct (show_timings _); cbn [fst snd];
     (destruct (should_output permuter result);
      [destruct (improvement_message _ _ _);
       destruct (write_candidate _ _ _) as [d fs' out|] eqn:Hw; [|done]|]);
     intros [= <- <-]; cbn; try done;
     apply write_candidate_Wrote in Hw
       as (src & ctr & -> & _ & Hfree & Hdir & _ & _ & _ & _ & Hsub & _);
     (split; [done|]); (split; [done|]); by exists ctr).
Qed.

End WithOps.

Import Examples MoreExamples.

(** [write_candidate_writes_four_files] on an empty job directory. *)
Lemma write_candidate_writes_four_files_witness :
  exists fs' out,
    write_candidate a_permuter (a_candidate 7) ∅
      = Wrote "job/output-7-1" fs' out
    /\ fs' !! "job/output-7-1/source.c" = Some (File "int y;")
    /\ fs' !! "job/output-7-1/score.txt"
       = Some (File (String "7" Py.newline)).
Proof.
  assert (exists fs' out, write_candidate a_permuter (a_candidate 7) ∅
                          = Wrote "job/output-7-1" fs' out)
    as (fs' & out & Hw).
  { eexists _, _. vm_compute. reflexivity. }
  destruct (write_candidate_writes_four_files _ _ _ _ _ _ Hw)
    as (source & Hs & _ & _ & Hsrc & _ & Hscore & _).
  injection Hs as <-. exists fs', out. split; [exact Hw|].
  split; [exact Hsrc|exact Hscore].
Defined.

(** [write_candidate_without_source] on an empty job directory. *)
Lemma write_candidate_without_source_witness :
  cr_source a_sourceless = None
  /\ exists ctr,
       write_candidate a_permuter a_sourceless ∅
       = WriteRaised "AssertionError: _need_to_send_source is wrong!"
                     (<[output_dir_name "job" 7 ctr := Dir]> ∅).
Proof.
  split; [reflexivity|].
  destruct (write_candidate_without_source a_permuter a_sourceless ∅ eq_refl)
    as (ctr & _ & Hw).
  by exists ctr.
Defined.

(** [post_score_counts] on a first result of score 7. *)
Lemma post_score_counts_witness :
  exists c',
    post_score a_context 0 a_permuter (RCandidate (a_candidate 7)) None
      = Return false c'
    /\ iteration c' = 1 /\ errors c' = 0.
Proof.
  assert (exists c', post_score a_context 0 a_permuter
                       (RCandidate (a_candidate 7)) None = Return false c')
    as (c' & Hp).
  { eexists. vm_compute. reflexivity. }
  destruct (post_score_counts _ _ _ _ _ _ _ Hp) as (_ & Hi & He & _).
  exists c'. split; [exact Hp|]. split; [exact Hi|exact He].
Defined.

(** [post_score_outputs] on the same result, which improves on the best
    score of 100. *)
Lemma post_score_outputs_witness :
  exists c',
    post_score a_context 0 a_permuter (RCandidate (a_candidate 7)) None
      = Return false c'
    /\ best_score <$> permuters c' = [7]
    /\ files a_context ⊆ files c'.
Proof.
  assert (exists c', post_score a_context 0 a_permuter
                       (RCandidate (a_candidate 7)) None = Return false c')
    as (c' & Hp).
  { eexists. vm_compute. reflexivity. }
  pose proof (post_score_outputs _ _ _ _ _ _ _ Hp) as Ho.
  change (should_output a_permuter (a_candidate 7)) with true in Ho.
  destruct Ho as (Hperm & Hsub & _).
  exists c'. split; [exact Hp|]. split; [by rewrite Hperm|exact Hsub].
Defined.

End ResultFacts.

(** ** The rotation on endless iterators *)

Module RotationFacts.
Import Seeds MoreExamples.

(** [cycle_seeds_rotation] on two randomized permuters. *)
Lemma cycle_seeds_rotation_witness :
  two_endless <> []
  /\ Forall endless two_endless
  /\ (cycle_take 5 (cycle_seeds two_endless)).*1 = [0; 1; 0; 1; 0]%nat.
Proof.
  assert (two_endless <> []) as Hne by done.
  assert (Forall endless two_endless) as Hall.
  { repeat constructor; intros n; cbn; eauto. }
  split; [exact Hne|]. split; [exact Hall|].
  exact (SeedsFacts.cycle_seeds_rotation two_endless 5 Hne Hall).
Defined.

End RotationFacts.

(** ** Feeding and the single-threaded loop *)

Module FeedingFacts.
Import Types Output Scoring Coordinator FeedingView.

Section WithOps.
Context `{ProfilerOps} `{!PermuterOps}.

Lemma feed_one_Some c c1 :
  feed_one c = Some c1 ->
  exists item g,
    Seeds.gen_next (perm_seed_iter c) = Some (item, g)
    /\ perm_seed_iter c1 = g
    /\ task_queue c1 = task_queue c ++ [task_of item]
    /\ active_workers c1 = active_workers c.
Proof.
  unfold feed_one. destruct (Seeds.gen_next _) as [[[i s] g]|]; [|done].
  intros [= <-]. by exists (i, s), g.
Qed.

Lemma cycle_take_S n g item g' :
  Seeds.gen_next g = Some (item, g') ->
  Seeds.cycle_take (S n) g = item :: Seeds.cycle_take n g'.
Proof. intros Hn. cbn [Seeds.cycle_take]. by rewrite Hn. Qed.

(** The feeding loop, while it waits for more feedback. *)
Lemma feeding_Waiting c turns c' :
  feeding c turns = Waiting c' ->
  active_workers c' = active_workers c - Z.of_nat (finished_count turns)
  /\ task_queue c' =
       task_queue c
       ++ (task_of <$> Seeds.cycle_take (length turns - finished_count turns)
                                        (perm_seed_iter c)).
Proof.
  revert c. induction turns as [|t turns IH]; intros c; cbn [feeding];
    case_bool_decide; try done.
  { intros [= <-]. cbn. rewrite app_nil_r. split; [lia|done]. }
  rewrite CoordinatorFacts.finished_count_cons.
  assert (Hrefill : forall c0,
    perm_seed_iter c0 = perm_seed_iter c ->
    task_queue c0 = task_queue c ->
    active_workers c0 = active_workers c ->
    match feed_one c0 with
    | Some c1 => feeding c1 turns
    | None => Left c0 turns
    end = Waiting c' ->
    active_workers c' = active_workers c - Z.of_nat (finished_count turns)
    /\ task_queue c' =
         task_queue c
         ++ (task_of <$> Seeds.cycle_take
               (S (length turns - finished_count turns)) (perm_seed_iter c))).
  { intros c0 Hi Hq Ha. destruct (feed_one c0) as [c1|] eqn:Hf; [|done].
    apply feed_one_Some in Hf as (item & g & Hn & Hg & Hq1 & Ha1).
    intros [Hact Hqueue]%IH. rewrite Ha1, Ha in Hact. split; [done|].
    rewrite Hqueue, Hq1, Hq, Hg, <- app_assoc. f_equal.
    rewrite Hi in Hn. by rewrite (cycle_take_S _ _ _ _ Hn). }
  assert (finished_count turns <= length turns)%nat as Hle.
  { unfold finished_count. apply List.filter_length_le. }
  destruct t as [clk [[[reason|text| |i r] who]|now']];
    cbn [arrival clock is_finished length]; [| | | |done].
  - intros [Hact Hqueue]%IH.
    destruct (CoordinatorFacts.process_finish_fields reason who (heartbeat clk c))
      as (Ea & Eq & _).
    rewrite Ea in Hact. rewrite Eq in Hqueue.
    assert (perm_seed_iter (process_finish reason who (heartbeat clk c))
            = perm_seed_iter c) as Ei.
    { unfold process_finish. destruct reason as [r0|]; [|done].
      by case_bool_decide. }
    rewrite Ei in Hqueue.
    change (active_workers (heartbeat clk c)) with (active_workers c) in Hact.
    change (task_queue (heartbeat clk c)) with (task_queue c) in Hqueue.
    split; [lia|]. rewrite Hqueue.
    by replace (S (length turns) - (1 + finished_count turns))%nat
      with (length turns - finished_count turns)%nat by lia.
  - replace (S (length turns) - (0 + finished_count turns))%nat
      with (S (length turns - finished_count turns)) by lia.
    by intros [Hact Hqueue]%Hrefill.
  - replace (S (length turns) - (0 + finished_count turns))%nat
      with (S (length turns - finished_count turns)) by lia.
    by intros [Hact Hqueue]%Hrefill.
  - replace (S (length turns) - (0 + finished_count turns))%nat
      with (S (length turns - finished_count turns)) by lia.
    destruct (process_result i r who (heartbeat clk c)) as [[zero x|code x|exn x]|];
      [|done..].
    destruct zero; cbn [set_found_zero context]; [case_match; [done|]|];
      by intros [Hact Hqueue]%Hrefill.
Qed.

(** X8.  While the feeding loop waits for more feedback it has read all
    the feedback so far, every [Finished] has taken one worker off the
    count, and every other feedback item has been answered by exactly one
    new task: the tasks put on the queue are the first items of the seed
    stream, in stream order, as many as there were such items. *)
Theorem feeding_matches_one_for_one (c c' : Coord) (turns : list Turn) :
  feeding c turns = Waiting c' ->
  active_workers c' = active_workers c - Z.of_nat (finished_count turns)
  /\ task_queue c' =
       task_queue c
       ++ (task_of <$> Seeds.cycle_take (length turns - finished_count turns)
                                        (perm_seed_iter c)).
Proof. apply feeding_Waiting. Qed.

Lemma scored_stream_fst items : forall x rs x',
  scored_stream x items rs x' -> rs.*1 = items.*1.
Proof.
  induction items as [|[i seed] items IH]; intros x [|r rs] x'; cbn; try done.
  intros (p & zero & x1 & _ & -> & _ & Hrest). cbn. f_equal. by eapply IH.
Qed.

(** The single-threaded loop, when it returns. *)
Lemma run_single_Returned c turns bs c' :
  run_single c turns = Returned bs c' ->
  bs = best_score <$> permuters (context c')
  /\ (Seeds.gen_next (perm_seed_iter c') = None
      \/ (stop_on_zero (options (context c')) = true /\ found_zero c' = true))
  /\ task_queue c' = task_queue c
  /\ exists n rs x,
       (n <= length turns)%nat
       /\ scored c' = scored c ++ rs
       /\ scored_stream (context c)
            (Seeds.cycle_take n (perm_seed_iter c)) rs x
       /\ context c' = finished_context (found_zero c') x.
Proof.
  assert (Hfin : forall c0 bs0 c1,
    finish c0 = Returned bs0 c1 ->
    bs0 = best_score <$> permuters (context c1)
    /\ perm_seed_iter c1 = perm_seed_iter c0
    /\ found_zero c1 = found_zero c0
    /\ options (context c1) = options (context c0)
    /\ task_queue c1 = task_queue c0
    /\ scored c1 = scored c0
    /\ context c1 = finished_context (found_zero c1) (context c0)).
  { intros c0 bs0 c1. unfold finish, finished_context.
    destruct (found_zero c0) eqn:Hz;
      intros [= <- <-]; cbn; by rewrite ?Hz. }
  revert c. induction turns as [|t turns IH]; intros c; cbn [run_single];
    destruct (Seeds.gen_next (perm_seed_iter c)) as [[[i s] g]|] eqn:Hn;
    try done;
    try (intros (-> & Hi & Hz & Ho & Hq & Hs & Hx)%Hfin;
         split; [done|]; split; [left; by rewrite Hi|]; split; [done|];
         exists 0%nat, [], (context c); cbn;
         rewrite Hs, app_nil_r; split; [lia|done]).
  destruct t as [clk [fb|now']]; cbn [arrival clock]; [|done].
  change (context (heartbeat clk (set_seed_iter g c))) with (context c).
  destruct (permuters (context c) !! i) as [p|] eqn:Hp; [|done].
  destruct (try_eval_candidate p s) as [r p'] eqn:Hev.
  destruct (post_score _ _ _ _ _) as [zero x1|code x1|exn x1] eqn:Hpost;
    [|done..].
  assert (Hone : forall n rs x,
    scored_stream x1 (Seeds.cycle_take n g) rs x ->
    scored_stream (context c)
      (Seeds.cycle_take (S n) (perm_seed_iter c)) ((i, r) :: rs) x).
  { intros n rs x Hrest. rewrite (cycle_take_S _ _ _ _ Hn). cbn [scored_stream].
    exists p, zero, x1. rewrite Hev. done. }
  assert (Hstep : forall c3,
    perm_seed_iter c3 = g -> task_queue c3 = task_queue c ->
    scored c3 = scored c ++ [(i, r)] -> context c3 = x1 ->
    run_single c3 turns = Returned bs c' ->
    bs = best_score <$> permuters (context c')
    /\ (Seeds.gen_next (perm_seed_iter c') = None
        \/ (stop_on_zero (options (context c')) = true /\ found_zero c' = true))
    /\ task_queue c' = task_queue c
    /\ exists n rs x,
         (n <= S (length turns))%nat
         /\ scored c' = scored c ++ rs
         /\ scored_stream (context c)
              (Seeds.cycle_take n (perm_seed_iter c)) rs x
         /\ context c' = finished_context (found_zero c') x).
  { intros c3 Hi Hq Hs Hx (-> & Hend & Hq' & n & rs & x & Hle & Hs' & Hst & Hx')%IH.
    split; [done|]. split; [done|]. split; [congruence|].
    exists (S n), ((i, r) :: rs), x. split; [lia|].
    split; [by rewrite Hs', Hs, <- app_assoc|]. split; [|done].
    rewrite Hx, Hi in Hst. by apply Hone. }
  destruct zero; cbn [set_found_zero context]; [case_match eqn:Hstop|];
    try (by apply Hstep).
  intros (-> & Hi & Hz & Ho & Hq & Hs & Hx)%Hfin.
  split; [done|]. split; [right; by rewrite Ho, Hz|]. split; [done|].
  exists 1%nat, [(i, r)], x1. split; [cbn; lia|]. split; [by rewrite Hs|].
  split; [|done]. by apply (Hone 0%nat []).
Qed.

(** X9.  When the single-threaded loop returns, it returns the
    permuters' best scores; it stopped because the seed stream had ended
    or because a zero was found under [stop_on_zero]; it put nothing on
    the task queue; and the results it scored are those of the first
    items of the seed stream, in stream order: each is the result of
    [try_eval_candidate] with the seed of its item on the permuter found
    at the index of its item, and each was passed to [post_score], so
    that the context in the end is the one these calls leave, followed by
    the closing line when a zero was found. *)
Theorem single_thread_follows_stream (c c' : Coord) (turns : list Turn)
    (best_scores : list Z) :
  run_single c turns = Returned best_scores c' ->
  best_scores = best_score <$> permuters (context c')
  /\ (Seeds.gen_next (perm_seed_iter c') = None
      \/ (stop_on_zero (options (context c')) = true /\ found_zero c' = true))
  /\ task_queue c' = task_queue c
  /\ exists n rs x,
       (n <= length turns)%nat
       /\ (scored c').*1
          = (scored c).*1 ++ (Seeds.cycle_take n (perm_seed_iter c)).*1
       /\ scored c' = scored c ++ rs
       /\ scored_stream (context c)
            (Seeds.cycle_take n (perm_seed_iter c)) rs x
       /\ context c'
          = (if found_zero c'
             then emit [PrintLn (Py.newline +:+ "Found zero score! Exiting.")] x
             else x).
Proof.
  intros (Hb & Hend & Hq & n & rs & x & Hn & Hs & Hst & Hx)%run_single_Returned.
  split; [done|]. split; [done|]. split; [done|].
  exists n, rs, x. split; [done|]. split; [|done].
  rewrite Hs, fmap_app. f_equal. by eapply scored_stream_fst.
Qed.

End WithOps.

Import Examples MoreExamples.

(** [feeding_matches_one_for_one] on the start of a run with two
    workers: two requests for work, two tasks. *)
Lemma feeding_matches_one_for_one_witness :
  exists c',
    feeding (two_workers false) two_requests = Waiting c'
    /\ active_workers c' = 2
    /\ task_queue c' = [TWork 0 1; TWork 0 2].
Proof.
  assert (exists c', feeding (two_workers false) two_requests = Waiting c')
    as (c' & Hf).
  { eexists. vm_compute. reflexivity. }
  destruct (feeding_matches_one_for_one _ _ _ Hf) as [Ha Hq].
  exists c'. split; [exact Hf|]. split; [exact Ha|exact Hq].
Defined.

(** [single_thread_follows_stream] on a permuter with two seeds. *)
Lemma single_thread_follows_stream_witness :
  exists c' n rs x,
    run_single (one_thread false) three_ticks = Returned [7] c'
    /\ task_queue c' = []
    /\ scored c' = rs
    /\ length rs = 2%nat
    /\ scored_stream (context (one_thread false))
         (Seeds.cycle_take n (perm_seed_iter (one_thread false))) rs x.
Proof.
  assert (exists c', run_single (one_thread false) three_ticks
                     = Returned [7] c'
                     /\ length (scored c') = 2%nat) as (c' & Hr & Hl).
  { eexists. split; vm_compute; reflexivity. }
  destruct (single_thread_follows_stream _ _ _ _ Hr)
    as (_ & _ & Hq & n & rs & x & _ & _ & Hs & Hst & _).
  change (scored c' = rs) in Hs.
  exists c', n, rs, x. split; [exact Hr|]. split; [exact Hq|].
  split; [exact Hs|]. split; [|exact Hst]. rewrite <- Hs. exact Hl.
Defined.

End FeedingFacts.

(** ** [str] and [int] *)

Module PyFacts.
Import Py Numerals.

Lemma parse_digits_chars d acc b :
  parse_digits acc b (chars d)
  = match d with
    | Decimal.Nil => if b then Some acc else None
    | _ => Some (digits_value d acc)
    end.
Proof.
  revert acc b. induction d; intros acc b; [done|..];
    (unfold chars in *;
     cbn [NilEmpty.string_of_uint list_ascii_of_string parse_digits];
     match goal with
     | |- context [digit_value ?c] =>
       let v := eval vm_compute in (digit_value c) in
       change (digit_value c) with v
     end;
     cbv beta iota; rewrite IHd; by destruct d).
Qed.

Lemma of_uint_acc_value d acc :
  Z.pos (Pos.of_uint_acc d acc) = digits_value d (Z.pos acc).
Proof.
  revert acc. induction d; intros acc; cbn [Pos.of_uint_acc digits_value];
    [done|..]; rewrite IHd; f_equal; lia.
Qed.

Lemma of_uint_value d : Z.of_N (Pos.of_uint d) = digits_value d 0.
Proof.
  induction d; cbn [Pos.of_uint digits_value]; [done|exact IHd|..];
    cbn [Z.of_N]; by rewrite of_uint_acc_value.
Qed.

Lemma chars_plain d : Forall plain (chars d).
Proof. induction d; [constructor|..]; by constructor. Qed.

Lemma lstrip_plain l : Forall plain l -> lstrip l = l.
Proof. destruct 1 as [|c l [Hc _] _]; [done|]. cbn. by rewrite Hc. Qed.

Lemma strip_plain l :
  Forall plain l -> rev (lstrip (rev (lstrip l))) = l.
Proof.
  intros Hl. rewrite (lstrip_plain l Hl).
  rewrite lstrip_plain by (by apply Forall_rev). apply rev_involutive.
Qed.

Lemma minus_plain : plain "-"%char.
Proof. done. Qed.

Lemma str_int_chars z :
  list_ascii_of_string (str_int z)
  = match z with
    | Z0 => ["0"%char]
    | Z.pos p => chars (Pos.to_uint p)
    | Z.neg p => "-"%char :: chars (Pos.to_uint p)
    end.
Proof. by destruct z. Qed.

Lemma str_int_plain z : Forall plain (list_ascii_of_string (str_int z)).
Proof.
  rewrite str_int_chars. destruct z; [by repeat constructor|..].
  - apply chars_plain.
  - constructor; [done|apply chars_plain].
Qed.

(** [int(str(n)) == n] *)
Lemma int_str_str_int z : int_str (str_int z) = Some z.
Proof.
  unfold int_str. rewrite strip_plain by apply str_int_plain.
  rewrite str_int_chars. destruct z as [|p|p]; [done|..].
  - pose proof (DecimalPos.Unsigned.of_to p) as Hof.
    pose proof (DecimalPos.Unsigned.to_uint_nonnil p) as Hnn.
    apply (f_equal Z.of_N) in Hof. rewrite of_uint_value in Hof.
    pose proof (parse_digits_chars (Pos.to_uint p) 0 false) as Hp.
    cbn [Z.of_N] in Hof.
    destruct (Pos.to_uint p); [done|..]; unfold chars in Hp |- *;
      cbn [NilEmpty.string_of_uint list_ascii_of_string] in Hp |- *;
      cbv beta iota; rewrite Hp, Hof; done.
  - pose proof (DecimalPos.Unsigned.of_to p) as Hof.
    pose proof (DecimalPos.Unsigned.to_uint_nonnil p) as Hnn.
    apply (f_equal Z.of_N) in Hof. rewrite of_uint_value in Hof.
    cbn [Z.of_N] in Hof.
    rewrite parse_digits_chars. destruct (Pos.to_uint p); [done|..];
      rewrite Hof; done.
Qed.

End PyFacts.

(** ** More on the server's event handler *)

Module ServerMoreFacts.
Import Server EvaluatorView.

(** A property kept by every handled event and by the idle notice holds
    in every state the main loop reaches. *)
Lemma main_loop_invariant (P : State -> Prop) s events s' :
  (forall s1 msg s2, P s1 -> handle_message s1 msg = Ok s2 -> P s2) ->
  (forall s1, P s1 -> P (send_io_global IoWillSleep s1)) ->
  P s -> main_loop s events = Ok s' -> P s'.
Proof.
  intros Hstep Hsleep. revert s.
  induction events as [|[msg queue_empty] events IH]; intros s HP.
  - by intros [= <-].
  - assert (Hgo : bind (handle_message s msg) (fun s1 =>
        main_loop (if bool_decide (active s1 = ∅) && queue_empty
                   then send_io_global IoWillSleep s1 else s1) events) = Ok s'
      -> P s').
    { destruct (handle_message s msg) as [s1|] eqn:Hm; [|done]. cbn [bind].
      apply IH. destruct (_ && _); eauto. }
    destruct msg; cbn [main_loop]; try exact Hgo. by intros [= <-].
Qed.

(** X10.  The main loop stops at a [Shutdown]: no event that follows it
    in the queue is handled. *)
Theorem main_loop_stops_at_shutdown (s : State)
    (before after : list (Activity * bool)) (queue_empty : bool) :
  main_loop s (before ++ (Shutdown, queue_empty) :: after)
  = main_loop s before.
Proof.
  revert s. induction before as [|[msg b] before IH]; intros s; [done|].
  destruct msg; cbn [main_loop app]; try done;
    (destruct (handle_message s _) as [s1|]; [|done]; cbn [bind]; apply IH).
Qed.

(** What removing a list of distinct active handles does. *)
Lemma remove_all_log l s :
  NoDup l -> (forall h, h ∈ l -> h ∈ active s) ->
  exists s',
    foldl (fun r handle => bind r (remove handle)) (Ok s) l = Ok s'
    /\ s' = set_active (active s ∖ list_to_set l)
               (evaluator_send
                  ((fun h => SendJson (JsonRemove (Py.str_int h))) <$> l) s).
Proof.
  intros Hnd. revert s. induction Hnd as [|h l Hh Hnd IH]; intros s Hin.
  - exists s. split; [done|]. destruct s. unfold set_active, evaluator_send.
    cbn. rewrite app_nil_r. f_equal. set_solver.
  - destruct (ServerFacts.remove_active h s) as [s1 Hs1]; [apply Hin; left|].
    cbn [foldl bind]. rewrite Hs1.
    apply ServerFacts.remove_Ok in Hs1 as [_ ->].
    edestruct IH as (s' & -> & ->).
    { intros x Hx. cbn [active set_active evaluator_send].
      apply elem_of_difference. split; [apply Hin; by right|].
      rewrite elem_of_singleton. by intros ->. }
    eexists. split; [done|]. unfold set_active, evaluator_send. cbn.
    rewrite <- app_assoc. f_equal. set_solver.
Qed.

(** X11.  When the current network thread reports its disconnection,
    the server sends one [remove] to the evaluator for every active
    handle, empties the active set, prints a line, puts [Shutdown] on the
    controller queue and drops the thread; a disconnection notice of any
    other thread changes nothing.  The removes follow the order in which
    the set is listed, whatever that order is: the statement holds for
    every listing of the active set. *)
Theorem disconnect_removes_every_permuter (s : State) (thread_id : Z) :
  (net_thread s = Some thread_id ->
   handle_message s (NetThreadDisconnected thread_id)
   = Disconnection.disconnect_in (elements (active s)) s
   /\ (forall order,
        order ≡ₚ elements (active s) ->
        exists s',
          Disconnection.disconnect_in order s = Ok s'
          /\ active s' = ∅
          /\ net_thread s' = None
          /\ evaluator_sent s' =
               evaluator_sent s
               ++ ((fun h => SendJson (JsonRemove (Py.str_int h))) <$> order)
          /\ controller_sent s' = controller_sent s ++ [OutputShutdown]
          /\ io_queue s' = io_queue s
          /\ stdout s' = stdout s ++ ["disconnected from permuter@home"]
          /\ state s' = state s)
   /\ exists s' removes,
        handle_message s (NetThreadDisconnected thread_id) = Ok s'
        /\ active s' = ∅
        /\ net_thread s' = None
        /\ evaluator_sent s' = evaluator_sent s ++ removes
        /\ removes ≡ₚ (fun h => SendJson (JsonRemove (Py.str_int h)))
                        <$> elements (active s)
        /\ controller_sent s' = controller_sent s ++ [OutputShutdown]
        /\ io_queue s' = io_queue s)
  /\ (net_thread s <> Some thread_id ->
      handle_message s (NetThreadDisconnected thread_id) = Ok s).
Proof.
  split.
  - intros Hnt.
    assert (handle_message s (NetThreadDisconnected thread_id)
            = Disconnection.disconnect_in (elements (active s)) s) as Hhm.
    { cbn [handle_message]. rewrite Hnt.
      by rewrite bool_decide_eq_false_2 by (intros Hn; by apply Hn). }
    assert (forall order,
      order ≡ₚ elements (active s) ->
      exists s',
        Disconnection.disconnect_in order s = Ok s'
        /\ active s' = ∅
        /\ net_thread s' = None
        /\ evaluator_sent s' =
             evaluator_sent s
             ++ ((fun h => SendJson (JsonRemove (Py.str_int h))) <$> order)
        /\ controller_sent s' = controller_sent s ++ [OutputShutdown]
        /\ io_queue s' = io_queue s
        /\ stdout s' = stdout s ++ ["disconnected from permuter@home"]
        /\ state s' = state s) as Hall.
    { intros order Horder. unfold Disconnection.disconnect_in.
      destruct (remove_all_log order s) as (s1 & Hs1 & ->).
      { rewrite Horder. apply NoDup_elements. }
      { intros h. by rewrite Horder, elem_of_elements. }
      rewrite Hs1. cbn [bind]. eexists. split; [reflexivity|].
      unfold stop_net_thread. cbn. rewrite Hnt. cbn. repeat split.
      apply set_eq. intros x.
      rewrite elem_of_difference, elem_of_list_to_set, Horder, elem_of_elements.
      set_solver. }
    split; [done|]. split; [done|].
    destruct (Hall (elements (active s))) as (s' & Hs' & Ha & Hn & He & Hc & Hi & _);
      [done|].
    exists s', ((fun h => SendJson (JsonRemove (Py.str_int h)))
                  <$> elements (active s)).
    by rewrite Hhm.
  - intros Hnt. cbn [handle_message]. destruct (net_thread s) as [cur|]; [|done].
    rewrite bool_decide_eq_true_2; [done|]. congruence.
Qed.

(** X12.  A message from the evaluator about a permuter that is no
    longer active (an initialisation report or a result arriving after a
    removal) is not relayed: the server only asks for more work, exactly
    as for a [NeedMoreWork] from the evaluator, and writes nothing to the
    evaluator. *)
Theorem late_evaluator_messages_dropped (s : State) (perm_id : string)
    (handle : Z) :
  Py.int_str perm_id = Some handle ->
  handle ∉ active s ->
  (forall error,
      handle_message s (PermInitFail perm_id error)
      = handle_message s NeedMoreWork)
  /\ (forall base_score base_hash time_us,
        handle_message s (PermInitSuccess perm_id base_score base_hash time_us)
        = handle_message s NeedMoreWork)
  /\ (forall obj time_us compressed_source,
        handle_message s (WorkDone perm_id obj time_us compressed_source)
        = handle_message s NeedMoreWork)
  /\ exists s',
       handle_message s NeedMoreWork = Ok s'
       /\ evaluator_sent s' = evaluator_sent s
       /\ active s' = active s
       /\ io_queue s' = io_queue s.
Proof.
  intros Hid Hin. cbn [handle_message]. rewrite Hid.
  rewrite bool_decide_eq_true_2 by done. repeat split; try done.
  eexists. split; [reflexivity|]. unfold need_work, send_controller.
  by destruct (net_thread s).
Qed.

(** X13.  The ids the server gives the evaluator come back as the same
    handles: for an active handle [h], an initialisation report or a
    result that carries the id [str(h)] is relayed to the controller
    under [h] itself. *)
Theorem evaluator_ids_round_trip (s : State) (h : Z) :
  h ∈ active s ->
  (forall base_score base_hash time_us,
      handle_message s (PermInitSuccess (Py.str_int h) base_score base_hash
                                        time_us)
      = Ok (send_controller
              (OutputInitSuccess h base_score base_hash time_us) s))
  /\ (forall obj time_us compressed_source score,
        score_of obj = Some score ->
        handle_message s (WorkDone (Py.str_int h) obj time_us compressed_source)
        = Ok (send_controller
                (OutputWork h time_us (<["permuter" := JInt h]> obj)
                            compressed_source)
                (send_io h (IoWorkDone score
                              (bool_decide (is_Some compressed_source))) s)))
  /\ (forall error,
        exists s',
          handle_message s (PermInitFail (Py.str_int h) error) = Ok s'
          /\ active s' = active s ∖ {[h]}).
Proof.
  intros Hin. cbn [handle_message]. rewrite PyFacts.int_str_str_int.
  rewrite !bool_decide_eq_false_2 by (intros Hn; by apply Hn).
  repeat split; try done.
  - intros obj time_us src score Hscore.
    assert (score_of (<["permuter" := JInt h]> obj) = score_of obj) as ->.
    { unfold score_of. by rewrite lookup_insert_ne. }
    by rewrite Hscore.
  - intros error. eexists. split; [reflexivity|].
    unfold send_controller. by destruct (net_thread _).
Qed.

Lemma remove_all_subseteq l s s' :
  foldl (fun r handle => bind r (remove handle)) (Ok s) l = Ok s' ->
  active s' ⊆ active s.
Proof.
  revert s. induction l as [|h l IH]; intros s; cbn [foldl bind].
  - by intros [= <-].
  - destruct (remove h s) as [s1|] eqn:Hr.
    + intros Hs'%IH. apply ServerFacts.remove_Ok in Hr as [_ ->].
      cbn in Hs'. set_solver.
    + intros Hbad. exfalso. clear -Hbad.
      induction l as [|? ? IHl]; [done|]. by apply IHl.
Qed.

Lemma active_send_controller m s : active (send_controller m s) = active s.
Proof. unfold send_controller. by destruct (net_thread s). Qed.

Lemma handle_message_active s msg s' :
  handle_message s msg = Ok s' ->
  active s' ⊆ active s
  \/ exists h client data,
       msg = AddPermuter h client data /\ active s' = {[h]} ∪ active s.
Proof.
  destruct msg; cbn [handle_message]; unfold need_work.
  - case_bool_decide; [done|]. intros [= <-]. right. by eexists _, _, _.
  - case_bool_decide; [by intros [= <-]; left|].
    destruct (remove handle s) as [s1|] eqn:Hr; [|done]. intros [= <-].
    apply ServerFacts.remove_Ok in Hr as [_ ->]. left. cbn. set_solver.
  - case_bool_decide; intros [= <-]; left; by rewrite ?active_send_controller.
  - case_bool_decide; [done|]. intros [= <-]. left.
    by rewrite active_send_controller.
  - case_bool_decide; [by intros [= <-]; left|].
    destruct (remove handle s) as [s1|] eqn:Hr; [|done]. intros [= <-].
    apply ServerFacts.remove_Ok in Hr as [_ ->]. left.
    rewrite active_send_controller. cbn. set_solver.
  - destruct (Py.int_str perm_id); [|done].
    case_bool_decide; intros [= <-]; left; rewrite active_send_controller;
      cbn; set_solver.
  - destruct (Py.int_str perm_id); [|done].
    case_bool_decide; intros [= <-]; left; by rewrite active_send_controller.
  - destruct (Py.int_str perm_id); [|done].
    case_bool_decide; [intros [= <-]; left; by rewrite active_send_controller|].
    destruct (score_of _); [|done]. intros [= <-]. left.
    by rewrite active_send_controller.
  - intros [= <-]. left. by rewrite active_send_controller.
  - destruct (net_thread s) as [cur|] eqn:Hnt; [|by intros [= <-]; left].
    case_bool_decide; [by intros [= <-]; left|].
    destruct (foldl _ _ _) as [s1|] eqn:Hf; [|done]. intros [= <-].
    apply remove_all_subseteq in Hf. left.
    unfold stop_net_thread. cbn. by destruct (net_thread s1).
  - intros [= <-]. by left.
  - intros [= <-]. by left.
Qed.

(** X14.  Only [AddPermuter] makes a handle active: a handle that is
    active after an event was active before it, unless the event is the
    [AddPermuter] of that handle. *)
Theorem only_add_activates (s s' : State) (msg : Activity) (h : Z) :
  handle_message s msg = Ok s' ->
  h ∈ active s' ->
  h ∈ active s \/ exists client data, msg = AddPermuter h client data.
Proof.
  intros [Hsub|(h' & client & data & -> & Ha)]%handle_message_active Hin.
  - left. by apply Hsub.
  - rewrite Ha in Hin. apply elem_of_union in Hin as [->%elem_of_singleton|?];
      eauto.
Qed.

(** *** What the evaluator is sent *)

Lemma well_addressed_snoc log m :
  well_addressed log -> addresses log m -> well_addressed (log ++ [m]).
Proof.
  intros Hlog Hm i id Hi. unfold held_at.
  destruct (decide (i < length log)%nat) as [Hlt|Hge].
  - rewrite lookup_app_l in Hi by done. rewrite take_app_le by lia.
    by apply Hlog.
  - rewrite lookup_app_r in Hi by lia.
    destruct (i - length log)%nat as [|k] eqn:Hk.
    2:{ cbn in Hi. destruct Hi as [Hi|[? Hi]]; by destruct k. }
    assert (i = length log) as -> by lia.
    rewrite take_app_length. cbn in Hi.
    destruct Hi as [[= ->]|[seed [= ->]]]; exact Hm.
Qed.

Lemma consistent_ext s s' :
  active s' = active s -> evaluator_sent s' = evaluator_sent s ->
  evaluator_consistent s -> evaluator_consistent s'.
Proof. unfold evaluator_consistent, active_added. by intros -> ->. Qed.

Lemma consistent_controller m s :
  evaluator_consistent s -> evaluator_consistent (send_controller m s).
Proof.
  apply consistent_ext; unfold send_controller; by destruct (net_thread s).
Qed.

Lemma consistent_remove h s s' :
  evaluator_consistent s -> remove h s = Ok s' -> evaluator_consistent s'.
Proof.
  intros [Ha Hw] Hr. split; [by eapply ServerFacts.active_added_remove|].
  apply ServerFacts.remove_Ok in Hr as [Hin ->]. cbn.
  apply well_addressed_snoc; [done|]. exists h. split; [done|]. by apply Ha.
Qed.

Lemma consistent_remove_all l s s' :
  evaluator_consistent s ->
  foldl (fun r handle => bind r (remove handle)) (Ok s) l = Ok s' ->
  evaluator_consistent s'.
Proof.
  revert s. induction l as [|h l IH]; intros s Hs; cbn [foldl bind].
  - by intros [= <-].
  - destruct (remove h s) as [s1|] eqn:Hr.
    + apply IH. by eapply consistent_remove.
    + intros Hbad. exfalso. clear -Hbad.
      induction l as [|? ? IHl]; [done|]. by apply IHl.
Qed.

Lemma handle_message_consistent s msg s' :
  evaluator_consistent s -> handle_message s msg = Ok s' ->
  evaluator_consistent s'.
Proof.
  intros Hs Hm. split.
  { destruct Hs as [Ha _]. by eapply ServerFacts.handle_message_active_added. }
  revert Hm. destruct msg; cbn [handle_message]; unfold need_work.
  - case_bool_decide; [done|]. intros [= <-]. cbn.
    destruct Hs as [_ Hw].
    change (evaluator_sent s ++ [?a; ?b; ?c])
      with (evaluator_sent s ++ [a] ++ [b] ++ [c]).
    rewrite !app_assoc. by repeat (apply well_addressed_snoc; [|done]).
  - case_bool_decide; [intros [= <-]; apply Hs|].
    destruct (remove handle s) as [s1|] eqn:Hr; [|done]. intros [= <-].
    by eapply consistent_remove in Hr as [_ Hw].
  - case_bool_decide as Hin; intros [= <-].
    + by apply (consistent_controller _ _ Hs).
    + cbn. destruct Hs as [Ha Hw]. apply well_addressed_snoc; [done|].
      exists handle. split; [done|]. by apply Ha.
  - case_bool_decide; [done|]. intros [= <-].
    by apply (consistent_controller _ (send_io _ _ s)).
  - case_bool_decide; [intros [= <-]; apply Hs|].
    destruct (remove handle s) as [s1|] eqn:Hr; [|done]. intros [= <-].
    eapply consistent_remove in Hr; [|done].
    by apply (consistent_controller _ (send_io _ _ s1)).
  - destruct (Py.int_str perm_id); [|done].
    case_bool_decide; intros [= <-].
    + by apply (consistent_controller _ _ Hs).
    + destruct Hs as [_ Hw]. unfold send_controller.
      by destruct (net_thread _).
  - destruct (Py.int_str perm_id); [|done].
    case_bool_decide; intros [= <-]; by apply (consistent_controller _ _ Hs).
  - destruct (Py.int_str perm_id); [|done].
    case_bool_decide; [intros [= <-]; by apply (consistent_controller _ _ Hs)|].
    destruct (score_of _); [|done]. intros [= <-].
    by apply (consistent_controller _ (send_io _ _ s)).
  - intros [= <-]. by apply (consistent_controller _ _ Hs).
  - destruct (net_thread s) as [cur|] eqn:Hnt; [|intros [= <-]; apply Hs].
    case_bool_decide; [intros [= <-]; apply Hs|].
    destruct (foldl _ _ _) as [s1|] eqn:Hf; [|done]. intros [= <-].
    eapply consistent_remove_all in Hf as [_ Hw]; [|done].
    unfold stop_net_thread. cbn. by destruct (net_thread s1).
  - intros [= <-]. apply Hs.
  - intros [= <-]. apply Hs.
Qed.

(** X15.  In every state a started server reaches, every [work] and
    every [remove] message it has written to the evaluator names, by
    [str(handle)], a permuter that the evaluator had been told to add,
    and not yet to remove, when the message was written. *)
Theorem evaluator_messages_well_addressed (s : State) :
  reachable s -> well_addressed (evaluator_sent s).
Proof.
  intros (s0 & events & Hs0 & Hloop).
  refine (proj2 (main_loop_invariant evaluator_consistent s0 events s
                   _ _ _ Hloop)).
  - intros. by eapply handle_message_consistent.
  - intros s1. by apply consistent_ext.
  - unfold start in Hs0. cbn in Hs0. injection Hs0 as <-. split.
    + intros h Hh. cbn in Hh. set_solver.
    + intros i id [Hi|[? Hi]]; by destruct i.
Qed.

Import Examples MoreExamples.

(** [evaluator_messages_well_addressed] after an add, a work item and a
    remove for permuter 5. *)
Lemma evaluator_messages_well_addressed_witness :
  reachable after_add_work_remove
  /\ evaluator_sent after_add_work_remove
     = [SendJson (JsonAdd "5" some_data); SendBytes "int x;"; SendBytes "ELF";
        SendJson (JsonWork "5" 42); SendJson (JsonRemove "5")]
  /\ well_addressed (evaluator_sent after_add_work_remove).
Proof.
  assert (reachable after_add_work_remove) as Hr.
  { eexists _, add_work_remove. split; [reflexivity|]. vm_compute. reflexivity. }
  split; [exact Hr|]. split; [vm_compute; reflexivity|].
  exact (evaluator_messages_well_addressed _ Hr).
Defined.

(** [disconnect_removes_every_permuter] on a server that has added
    permuters 1 and 2 and whose network thread has id 0, the set being
    listed as 1, 2. *)
Lemma disconnect_removes_every_permuter_witness :
  net_thread with_permuters_1_2 = Some 0
  /\ [1; 2] ≡ₚ elements (active with_permuters_1_2)
  /\ exists s',
       Disconnection.disconnect_in [1; 2] with_permuters_1_2 = Ok s'
       /\ active s' = ∅
       /\ evaluator_sent s' =
            evaluator_sent with_permuters_1_2
            ++ [SendJson (JsonRemove "1"); SendJson (JsonRemove "2")].
Proof.
  assert ([1; 2] ≡ₚ elements (active with_permuters_1_2)) as Horder.
  { assert (elements (active with_permuters_1_2) = [2; 1]) as ->
      by (vm_compute; reflexivity).
    apply perm_swap. }
  split; [reflexivity|]. split; [exact Horder|].
  destruct (proj1 (disconnect_removes_every_permuter with_permuters_1_2 0)
              eq_refl) as (_ & Hall & _).
  destruct (Hall [1; 2] Horder) as (s' & Hs' & Ha & _ & He & _).
  exists s'. split; [exact Hs'|]. split; [exact Ha|]. rewrite He.
  f_equal.
Defined.

(** [late_evaluator_messages_dropped]: a report for permuter 7, which was
    never added. *)
Lemma late_evaluator_messages_dropped_witness :
  Py.int_str "7" = Some 7
  /\ (7 ∉ active with_permuter_5)
  /\ handle_message with_permuter_5 (PermInitFail "7" "syntax error")
     = handle_message with_permuter_5 NeedMoreWork.
Proof.
  assert (7 ∉ active with_permuter_5) as H7.
  { apply (bool_decide_unpack _). vm_compute. exact I. }
  split; [reflexivity|]. split; [exact H7|].
  exact (proj1 (late_evaluator_messages_dropped with_permuter_5 "7" 7
                  eq_refl H7) "syntax error").
Defined.

(** [evaluator_ids_round_trip]: the report for id "5" is relayed under
    handle 5. *)
Lemma evaluator_ids_round_trip_witness :
  (5 ∈ active with_permuter_5)
  /\ handle_message with_permuter_5
       (PermInitSuccess (Py.str_int 5) 100 "hash" 1.5%float)
     = Ok (send_controller (OutputInitSuccess 5 100 "hash" 1.5%float)
                           with_permuter_5).
Proof.
  assert (5 ∈ active with_permuter_5) as H5.
  { apply (bool_decide_unpack _). vm_compute. exact I. }
  split; [exact H5|].
  exact (proj1 (evaluator_ids_round_trip with_permuter_5 5 H5)
               100 "hash" 1.5%float).
Defined.

(** [only_add_activates]: handle 6 becomes active by its [AddPermuter]. *)
Lemma only_add_activates_witness :
  exists s',
    handle_message with_permuter_5 (AddPermuter 6 a_client some_data) = Ok s'
    /\ (6 ∈ active s')
    /\ (6 ∈ active with_permuter_5
        \/ exists client data,
             AddPermuter 6 a_client some_data = AddPermuter 6 client data).
Proof.
  assert (exists s', handle_message with_permuter_5
                       (AddPermuter 6 a_client some_data) = Ok s'
                     /\ 6 ∈ active s') as (s' & Hs' & H6).
  { eexists. split; [vm_compute; reflexivity|].
    apply (bool_decide_unpack _). vm_compute. exact I. }
  exists s'. split; [exact Hs'|]. split; [exact H6|].
  exact (only_add_activates _ _ _ _ Hs' H6).
Defined.

End ServerMoreFacts.

(** ** The seed printed after a failure and [--seed] *)

Module ForceSeedFacts.
Import Py Numerals ForceSeed PyFacts.

Lemma split_plain (l : list ascii) : Forall plain l -> split "," l = [l].
Proof.
  induction 1 as [|c l [_ Hc] _ IH]; [done|]. cbn [split].
  destruct (Ascii.eqb_spec c ","); [done|]. by rewrite IH.
Qed.

Lemma split_comma (l r : list ascii) :
  Forall plain l -> split "," (l ++ ","%char :: r) = l :: split "," r.
Proof.
  induction 1 as [|c l [_ Hc] _ IH]; [done|]. cbn [split app].
  destruct (Ascii.eqb_spec c ","); [done|]. by rewrite IH.
Qed.

Lemma list_ascii_of_append (a b : string) :
  list_ascii_of_string (a +:+ b)
  = list_ascii_of_string a ++ list_ascii_of_string b.
Proof.
  induction a as [|c a IH]; [done|].
  change (c :: list_ascii_of_string (a +:+ b)
          = c :: (list_ascii_of_string a ++ list_ascii_of_string b)).
  by f_equal.
Qed.

Lemma str_int_nonempty z : str_int z <> "".
Proof.
  intros Hz. apply (f_equal list_ascii_of_string) in Hz.
  rewrite str_int_chars in Hz. destruct z as [|p|p]; [done| |done].
  pose proof (DecimalPos.Unsigned.to_uint_nonnil p) as Hnn.
  destruct (Pos.to_uint p); done.
Qed.

Lemma seed_parts_one z : seed_parts (str_int z) = Some [z].
Proof.
  unfold seed_parts. rewrite split_plain by apply str_int_plain.
  cbn [mapM]. rewrite string_of_list_ascii_of_string, int_str_str_int.
  done.
Qed.

Lemma seed_parts_two a b :
  seed_parts (str_int a +:+ "," +:+ str_int b) = Some [a; b].
Proof.
  unfold seed_parts. rewrite list_ascii_of_append.
  change (list_ascii_of_string ("," +:+ str_int b))
    with (","%char :: list_ascii_of_string (str_int b)).
  rewrite split_comma by apply str_int_plain.
  rewrite split_plain by apply str_int_plain.
  cbn [mapM]. rewrite !string_of_list_ascii_of_string, !int_str_str_int.
  done.
Qed.

(** X16.  The hint that [post_score] prints after an internal failure can
    be pasted back: it is the fixed text followed by an argument that the
    [--seed] parsing of [run_inner] reads as exactly the failing pair
    (permuter seed, random seed), whatever the two numbers are. *)
Theorem reproducer_round_trip (seed : Z * Z) :
  exists arg,
    Scoring.reproducer seed
    = "To reproduce the failure, rerun with: --seed " +:+ arg
    /\ forcing (Some arg) = Forced seed.1 seed.2.
Proof.
  destruct seed as [a b]. unfold Scoring.reproducer. cbn [fst snd].
  case_bool_decide as Ha.
  - exists (str_int a +:+ "," +:+ str_int b). split; [done|].
    unfold forcing. rewrite seed_parts_two.
    destruct (str_int a +:+ "," +:+ str_int b) eqn:Hs.
    + destruct (str_int a) eqn:Hsa; [by destruct (str_int_nonempty a)|done].
    + done.
  - exists (str_int b). split; [done|].
    unfold forcing. rewrite seed_parts_one.
    destruct (str_int b) eqn:Hs; [by destruct (str_int_nonempty b)|].
    cbn. f_equal. by destruct (decide (a = 0)).
Qed.

End ForceSeedFacts.

(** ** The attach stream of the evaluator's container *)

Module DockerFacts.
Import Docker.

Lemma unpack_length h r : unpack h = Some r -> length h = 8%nat.
Proof.
  destruct h as [|? [|? [|? [|? [|? [|? [|? [|? [|? ?]]]]]]]]]; done.
Qed.

Lemma file_read_fixed_app (l more : list Byte.byte) :
  file_read_fixed (l ++ more) (length l) = Some (l, more).
Proof.
  unfold file_read_fixed. rewrite decide_True by (rewrite length_app; lia).
  by rewrite take_app_length, drop_app_length.
Qed.

Lemma stream_of_unpack f stream len :
  unpack (header f) = Some (stream, len) -> stream_of f = stream.
Proof. unfold stream_of. by intros ->. Qed.

Lemma read_one_frame p f more :
  frame_ok f = true ->
  sock p = header f ++ data f ++ more ->
  read_one p = Returned tt (after_frame f more p).
Proof.
  unfold frame_ok, read_one, after_frame. intros Hok Hsock.
  destruct (unpack (header f)) as [[stream len]|] eqn:Hh; [|done].
  apply andb_prop in Hok as [Hstream Hlen%N.eqb_eq].
  rewrite Hsock, <-(unpack_length _ _ Hh), file_read_fixed_app, Hh, Hstream.
  cbn [negb]. rewrite Hlen, Nat2N.id, file_read_fixed_app.
  rewrite (stream_of_unpack _ _ _ Hh). by destruct (stream =? 1)%N.
Qed.

Lemma after_frame_stdout f more p frames :
  stdout_buffer (after_frame f more p) ++ stdout_of frames
  = stdout_buffer p ++ stdout_of (f :: frames).
Proof.
  unfold after_frame. cbn [stdout_of flat_map].
  destruct (stream_of f =? 1)%N; cbn; by rewrite <-?(assoc_L (++)).
Qed.

Lemma after_frame_stderr f more p frames :
  stderr (after_frame f more p) ++ stderr_of frames
  = stderr p ++ stderr_of (f :: frames).
Proof.
  unfold after_frame. cbn [stderr_of flat_map].
  destruct (stream_of f =? 1)%N; cbn; by rewrite <-?(assoc_L (++)).
Qed.

Lemma wire_length frames :
  forallb frame_ok frames = true -> (length frames <= length (wire frames))%nat.
Proof.
  induction frames as [|f frames IH]; [done|]. cbn [forallb wire flat_map].
  intros [Hf Hfs]%andb_prop. specialize (IH Hfs). fold (wire frames).
  unfold frame_ok in Hf.
  destruct (unpack (header f)) as [[]|] eqn:Hh; [|done].
  rewrite !length_app, (unpack_length _ _ Hh). cbn [length]. lia.
Qed.

(** The loop, frame by frame. *)
Lemma receive_loop_frames frames : forall fuel p rest n,
  forallb frame_ok frames = true ->
  sock p = wire frames ++ rest ->
  (n <= length (stdout_buffer p ++ stdout_of frames))%nat ->
  (length frames <= fuel)%nat ->
  exists used unused p',
    frames = used ++ unused
    /\ receive_loop fuel n p
       = Some (Returned (take n (stdout_buffer p ++ stdout_of frames)) p')
    /\ sock p' = wire unused ++ rest
    /\ stdout_buffer p' ++ stdout_of unused
       = drop n (stdout_buffer p ++ stdout_of frames)
    /\ stderr p' = stderr p ++ stderr_of used
    /\ written p' = written p.
Proof.
  induction frames as [|f frames IH]; intros fuel p rest n Hok Hsock Hn Hfuel.
  - exists [], [], (mkDockerPort (sock p) (drop n (stdout_buffer p))
                                 (stderr p) (written p)).
    cbn [stdout_of flat_map] in *. rewrite app_nil_r in *.
    split; [done|]. split.
    + destruct fuel; cbn [receive_loop]; rewrite decide_False by lia;
        by rewrite app_nil_r.
    + cbn. by rewrite !app_nil_r.
  - destruct (decide (length (stdout_buffer p) < n)%nat) as [Hshort|Henough].
    + destruct fuel as [|fuel]; [cbn in Hfuel; lia|].
      cbn [forallb] in Hok. apply andb_prop in Hok as [Hf Hfs].
      cbn [receive_loop]. rewrite decide_True by done.
      rewrite (read_one_frame p f (wire frames ++ rest) Hf)
        by (rewrite Hsock; cbn [wire flat_map]; by rewrite <-!(assoc_L (++))).
      destruct (IH fuel (after_frame f (wire frames ++ rest) p) rest n Hfs)
        as (used & unused & p' & -> & Hloop & Hs' & Hb' & He' & Hw').
      { unfold after_frame. by destruct (stream_of f =? 1)%N. }
      { by rewrite after_frame_stdout. }
      { cbn in Hfuel. lia. }
      exists (f :: used), unused, p'. split; [done|].
      rewrite after_frame_stdout in Hloop, Hb'.
      split; [exact Hloop|]. split; [exact Hs'|]. split; [exact Hb'|].
      split.
      * rewrite He'. apply after_frame_stderr.
      * rewrite Hw'. unfold after_frame. by destruct (stream_of f =? 1)%N.
    + exists [], (f :: frames),
             (mkDockerPort (sock p) (drop n (stdout_buffer p))
                           (stderr p) (written p)).
      split; [done|]. split.
      * destruct fuel; cbn [receive_loop]; rewrite decide_False by done;
          by rewrite take_app_le by lia.
      * cbn [sock stdout_buffer stderr written stderr_of flat_map].
        rewrite app_nil_r. split; [done|]. split; [|done].
        by rewrite drop_app_le by lia.
Qed.

(** When the frames do not hold enough, the loop reads them all. *)
Lemma receive_loop_consumes frames : forall fuel p rest n,
  forallb frame_ok frames = true ->
  sock p = wire frames ++ rest ->
  (length (stdout_buffer p ++ stdout_of frames) < n)%nat ->
  exists p',
    sock p' = rest
    /\ (length (stdout_buffer p') < n)%nat
    /\ receive_loop (length frames + fuel) n p = receive_loop fuel n p'.
Proof.
  induction frames as [|f frames IH]; intros fuel p rest n Hok Hsock Hn.
  - exists p. cbn [stdout_of flat_map] in Hn. rewrite app_nil_r in Hn. done.
  - cbn [forallb] in Hok. apply andb_prop in Hok as [Hf Hfs].
    rewrite <-after_frame_stdout with (more := wire frames ++ rest) in Hn.
    destruct (IH fuel (after_frame f (wire frames ++ rest) p) rest n Hfs)
      as (p' & Hs' & Hb' & Hloop); [|done|].
    { unfold after_frame. by destruct (stream_of f =? 1)%N. }
    exists p'. split; [done|]. split; [done|]. rewrite <-Hloop.
    cbn [length Nat.add receive_loop].
    rewrite decide_True.
    + by rewrite (read_one_frame p f (wire frames ++ rest) Hf)
        by (rewrite Hsock; cbn [wire flat_map]; by rewrite <-!(assoc_L (++))).
    + rewrite length_app in Hn.
      assert (length (stdout_buffer p)
              <= length (stdout_buffer (after_frame f (wire frames ++ rest) p)))%nat;
        [|lia].
      unfold after_frame. destruct (stream_of f =? 1)%N; cbn; [|lia].
      rewrite length_app. lia.
Qed.

Lemma receive_fuel p frames rest :
  forallb frame_ok frames = true ->
  sock p = wire frames ++ rest ->
  S (length (sock p)) = (length frames + S (length (sock p) - length frames))%nat.
Proof.
  intros Hok%wire_length Hsock. rewrite Hsock, length_app. lia.
Qed.

(** X17.  [DockerPort._receive(n)] undoes the framing of the attach
    stream: when the frames still on the socket are well formed and,
    with the buffer, hold at least [n] bytes of standard output, it
    returns exactly the next [n] bytes of standard output, in order, and
    what stays (buffer and unread frames) is the rest of it.  What the
    frames it read carried for standard error went to [sys.stderr], each
    piece after the text "Docker stderr: ". *)
Theorem receive_returns_stdout p frames rest n :
  forallb frame_ok frames = true ->
  sock p = wire frames ++ rest ->
  (n <= length (stdout_buffer p ++ stdout_of frames))%nat ->
  exists used unused p',
    frames = used ++ unused
    /\ receive n p
       = Some (Returned (take n (stdout_buffer p ++ stdout_of frames)) p')
    /\ sock p' = wire unused ++ rest
    /\ stdout_buffer p' ++ stdout_of unused
       = drop n (stdout_buffer p ++ stdout_of frames)
    /\ stderr p' = stderr p ++ stderr_of used
    /\ written p' = written p.
Proof.
  intros Hok Hsock Hn. apply receive_loop_frames; [done..|].
  pose proof (wire_length _ Hok). rewrite Hsock, length_app. lia.
Qed.

(** X18.  When the container closes the stream before [n] bytes of
    standard output have come (fewer than eight bytes follow the last
    complete frame), [_receive(n)] raises [EOFError]. *)
Theorem receive_eof p frames rest n :
  forallb frame_ok frames = true ->
  sock p = wire frames ++ rest ->
  (length rest < 8)%nat ->
  (length (stdout_buffer p ++ stdout_of frames) < n)%nat ->
  receive n p = Some EOFError.
Proof.
  intros Hok Hsock Hrest Hn. unfold receive.
  rewrite (receive_fuel p frames rest Hok Hsock).
  destruct (receive_loop_consumes frames
              (S (length (sock p) - length frames)) p rest n Hok Hsock Hn)
    as (p' & Hs' & Hb' & ->).
  cbn [receive_loop]. rewrite decide_True by done.
  unfold read_one, file_read_fixed. rewrite Hs'.
  by rewrite decide_False by lia.
Qed.

(** X19.  A frame for any stream other than 1 (standard output) and 2
    (standard error) makes [_receive] raise, with the offending header,
    as soon as it has to read that far. *)
Theorem receive_rejects_other_streams p frames h stream len rest n :
  forallb frame_ok frames = true ->
  sock p = wire frames ++ h ++ rest ->
  unpack h = Some (stream, len) ->
  stream <> 1%N -> stream <> 2%N ->
  (length (stdout_buffer p ++ stdout_of frames) < n)%nat ->
  receive n p = Some (Unexpected h).
Proof.
  intros Hok Hsock Hh H1 H2 Hn. unfold receive.
  rewrite (receive_fuel p frames (h ++ rest) Hok Hsock).
  destruct (receive_loop_consumes frames
              (S (length (sock p) - length frames)) p (h ++ rest) n
              Hok Hsock Hn)
    as (p' & Hs' & Hb' & ->).
  cbn [receive_loop]. rewrite decide_True by done.
  unfold read_one. rewrite Hs', <-(unpack_length _ _ Hh).
  rewrite file_read_fixed_app, Hh.
  apply N.eqb_neq in H1, H2. by rewrite H1, H2.
Qed.

(** X20.  [DockerPort._send] retries after short writes: as long as the
    socket goes on accepting bytes, exactly [data] is written, once and
    in order, whatever the sizes of the single writes. *)
Theorem send_writes_everything accepts : forall data p,
  (length data <= sum_list accepts)%nat ->
  exists p' later,
    send accepts data p = Some (p', later)
    /\ written p' = written p ++ data
    /\ sock p' = sock p
    /\ stdout_buffer p' = stdout_buffer p
    /\ stderr p' = stderr p.
Proof.
  unfold send.
  induction accepts as [|ready accepts IH]; intros data p Hlen.
  - destruct data; [|cbn in Hlen; lia]. exists p, [].
    by rewrite app_nil_r.
  - destruct data as [|b data]; [exists p, (ready :: accepts);
                                 by rewrite app_nil_r|].
    cbn [send_loop].
    destruct (IH (drop (ready `min` length (b :: data)) (b :: data))
                 (mkDockerPort (sock p) (stdout_buffer p) (stderr p)
                               (written p ++ take ready (b :: data))))
      as (p' & later & -> & Hw & Hrest).
    { rewrite length_drop. change (sum_list (ready :: accepts))
        with (ready + sum_list accepts)%nat in Hlen. lia. }
    exists p', later. split; [done|]. split; [|exact Hrest].
    rewrite Hw. cbn [written]. rewrite <-(assoc_L (++)). f_equal.
    destruct (decide (ready <= length (b :: data))%nat).
    + rewrite Nat.min_l by done. apply take_drop.
    + rewrite Nat.min_r by lia. rewrite take_ge, drop_all by lia.
      apply app_nil_r.
Qed.

Import MoreExamples.

Lemma receive_returns_stdout_witness :
  forallb frame_ok two_frames = true
  /\ sock a_port = wire two_frames ++ []
  /\ exists used unused p',
       two_frames = used ++ unused
       /\ receive 1 a_port = Some (Returned [Byte.x68] p')
       /\ sock p' = wire unused ++ []
       /\ stdout_buffer p' ++ stdout_of unused = [Byte.x69]
       /\ stderr p' = stderr a_port ++ stderr_of used
       /\ written p' = written a_port.
Proof.
  split; [reflexivity|]. split; [reflexivity|].
  apply (receive_returns_stdout a_port two_frames [] 1);
    [reflexivity|reflexivity|vm_compute; lia].
Defined.

Lemma receive_eof_witness :
  forallb frame_ok two_frames = true
  /\ sock a_port = wire two_frames ++ []
  /\ receive 3 a_port = Some EOFError.
Proof.
  split; [reflexivity|]. split; [reflexivity|].
  apply (receive_eof a_port two_frames [] 3);
    [reflexivity|reflexivity|vm_compute; lia|vm_compute; lia].
Defined.

Lemma receive_rejects_other_streams_witness :
  forallb frame_ok two_frames = true
  /\ unpack stdin_header = Some (0%N, 0%N)
  /\ receive 3 a_confused_port = Some (Unexpected stdin_header).
Proof.
  split; [reflexivity|]. split; [reflexivity|].
  apply (receive_rejects_other_streams a_confused_port two_frames
           stdin_header 0 0 [] 3);
    [reflexivity|reflexivity|reflexivity|lia|lia|vm_compute; lia].
Defined.

Lemma send_writes_everything_witness :
  exists p' later,
    send [2; 0; 5]%nat [Byte.x68; Byte.x69; Byte.x21] a_port
    = Some (p', later)
    /\ written p' = written a_port ++ [Byte.x68; Byte.x69; Byte.x21]
    /\ sock p' = sock a_port
    /\ stdout_buffer p' = stdout_buffer a_port
    /\ stderr p' = stderr a_port.
Proof.
  apply (send_writes_everything [2; 0; 5]%nat
           [Byte.x68; Byte.x69; Byte.x21] a_port).
  vm_compute. lia.
Defined.

End DockerFacts.

(** ** What reaches the controller *)

Module NetThreadFacts.
Import Server NetThread.

Lemma closed_ext s s' :
  net_thread s' = net_thread s -> controller_sent s' = controller_sent s ->
  queue_closed_with_thread s -> queue_closed_with_thread s'.
Proof. unfold queue_closed_with_thread. by intros -> ->. Qed.

Lemma closed_send_controller m s :
  m <> OutputShutdown ->
  queue_closed_with_thread s -> queue_closed_with_thread (send_controller m s).
Proof.
  unfold queue_closed_with_thread, send_controller. intros Hm.
  destruct (net_thread s) eqn:Hnt; cbn; rewrite ?Hnt; [|done].
  intros Hs. rewrite elem_of_app, list_elem_of_singleton.
  by intros [?|?].
Qed.

Lemma closed_remove h s s' :
  remove h s = Ok s' ->
  queue_closed_with_thread s -> queue_closed_with_thread s'.
Proof. intros [_ ->]%ServerFacts.remove_Ok. by apply closed_ext. Qed.

Lemma closed_remove_all l : forall s s',
  foldl (fun r handle => bind r (remove handle)) (Ok s) l = Ok s' ->
  net_thread s' = net_thread s /\ controller_sent s' = controller_sent s.
Proof.
  induction l as [|h l IH]; intros s s'; cbn [foldl bind].
  - by intros [= <-].
  - destruct (remove h s) as [s1|] eqn:Hr.
    + intros [-> ->]%IH. by apply ServerFacts.remove_Ok in Hr as [_ ->].
    + intros Hbad. exfalso. clear -Hbad.
      induction l as [|? ? IHl]; [done|]. by apply IHl.
Qed.

Lemma handle_message_closed s msg s' :
  queue_closed_with_thread s -> handle_message s msg = Ok s' ->
  queue_closed_with_thread s'.
Proof.
  intros Hs. destruct msg; cbn [handle_message]; unfold need_work.
  - case_bool_decide; [done|]. intros [= <-]. revert Hs. by apply closed_ext.
  - case_bool_decide; [by intros [= <-]|].
    destruct (remove handle s) as [s1|] eqn:Hr; [|done]. intros [= <-].
    eapply closed_remove in Hr; [|done]. revert Hr. by apply closed_ext.
  - case_bool_decide; intros [= <-].
    + by apply closed_send_controller.
    + revert Hs. by apply closed_ext.
  - case_bool_decide; [done|]. intros [= <-].
    apply closed_send_controller; [done|]. revert Hs. by apply closed_ext.
  - case_bool_decide; [by intros [= <-]|].
    destruct (remove handle s) as [s1|] eqn:Hr; [|done]. intros [= <-].
    eapply closed_remove in Hr; [|done].
    apply closed_send_controller; [done|]. revert Hr. by apply closed_ext.
  - destruct (Py.int_str perm_id); [|done].
    case_bool_decide; intros [= <-]; (apply closed_send_controller; [done|]);
      [done|]. revert Hs. by apply closed_ext.
  - destruct (Py.int_str perm_id); [|done].
    case_bool_decide; intros [= <-]; by apply closed_send_controller.
  - destruct (Py.int_str perm_id); [|done].
    case_bool_decide; [intros [= <-]; by apply closed_send_controller|].
    destruct (score_of _); [|done]. intros [= <-].
    apply closed_send_controller; [done|]. revert Hs. by apply closed_ext.
  - intros [= <-]. by apply closed_send_controller.
  - destruct (net_thread s) as [cur|] eqn:Hnt; [|by intros [= <-]].
    case_bool_decide; [by intros [= <-]|].
    destruct (foldl _ _ _) as [s1|] eqn:Hf; [|done]. intros [= <-].
    apply closed_remove_all in Hf as [Hnt1 Hc1].
    unfold queue_closed_with_thread in *. rewrite Hnt in Hs.
    unfold stop_net_thread. cbn [net_thread print]. rewrite Hnt1, Hnt. cbn.
    rewrite Hc1. eauto.
  - by intros [= <-].
  - by intros [= <-].
Qed.

Lemma reachable_closed s : reachable s -> queue_closed_with_thread s.
Proof.
  intros (s0 & events & Hs0 & Hloop).
  refine (ServerMoreFacts.main_loop_invariant queue_closed_with_thread
            s0 events s _ _ _ Hloop).
  - intros. by eapply handle_message_closed.
  - intros s1. by apply closed_ext.
  - unfold start in Hs0. cbn in Hs0. injection Hs0 as <-. cbn.
    apply not_elem_of_nil.
Qed.

Lemma write_loop_open queue :
  OutputShutdown ∉ queue ->
  write_loop queue = (flat_map write_one queue, false).
Proof.
  induction queue as [|item queue IH]; [done|].
  rewrite not_elem_of_cons. intros [Hitem Hqueue].
  cbn [write_loop flat_map]. rewrite (IH Hqueue). by destruct item.
Qed.

Lemma write_loop_closed before after :
  OutputShutdown ∉ before ->
  write_loop (before ++ OutputShutdown :: after)
  = (flat_map write_one before, true).
Proof.
  induction before as [|item before IH]; [done|].
  rewrite not_elem_of_cons. intros [Hitem Hbefore].
  cbn [write_loop flat_map app]. rewrite (IH Hbefore). by destruct item.
Qed.

(** No handler touches [_state]. *)
Lemma state_send_controller m s : state (send_controller m s) = state s.
Proof. unfold send_controller. by destruct (net_thread s). Qed.

Lemma state_remove h s s' : remove h s = Ok s' -> state s' = state s.
Proof. by intros [_ ->]%ServerFacts.remove_Ok. Qed.

Lemma state_remove_all l : forall s s',
  foldl (fun r handle => bind r (remove handle)) (Ok s) l = Ok s' ->
  state s' = state s.
Proof.
  induction l as [|h l IH]; intros s s'; cbn [foldl bind].
  - by intros [= <-].
  - destruct (remove h s) as [s1|] eqn:Hr.
    + intros ->%IH. by apply state_remove in Hr.
    + intros Hbad. exfalso. clear -Hbad.
      induction l as [|? ? IHl]; [done|]. by apply IHl.
Qed.

Lemma handle_message_state s msg s' :
  handle_message s msg = Ok s' -> state s' = state s.
Proof.
  destruct msg; cbn [handle_message]; unfold need_work.
  - by case_bool_decide; intros [= <-].
  - case_bool_decide; [by intros [= <-]|].
    destruct (remove handle s) as [s1|] eqn:Hr; [|done]. intros [= <-].
    by apply state_remove in Hr.
  - case_bool_decide; intros [= <-]; [|done]. apply state_send_controller.
  - case_bool_decide; [done|]. intros [= <-].
    by rewrite state_send_controller.
  - case_bool_decide; [by intros [= <-]|].
    destruct (remove handle s) as [s1|] eqn:Hr; [|done]. intros [= <-].
    rewrite state_send_controller. by apply state_remove in Hr.
  - destruct (Py.int_str perm_id); [|done].
    case_bool_decide; intros [= <-]; by rewrite state_send_controller.
  - destruct (Py.int_str perm_id); [|done].
    case_bool_decide; intros [= <-]; by rewrite state_send_controller.
  - destruct (Py.int_str perm_id); [|done].
    case_bool_decide; [intros [= <-]; by rewrite state_send_controller|].
    destruct (score_of _); [|done]. intros [= <-].
    by rewrite state_send_controller.
  - intros [= <-]. apply state_send_controller.
  - destruct (net_thread s) as [cur|] eqn:Hnt; [|by intros [= <-]].
    case_bool_decide; [by intros [= <-]|].
    destruct (foldl _ _ _) as [s1|] eqn:Hf; [|done]. intros [= <-].
    apply state_remove_all in Hf. rewrite <- Hf.
    unfold stop_net_thread. cbn [net_thread print].
    by destruct (net_thread s1).
  - by intros [= <-].
  - by intros [= <-].
Qed.

(** As long as [stop()] has not begun, the queue is closed exactly with
    the thread. *)
Lemma reaches_closed s :
  Lifecycle.reaches s -> state s = "started" -> queue_closed_with_thread s.
Proof.
  induction 1 as [s Hs0|s msg s' _ IH Hm|s _ IH|s s' _ IH Hb|s _ IH Hf|s _ IH Hf];
    intros Hst.
  - unfold start in Hs0. cbn in Hs0. injection Hs0 as <-. cbn.
    apply not_elem_of_nil.
  - eapply handle_message_closed; [|done]. apply IH.
    by rewrite <- (handle_message_state _ _ _ Hm).
  - apply (closed_ext s); [done|done|]. by apply IH.
  - unfold Lifecycle.stop_begin in Hb. case_bool_decide; [|done].
    injection Hb as <-. done.
  - unfold Lifecycle.stop_signal in Hst.
    destruct (net_thread s); cbn in Hst; congruence.
  - cbn in Hst. congruence.
Qed.

(** The states the main loop reaches are among them, and [stop()] has not
    begun in any of them. *)
Lemma reachable_reaches s :
  reachable s -> Lifecycle.reaches s /\ state s = "started".
Proof.
  intros (s0 & events & Hs0 & Hloop).
  refine (ServerMoreFacts.main_loop_invariant
            (fun s => Lifecycle.reaches s /\ state s = "started")
            s0 events s _ _ _ Hloop).
  - intros s1 msg s2 [Hr Hst] Hm. split.
    + by eapply Lifecycle.reaches_event.
    + by rewrite (handle_message_state _ _ _ Hm).
  - intros s1 [Hr Hst]. split; [by apply Lifecycle.reaches_sleep|done].
  - split; [by apply Lifecycle.reaches_start|].
    unfold start in Hs0. cbn in Hs0. by injection Hs0 as <-.
Qed.

(** X21.  Until [Server.stop()] is called, nothing the server puts on the
    controller queue is lost behind a [Shutdown]: in every state that a
    started server reaches while its [_state] is still ["started"] (the
    main loop handling events; the steps of a [stop()] run by another
    thread may come anywhere in between, and flip [_state] first), the
    write loop of the network thread sends, in order, the messages of
    everything on the queue, and it has ended exactly when the server
    has dropped its network thread.  The states that the main loop
    reaches by itself are of this kind. *)
Theorem controller_queue_fully_written (s : State) :
  (Lifecycle.reaches s -> state s = "started" ->
   write_loop (controller_sent s)
   = (flat_map write_one (controller_sent s),
      bool_decide (net_thread s = None)))
  /\ (reachable s -> Lifecycle.reaches s /\ state s = "started").
Proof.
  split; [|apply reachable_reaches].
  intros Hr Hst. pose proof (reaches_closed s Hr Hst) as Hs.
  unfold queue_closed_with_thread in Hs.
  destruct (net_thread s) as [t|].
  - by rewrite write_loop_open.
  - destruct Hs as (before & -> & Hbefore).
    rewrite write_loop_closed by done.
    rewrite flat_map_app. cbn. by rewrite app_nil_r.
Qed.

(** X22.  A result of the evaluator reaches the controller unchanged:
    for an active permuter [h] and a live network thread, the [update]
    object written for [WorkDone] holds every entry of the evaluator's
    object, except that ["permuter"] is the handle [h]; it holds nothing
    else, except ["type": "work"] when the evaluator's object has no
    ["type"] of its own.  The compressed source follows as a raw frame
    exactly when there is one. *)
Theorem work_result_relayed (s : State) (h t : Z) (obj : gmap string Json)
    (time_us : float) (compressed_source : option string)
    (score : option Z) :
  h ∈ active s ->
  net_thread s = Some t ->
  score_of obj = Some score ->
  exists s' item update,
    handle_message s (WorkDone (Py.str_int h) obj time_us compressed_source)
    = Ok s'
    /\ controller_sent s' = controller_sent s ++ [item]
    /\ write_one item
       = NetSendJson (NetUpdate h (JFloat time_us) update)
         :: match compressed_source with
            | Some data => [NetSendBytes data]
            | None => []
            end
    /\ update !! "permuter" = Some (JInt h)
    /\ update !! "type" = Some (default (JStr "work") (obj !! "type"))
    /\ (forall k, k <> "permuter" -> is_Some (obj !! k) ->
                  update !! k = obj !! k)
    /\ (forall k, is_Some (update !! k) ->
                  k = "permuter" \/ k = "type" \/ is_Some (obj !! k)).
Proof.
  intros Hin Hnt Hscore. cbn [handle_message].
  rewrite PyFacts.int_str_str_int, bool_decide_false by (by intros []).
  assert (score_of (<["permuter" := JInt h]> obj) = Some score) as ->.
  { unfold score_of in *. by rewrite lookup_insert_ne. }
  unfold send_controller, send_io. cbn [net_thread io_put]. rewrite Hnt.
  eexists _, _, _. split; [done|]. split; [done|]. split; [done|].
  split; [|split; [|split]].
  - apply lookup_union_Some_l. apply lookup_insert_eq.
  - rewrite lookup_union, lookup_insert_ne, lookup_singleton_eq by done.
    by destruct (obj !! "type").
  - intros k Hk [v Hv]. rewrite Hv. apply lookup_union_Some_l.
    by rewrite lookup_insert_ne.
  - intros k [v Hv]. apply lookup_union_Some_raw in Hv as [Hv|[_ Hv]].
    + destruct (decide (k = "permuter")) as [->|Hk]; [by left|].
      right; right. rewrite lookup_insert_ne in Hv by done. by exists v.
    + right; left. by apply lookup_singleton_Some in Hv as [<- _].
Qed.

Import Examples MoreExamples.

Lemma controller_queue_fully_written_witness :
  reachable without_net_thread
  /\ state without_net_thread = "started"
  /\ write_loop (controller_sent without_net_thread) = ([], true)
  /\ exists s,
       Lifecycle.reaches s
       /\ state s = "finished"
       /\ controller_sent s = [OutputShutdown; OutputNeedMoreWork]
       /\ write_loop (controller_sent s) = ([], true).
Proof.
  assert (reachable without_net_thread) as Hr.
  { eexists _, [(NetThreadDisconnected 0, false)].
    split; [reflexivity|]. vm_compute. reflexivity. }
  split; [exact Hr|]. split; [reflexivity|].
  destruct (proj2 (controller_queue_fully_written without_net_thread) Hr)
    as [Hreach Hst].
  split;
    [exact (proj1 (controller_queue_fully_written without_net_thread)
                  Hreach Hst)|].
  assert (reachable with_permuter_5) as Hr5.
  { eexists _, [(AddPermuter 5 a_client some_data, false)].
    split; [reflexivity|]. vm_compute. reflexivity. }
  exists (need_work (Lifecycle.stop_signal
                       (Lifecycle.set_state "finished" with_permuter_5))).
  split; [|by vm_compute].
  apply (Lifecycle.reaches_event
           (Lifecycle.stop_signal
              (Lifecycle.set_state "finished" with_permuter_5))
           NeedMoreWork); [|reflexivity].
  apply Lifecycle.reaches_stop_signal; [|reflexivity].
  apply (Lifecycle.reaches_stop_begin with_permuter_5); [|reflexivity].
  apply (proj2 (controller_queue_fully_written with_permuter_5) Hr5).
Defined.

Lemma work_result_relayed_witness :
  (5 ∈ active with_permuter_5)
  /\ net_thread with_permuter_5 = Some 0
  /\ score_of a_result_object = Some (Some 10)
  /\ exists s' item update,
       handle_message with_permuter_5
         (WorkDone (Py.str_int 5) a_result_object 1.5%float (Some "zlib"))
       = Ok s'
       /\ controller_sent s' = controller_sent with_permuter_5 ++ [item]
       /\ write_one item
          = [NetSendJson (NetUpdate 5 (JFloat 1.5%float) update);
             NetSendBytes "zlib"]
       /\ update !! "permuter" = Some (JInt 5)
       /\ update !! "type" = Some (JStr "result").
Proof.
  assert (5 ∈ active with_permuter_5) as H5.
  { apply (bool_decide_unpack _). vm_compute. exact I. }
  split; [exact H5|]. split; [reflexivity|]. split; [reflexivity|].
  destruct (work_result_relayed with_permuter_5 5 0 a_result_object
              1.5%float (Some "zlib") (Some 10) H5 eq_refl eq_refl)
    as (s' & item & update & Hm & Hc & Hw & Hp & Ht & _).
  exists s', item, update. by repeat split.
Defined.

End NetThreadFacts.

(** ** The range check of the command line *)

Module ArgsFacts.
Import Args.

Lemma SFcompare_antisym x y :
  SFcompare y x = option_map CompOpp (SFcompare x y).
Proof.
  destruct x as [sx|sx| |sx mx ex], y as [sy|sy| |sy my ey];
    try (by repeat match goal with b : bool |- _ => destruct b end).
  destruct sx, sy; cbn [SFcompare option_map]; try done;
    rewrite (Z.compare_antisym ex ey);
    destruct (ex ?= ey)%Z; cbn [CompOpp]; try done;
    rewrite !Pos.compare_cont_spec; cbn [Pos.switch_Eq];
    rewrite (Pos.compare_antisym mx my); by destruct (mx ?= my)%positive.
Qed.

Lemma SFcompare_None x y :
  SFcompare x y = None -> x = S754_nan \/ y = S754_nan.
Proof.
  destruct x, y; cbn; try done; auto.
Qed.

Lemma is_nan_false x : PrimFloat.is_nan x = false -> Prim2SF x <> S754_nan.
Proof.
  unfold PrimFloat.is_nan. rewrite FloatAxioms.eqb_spec. intros Hx Hnan.
  by rewrite Hnan in Hx.
Qed.

(** Between two numbers, "not less" is "greater or equal". *)
Lemma not_ltb_leb x y :
  PrimFloat.is_nan x = false -> PrimFloat.is_nan y = false ->
  PrimFloat.ltb x y = false -> PrimFloat.leb y x = true.
Proof.
  intros Hx%is_nan_false Hy%is_nan_false.
  rewrite FloatAxioms.ltb_spec, FloatAxioms.leb_spec.
  unfold SFltb, SFleb. rewrite (SFcompare_antisym (Prim2SF x) (Prim2SF y)).
  destruct (SFcompare (Prim2SF x) (Prim2SF y)) as [[]|] eqn:Hc; try done.
  by destruct (SFcompare_None _ _ Hc).
Qed.

(** X23.  A number that [restricted_float(lo, hi)] accepts lies in the
    closed range from [lo] to [hi]. *)
Theorem restricted_float_in_range (float_of : string -> option float)
    (lo hi ret : float) (x : string) :
  PrimFloat.is_nan lo = false -> PrimFloat.is_nan hi = false ->
  restricted_float float_of lo hi x = Accepted ret ->
  PrimFloat.is_nan ret = false ->
  float_of x = Some ret
  /\ PrimFloat.leb lo ret = true /\ PrimFloat.leb ret hi = true.
Proof.
  intros Hlo Hhi. unfold restricted_float.
  destruct (float_of x) as [r|]; [|done].
  destruct (PrimFloat.ltb r lo) eqn:H1; [done|].
  destruct (PrimFloat.ltb hi r) eqn:H2; [done|]. cbn [orb].
  intros [= ->] Hret. split; [done|]. split; by apply not_ltb_leb.
Qed.

(** X24.  The range check lets "not a number" through: whatever the
    bounds, an argument that [float] reads as NaN is accepted, because
    both comparisons with NaN are false. *)
Theorem restricted_float_accepts_nan (float_of : string -> option float)
    (lo hi ret : float) (x : string) :
  float_of x = Some ret ->
  PrimFloat.is_nan ret = true ->
  restricted_float float_of lo hi x = Accepted ret.
Proof.
  intros Hx Hnan. unfold restricted_float. rewrite Hx.
  assert (Prim2SF ret = S754_nan) as Hsf.
  { unfold Prim2SF. by rewrite Hnan. }
  rewrite !FloatAxioms.ltb_spec, Hsf. cbn [SFltb SFcompare].
  by destruct (Prim2SF lo), (Prim2SF hi).
Qed.

Import MoreExamples.

Lemma restricted_float_in_range_witness :
  restricted_float float_of_sample 0%float 1%float "0.5" = Accepted 0.5%float
  /\ PrimFloat.leb 0%float 0.5%float = true
  /\ PrimFloat.leb 0.5%float 1%float = true.
Proof.
  split; [reflexivity|].
  apply (restricted_float_in_range float_of_sample 0%float 1%float
           0.5%float "0.5"); reflexivity.
Defined.

Lemma restricted_float_accepts_nan_witness :
  float_of_sample "nan" = Some PrimFloat.nan
  /\ restricted_float float_of_sample 0%float 1%float "nan"
     = Accepted PrimFloat.nan.
Proof.
  split; [reflexivity|].
  apply (restricted_float_accepts_nan float_of_sample 0%float 1%float
           PrimFloat.nan "nan"); reflexivity.
Defined.

End ArgsFacts.
